(** * Task monitoring of bili2text's web client

    A shallow embedding of [monitorTask] (static/js/taskMonitor.js, and its
    twin [App.monitorTask] in static/js/app.js) together with the UI helpers
    it calls ([showTaskModal], [hideTaskModal], [showNotification] of ui.js).

    Modelling conventions.
    - JavaScript numbers are rationals ([Q]).  The run of the monitor
      computes with them exactly, the literals 0.5, 0.1, 0.99, 5 and 100
      being their decimal values; the single step of the animator, whose
      branch depends on the rounding, is also given with every operation
      rounded to binary64 ([double], [animateProgress64]).  [NaN] only shows
      up when [elapsed_time] is absent, and is kept as [None] there.
    - The closure variables of [monitorTask] form the record [Closure]; the
      page elements the monitor touches form [Dom]; the host's timer queue,
      its animation-frame queue and the awaited status requests form the rest
      of [World].
    - Every host call the monitor makes is appended to [trace], newest first.
    - An [await]/[then] continuation is a function from the settled response
      and the world to the next world; an exception raised inside [try] is
      the [Thrown] completion, handed to the [catch] block. *)

From Stdlib Require Import ZArith QArith Qabs Qminmax Qround Qpower.
From Stdlib Require Import String Ascii List Sorted Bool Lia Lqa DecimalString.
Import ListNotations.

Local Open Scope string_scope.
Local Open Scope Z_scope.

(** ** JavaScript values *)

Definition Qltb (x y : Q) : bool := negb (Qle_bool y x).

(** [x || d] on an optional number: absent and [0] are both falsy. *)
Definition num_or (x : option Q) (d : Q) : Q :=
  match x with
  | Some q => if Qeq_bool q 0 then d else q
  | None => d
  end.

(** [x || d] on an optional string: absent and the empty string are falsy. *)
Definition str_or (x : option string) (d : string) : string :=
  match x with
  | Some EmptyString => d
  | Some s => s
  | None => d
  end.

(** Printing of an integer-valued number ([None] is [NaN]); plain decimal,
    as JavaScript prints integers below 1e21. *)
Definition num_toString (n : option Z) : string :=
  match n with
  | Some z => NilZero.string_of_int (Z.to_int z)
  | None => "NaN"
  end.

(** [s.padStart(2, '0')] *)
Definition padStart2 (s : string) : string :=
  if (String.length s <? 2)%nat then "0" ++ s else s.

(** ** Wire data *)

(** The JSON body of [GET /api/task/{taskId}]. *)
Record TaskData := mkTaskData {
  success : bool;
  status : option string;
  progress : option Q;
  stage_name : option string;
  elapsed_time : option Q;
  error : option string
}.

(** [data.status === s] *)
Definition status_is (data : TaskData) (s : string) : bool :=
  match status data with
  | Some t => String.eqb t s
  | None => false
  end.

(** How the awaited request settles: a parsed body, or a rejection (network
    error, unparsable body). *)
Inductive Settled :=
| Fulfilled (data : TaskData)
| Rejected.

(** ** Host state *)

(** The functions handed to [setTimeout]. *)
Inductive Callback :=
| CbCheckStatus                    (* setTimeout(checkStatus, ...) *)
| CbCompleted                      (* the 1500 ms closure of the completed branch *)
| CbNavigate (path : string)       (* its nested 1000 ms closure *)
| CbFailed                         (* the 1500 ms closure of the failed branch *)
| CbApiError (message : string)    (* the 1000 ms closure of the success:false branch *)
| CbHideNotification.              (* the 5000 ms closure of showNotification *)

Inductive Effect :=
| FxFetch (taskId : string)
| FxSetTimeout (cb : Callback) (delay : Z)
| FxRequestFrame (handle : positive) (targetProgress : Q)
| FxCancelFrame (handle : positive)
| FxSetWidth (percent : Q)
| FxSetStatus (text : string)
| FxHideTaskModal
| FxNotify (title message type : string)
| FxHideNotification
| FxNavigate (path : string)
| FxConsoleError.

(** The closure variables of [monitorTask]. *)
Record Closure := mkClosure {
  lastProgress : Q;
  animationFrame : option positive;
  currentStageName : string;
  checkInterval : Z;
  checkCount : Z
}.

(** The page: [None] is an element that [getElementById] does not find.
    For the progress bar the inner option is [style.width], empty or a
    percentage; for the modal the boolean is its [hidden] class. *)
Record Dom := mkDom {
  task_modal : option bool;
  task_status : option string;
  task_progress : option (option Q)
}.

Record World := mkWorld {
  vars : Closure;
  dom : Dom;
  timers : list (Z * Callback);
  frames : list (positive * Q);
  next_handle : positive;
  in_flight : nat;
  trace : list Effect
}.

Definition with_vars (c : Closure) (w : World) : World :=
  mkWorld c (dom w) (timers w) (frames w) (next_handle w) (in_flight w) (trace w).

Definition with_dom (d : Dom) (w : World) : World :=
  mkWorld (vars w) d (timers w) (frames w) (next_handle w) (in_flight w) (trace w).

Definition emit (e : Effect) (w : World) : World :=
  mkWorld (vars w) (dom w) (timers w) (frames w) (next_handle w) (in_flight w)
          (e :: trace w).

Definition setTimeout (cb : Callback) (delay : Z) (w : World) : World :=
  mkWorld (vars w) (dom w) (timers w ++ [(delay, cb)])%list (frames w)
          (next_handle w) (in_flight w) (FxSetTimeout cb delay :: trace w).

(** [animationFrame = requestAnimationFrame(() => animateProgress(targetProgress))] *)
Definition requestAnimationFrame (targetProgress : Q) (w : World) : World :=
  let h := next_handle w in
  let c := vars w in
  mkWorld (mkClosure (lastProgress c) (Some h) (currentStageName c)
                     (checkInterval c) (checkCount c))
          (dom w) (timers w) (frames w ++ [(h, targetProgress)])%list
          (Pos.succ h) (in_flight w)
          (FxRequestFrame h targetProgress :: trace w).

Definition cancelAnimationFrame (h : positive) (w : World) : World :=
  mkWorld (vars w) (dom w) (timers w)
          (filter (fun f => negb (Pos.eqb (fst f) h)) (frames w))
          (next_handle w) (in_flight w) (FxCancelFrame h :: trace w).

(** [progressBar.style.width = `${q}%`] on an existing bar. *)
Definition set_width (q : Q) (w : World) : World :=
  let d := dom w in
  emit (FxSetWidth q)
       (with_dom (mkDom (task_modal d) (task_status d) (Some (Some q))) w).

(** ** ui.js *)

Definition showTaskModal (statusText : string) (d : Dom) : Dom :=
  match task_modal d, task_status d, task_progress d with
  | Some _, Some _, Some _ => mkDom (Some false) (Some statusText) (Some (Some 5%Q))
  | _, _, _ => d
  end.

Definition hideTaskModal (w : World) : World :=
  let d := dom w in
  emit FxHideTaskModal
       (match task_modal d with
        | None => w
        | Some _ => with_dom (mkDom (Some true) (task_status d) (task_progress d)) w
        end).

(** The notification widget is kept at its interface: the call is recorded
    and the 5000 ms hide timer is armed. *)
Definition showNotification (title message type : string) (w : World) : World :=
  setTimeout CbHideNotification 5000 (emit (FxNotify title message type) w).

(** ** taskMonitor.js *)

Section MonitorTask.

Variables taskId videoId : string.

(** [Math.max(5, Math.min(100, targetProgress * 100))] *)
Definition targetWidth (targetProgress : Q) : Q :=
  Qmax 5 (Qmin 100 (targetProgress * 100)).

(** [parseFloat(progressBar.style.width || '5%')] *)
Definition currentWidth (style_width : option Q) : Q :=
  match style_width with
  | Some q => q
  | None => 5
  end.

Definition animateProgress (targetProgress : Q) (w : World) : World :=
  match task_progress (dom w) with
  | None => w
  | Some style_width =>
      let cur := currentWidth style_width in
      let tgt := targetWidth targetProgress in
      if Qltb (Qabs (tgt - cur)) (1#2) then set_width tgt w
      else
        let newWidth := (cur + (tgt - cur) * (1#10))%Q in
        let w1 := set_width newWidth w in
        if Qltb (1#2) (Qabs (newWidth - tgt))
        then requestAnimationFrame targetProgress w1
        else w1
  end.

(** Completion of the [try] block. *)
Inductive Completion :=
| Normal (w : World)
| Thrown (w : World).

(** [document.getElementById('task-status').textContent = text] *)
Definition set_status (text : string) (w : World) : Completion :=
  let d := dom w in
  match task_status d with
  | None => Thrown w
  | Some _ =>
      Normal (emit (FxSetStatus text)
                   (with_dom (mkDom (task_modal d) (Some text) (task_progress d)) w))
  end.

Definition set_currentStageName (s : string) (w : World) : World :=
  let c := vars w in
  with_vars (mkClosure (lastProgress c) (animationFrame c) s
                       (checkInterval c) (checkCount c)) w.

Definition set_lastProgress (p : Q) (w : World) : World :=
  let c := vars w in
  with_vars (mkClosure p (animationFrame c) (currentStageName c)
                       (checkInterval c) (checkCount c)) w.

Definition set_check (interval count : Z) (w : World) : World :=
  let c := vars w in
  with_vars (mkClosure (lastProgress c) (animationFrame c) (currentStageName c)
                       interval count) w.

(** [`${minutes}分${seconds.toString().padStart(2, '0')}秒`] *)
Definition timeStr (elapsed : option Q) : string :=
  let elapsedTime := option_map Qfloor elapsed in
  let minutes := option_map (fun e => e / 60) elapsedTime in
  let seconds := option_map (fun e => Z.rem e 60) elapsedTime in
  num_toString minutes ++ "分" ++ padStart2 (num_toString seconds) ++ "秒".

(** The two interval adjustments that follow [checkCount++]. *)
Definition adjust_interval (count interval : Z) : Z :=
  let i1 := if (10 <? count) && (interval <? 3000) then 2000 else interval in
  if (30 <? count) && (i1 <? 5000) then 3000 else i1.

(** The progress-bar block of the processing branch:
    [if (progress > lastProgress || progress >= 0.99) { ... }] *)
Definition update_progress (p : Q) (w : World) : World :=
  if Qltb (lastProgress (vars w)) p || Qle_bool (99#100) p then
    let w' := match animationFrame (vars w) with
              | Some h => cancelAnimationFrame h w
              | None => w
              end in
    set_lastProgress p (animateProgress p w')
  else w.

Definition on_processing (data : TaskData) (w : World) : Completion :=
  let p := num_or (progress data) 0 in
  let stageName := str_or (stage_name data) (currentStageName (vars w)) in
  let w1 := set_currentStageName stageName w in
  let w2 := update_progress p w1 in
  match set_status (stageName ++ "，已用时: " ++ timeStr (elapsed_time data)) w2 with
  | Thrown w3 => Thrown w3
  | Normal w3 =>
      let count := checkCount (vars w3) + 1 in
      let interval := adjust_interval count (checkInterval (vars w3)) in
      Normal (setTimeout CbCheckStatus interval (set_check interval count w3))
  end.

Definition on_completed (w : World) : Completion :=
  match set_status "处理完成，即将跳转到详情页..." (animateProgress 1 w) with
  | Thrown w1 => Thrown w1
  | Normal w1 => Normal (setTimeout CbCompleted 1500 w1)
  end.

Definition on_failed (w : World) : Completion :=
  match set_status "转录失败，请稍后重试..." w with
  | Thrown w1 => Thrown w1
  | Normal w1 => Normal (setTimeout CbFailed 1500 w1)
  end.

(** The body of [try] once [await checkTaskStatus(taskId)] has produced
    [data]. *)
Definition try_block (data : TaskData) (w : World) : Completion :=
  if success data then
    if status_is data "processing" then on_processing data w
    else if status_is data "completed" then on_completed w
    else if status_is data "failed" then on_failed w
    else Normal w
  else
    Normal (setTimeout
              (CbApiError (str_or (error data) "无法获取任务状态")) 1000 w).

Definition catch_block (w : World) : World :=
  let w1 := emit FxConsoleError w in
  let c := vars w1 in
  if checkCount c <? 5 then
    set_check (checkInterval c) (checkCount c + 1)
              (setTimeout CbCheckStatus 3000 w1)
  else
    showNotification "连接失败" "无法连接到服务器，请检查网络连接" "error"
                     (hideTaskModal w1).

(** [checkStatus] up to its [await]: the status request is issued. *)
Definition checkStatus (w : World) : World :=
  mkWorld (vars w) (dom w) (timers w) (frames w) (next_handle w)
          (S (in_flight w)) (FxFetch taskId :: trace w).

(** [checkStatus] from its [await] on: the poll-completion handler. *)
Definition checkStatus_resume (r : Settled) (w : World) : World :=
  match r with
  | Rejected => catch_block w
  | Fulfilled data =>
      match try_block data w with
      | Normal w1 => w1
      | Thrown w1 => catch_block w1
      end
  end.

(** The closures handed to [setTimeout]. *)
Definition run_callback (cb : Callback) (w : World) : World :=
  match cb with
  | CbCheckStatus => checkStatus w
  | CbCompleted =>
      setTimeout (CbNavigate ("transcription/" ++ videoId)) 1000
        (showNotification "处理完成" "视频转录已完成，正在跳转到详情页" "success"
                          (hideTaskModal w))
  | CbNavigate path => emit (FxNavigate path) w
  | CbFailed =>
      showNotification "处理失败" "视频转录失败，请稍后重试" "error" (hideTaskModal w)
  | CbApiError message =>
      showNotification "状态检查失败" message "error" (hideTaskModal w)
  | CbHideNotification => emit FxHideNotification w
  end.

(** [monitorTask(taskId, videoId, navigateCallback)] on a page [d]: fresh
    closure variables and the first [checkStatus()]. *)
Definition monitorTask (d : Dom) : World :=
  checkStatus
    (mkWorld (mkClosure 0 None "正在处理" 1000 0) d [] [] 1%positive 0%nat []).

(** ** The host's event loop *)

Inductive Event :=
| EvSettle (r : Settled)      (* an awaited status request settles *)
| EvTimer (i : nat)           (* the i-th pending timer fires *)
| EvFrame (i : nat).          (* the i-th pending frame callback runs *)

Fixpoint remove_nth {A} (i : nat) (l : list A) : list A :=
  match l, i with
  | [], _ => []
  | _ :: t, O => t
  | x :: t, S j => x :: remove_nth j t
  end.

Definition drop_timer (i : nat) (w : World) : World :=
  mkWorld (vars w) (dom w) (remove_nth i (timers w)) (frames w)
          (next_handle w) (in_flight w) (trace w).

Definition drop_frame (i : nat) (w : World) : World :=
  mkWorld (vars w) (dom w) (timers w) (remove_nth i (frames w))
          (next_handle w) (in_flight w) (trace w).

Definition answer (w : World) : World :=
  mkWorld (vars w) (dom w) (timers w) (frames w)
          (next_handle w) (pred (in_flight w)) (trace w).

(** One turn of the event loop; [None] when the event is not enabled. *)
Definition step (e : Event) (w : World) : option World :=
  match e with
  | EvSettle r =>
      match in_flight w with
      | O => None
      | S _ => Some (checkStatus_resume r (answer w))
      end
  | EvTimer i =>
      match nth_error (timers w) i with
      | None => None
      | Some (_, cb) => Some (run_callback cb (drop_timer i w))
      end
  | EvFrame i =>
      match nth_error (frames w) i with
      | None => None
      | Some (_, p) => Some (animateProgress p (drop_frame i w))
      end
  end.

Fixpoint run (es : list Event) (w : World) : option World :=
  match es with
  | [] => Some w
  | e :: es' =>
      match step e w with
      | None => None
      | Some w' => run es' w'
      end
  end.

End MonitorTask.

(** * Derived notions

    Observations on a world, the control state the polling logic lives on,
    the readings of the specification that the theorems compare the code
    with, and the sample inputs of the concrete runs. *)

(** ** The animator *)

(** The width one non-snapping frame step writes. *)
Definition eased (cur tgt : Q) : Q := (cur + (tgt - cur) * (1#10))%Q.

(** The world a completion carries, whether normal or thrown. *)
Definition completion_world (c : Completion) : World :=
  match c with
  | Normal w => w
  | Thrown w => w
  end.

(** What the specification's wording of the stepping function says of one
    call: snap and stop below 0.5, otherwise ease and always re-schedule. *)
Definition steps_as_worded (p : Q) (w : World) : Prop :=
  forall sw, task_progress (dom w) = Some sw ->
    let cur := currentWidth sw in
    let tgt := targetWidth p in
    let w' := animateProgress p w in
    if Qltb (Qabs (tgt - cur)) (1#2)
    then task_progress (dom w') = Some (Some tgt) /\ frames w' = frames w
    else task_progress (dom w') = Some (Some (eased cur tgt)) /\
         frames w' = (frames w ++ [(next_handle w, p)])%list.

(** A page holding the three elements of the task dialog, after
    [showTaskModal]. *)
Definition dialog_page : Dom :=
  showTaskModal "正在下载视频，请稍候..." (mkDom (Some true) (Some "") (Some None)).

(** A processing report with progress [p] after [seconds] seconds. *)
Definition processing_report (p : Q) (seconds : Q) : TaskData :=
  mkTaskData true (Some "processing") (Some p) None (Some seconds) None.

(** A percentage the bar may show. *)
Definition percent_ok (q : Q) : Prop := (5 <= q <= 100)%Q.

(** The bar, when present with a width set, shows a percentage in range. *)
Definition bar_ok (d : Dom) : Prop :=
  match task_progress d with
  | Some (Some q) => percent_ok q
  | _ => True
  end.

(** A write to the bar, when the effect is one, is in range. *)
Definition write_ok (e : Effect) : Prop :=
  match e with
  | FxSetWidth q => percent_ok q
  | _ => True
  end.

(** The bar shows a percentage within range, and so did every write so far. *)
Definition display_ok (w : World) : Prop :=
  bar_ok (dom w) /\ Forall write_ok (trace w).




(** ** Observations on the trace *)

(** The [showNotification] calls, newest first. *)
Fixpoint notifications_of (t : list Effect) : list (string * string * string) :=
  match t with
  | [] => []
  | FxNotify title message type :: t' => (title, message, type) :: notifications_of t'
  | _ :: t' => notifications_of t'
  end.

(** The number of status requests issued. *)
Fixpoint fetches_of (t : list Effect) : nat :=
  match t with
  | [] => O
  | FxFetch _ :: t' => S (fetches_of t')
  | _ :: t' => fetches_of t'
  end.

(** The delays of the [setTimeout(checkStatus, ...)] calls, newest first. *)
Fixpoint poll_delays_of (t : list Effect) : list Z :=
  match t with
  | [] => []
  | FxSetTimeout CbCheckStatus delay :: t' => delay :: poll_delays_of t'
  | _ :: t' => poll_delays_of t'
  end.

Definition notifications (w : World) := notifications_of (trace w).

Definition fetches (w : World) := fetches_of (trace w).

Definition poll_delays (w : World) := poll_delays_of (trace w).

(** Whether the page has the status line. *)
Definition has_status_element (w : World) : bool :=
  match task_status (dom w) with
  | Some _ => true
  | None => false
  end.

(** ** The control state *)

(** What of a world the polling logic reads and writes; the animator and the
    status text leave it alone. *)
Record Control := mkControl {
  c_timers : list (Z * Callback);
  c_in_flight : nat;
  c_count : Z;
  c_interval : Z;
  c_status_element : bool;
  c_notifications : list (string * string * string);
  c_fetches : nat;
  c_poll_delays : list Z
}.

Definition control (w : World) : Control :=
  mkControl (timers w) (in_flight w) (checkCount (vars w)) (checkInterval (vars w))
            (has_status_element w) (notifications w) (fetches w) (poll_delays w).

(** The control state after [setTimeout(checkStatus, delay)] with the
    counter and interval set to [count] and [interval]. *)
Definition rearmed (delay count interval : Z) (c : Control) : Control :=
  mkControl (c_timers c ++ [(delay, CbCheckStatus)])%list (c_in_flight c)
            count interval (c_status_element c) (c_notifications c)
            (c_fetches c) (delay :: c_poll_delays c).

(** The control state after [setTimeout] of a callback other than
    [checkStatus]. *)
Definition deferred (delay : Z) (cb : Callback) (c : Control) : Control :=
  mkControl (c_timers c ++ [(delay, cb)])%list (c_in_flight c)
            (c_count c) (c_interval c) (c_status_element c) (c_notifications c)
            (c_fetches c) (c_poll_delays c).

(** The control state after [showNotification(title, message, type)]. *)
Definition notified (title message type : string) (c : Control) : Control :=
  mkControl (c_timers c ++ [(5000, CbHideNotification)])%list (c_in_flight c)
            (c_count c) (c_interval c) (c_status_element c)
            ((title, message, type) :: c_notifications c)
            (c_fetches c) (c_poll_delays c).

(** [catch_block] on the control state. *)
Definition ctl_catch (c : Control) : Control :=
  if c_count c <? 5
  then rearmed 3000 (c_count c + 1) (c_interval c) c
  else notified "连接失败" "无法连接到服务器，请检查网络连接" "error" c.

(** The tail of the processing branch on the control state. *)
Definition ctl_processing (c : Control) : Control :=
  let count := c_count c + 1 in
  let interval := adjust_interval count (c_interval c) in
  rearmed interval count interval c.

(** [checkStatus_resume] on the control state; a missing status line turns
    the branches that write it into the [catch] block. *)
Definition ctl_resume (r : Settled) (c : Control) : Control :=
  match r with
  | Rejected => ctl_catch c
  | Fulfilled data =>
      if success data then
        if status_is data "processing" then
          if c_status_element c then ctl_processing c else ctl_catch c
        else if status_is data "completed" then
          if c_status_element c then deferred 1500 CbCompleted c else ctl_catch c
        else if status_is data "failed" then
          if c_status_element c then deferred 1500 CbFailed c else ctl_catch c
        else c
      else deferred 1000 (CbApiError (str_or (error data) "无法获取任务状态")) c
  end.

Section ControlMachine.

Variable videoId : string.

(** [run_callback] on the control state. *)
Definition ctl_callback (cb : Callback) (c : Control) : Control :=
  match cb with
  | CbCheckStatus =>
      mkControl (c_timers c) (S (c_in_flight c)) (c_count c) (c_interval c)
                (c_status_element c) (c_notifications c) (S (c_fetches c))
                (c_poll_delays c)
  | CbCompleted =>
      deferred 1000 (CbNavigate ("transcription/" ++ videoId))
               (notified "处理完成" "视频转录已完成，正在跳转到详情页" "success" c)
  | CbFailed => notified "处理失败" "视频转录失败，请稍后重试" "error" c
  | CbApiError message => notified "状态检查失败" message "error" c
  | CbNavigate _ | CbHideNotification => c
  end.

Definition ctl_set_timers (ts : list (Z * Callback)) (c : Control) : Control :=
  mkControl ts (c_in_flight c) (c_count c) (c_interval c) (c_status_element c)
            (c_notifications c) (c_fetches c) (c_poll_delays c).

Definition ctl_set_in_flight (n : nat) (c : Control) : Control :=
  mkControl (c_timers c) n (c_count c) (c_interval c) (c_status_element c)
            (c_notifications c) (c_fetches c) (c_poll_delays c).

(** [step] on the control state; frame callbacks leave it alone. *)
Definition ctl_step (e : Event) (c : Control) : option Control :=
  match e with
  | EvSettle r =>
      match c_in_flight c with
      | O => None
      | S n => Some (ctl_resume r (ctl_set_in_flight n c))
      end
  | EvTimer i =>
      match nth_error (c_timers c) i with
      | None => None
      | Some (_, cb) => Some (ctl_callback cb (ctl_set_timers (remove_nth i (c_timers c)) c))
      end
  | EvFrame _ => Some c
  end.

End ControlMachine.

(** ** What is pending *)

Definition is_poll_timer (t : Z * Callback) : bool :=
  match snd t with
  | CbCheckStatus => true
  | _ => false
  end.

Definition is_outcome_timer (t : Z * Callback) : bool :=
  match snd t with
  | CbCompleted | CbFailed | CbApiError _ => true
  | _ => false
  end.

Definition count_if {A} (f : A -> bool) (l : list A) : nat := length (filter f l).

Arguments count_if : simpl never.

(** Requests awaited, polls armed, outcomes waiting behind their delay, and
    outcomes shown. *)
Definition tokens (c : Control) : nat :=
  c_in_flight c + count_if is_poll_timer (c_timers c)
  + count_if is_outcome_timer (c_timers c) + length (c_notifications c).

(** A control state with no request awaited, no poll armed and no outcome
    waiting: nothing is left that could poll or report. *)
Definition idle (c : Control) : Prop :=
  c_in_flight c = O /\ count_if is_poll_timer (c_timers c) = O /\
  count_if is_outcome_timer (c_timers c) = O.

(** ** Sample responses and event sequences *)

Definition completed_report : TaskData :=
  mkTaskData true (Some "completed") None None None None.

(** [data.error || ...] of the success:false branch. *)
Definition rejection_reason (data : TaskData) : string :=
  str_or (error data) "无法获取任务状态".

Definition quota_report : TaskData :=
  mkTaskData false None None None None (Some "quota exceeded").

(** A success report whose status is none of the three the handler knows. *)
Definition unknown_status (data : TaskData) : Prop :=
  success data = true /\
  status_is data "processing" = false /\
  status_is data "completed" = false /\
  status_is data "failed" = false.

Definition queued_report : TaskData :=
  mkTaskData true (Some "queued") None None None None.

(** The notification of the exhausted [catch] block. *)
Definition connection_lost : string * string * string :=
  ("连接失败", "无法连接到服务器，请检查网络连接", "error").

(** The event sequence of [reports] arriving one per poll, each poll timer
    firing before the next response. *)
Definition polling (reports : list Settled) : list Event :=
  flat_map (fun r => [EvSettle r; EvTimer 0]) reports.

(** [n] transport failures in a row, each followed by its retry. *)
Definition failures (n : nat) : list Event := polling (repeat Rejected n).

Definition five_reports : list Settled :=
  repeat (Fulfilled (processing_report 0 2)) 5.

(** ** The polling cadence *)

(** The schedule table of the specification: 1000 ms up to count 10,
    2000 ms for 11 to 30, 3000 ms from 31 on. *)
Definition schedule (count : Z) : Z :=
  if count <=? 10 then 1000
  else if count <=? 30 then 2000
  else 3000.

(** What the interval can be, given the count: the two adjustments only
    ever ran with the count they test. *)
Definition cadence (interval count : Z) : Prop :=
  interval = 1000 \/ (interval = 2000 /\ 10 < count) \/ (interval = 3000 /\ 30 < count).

Definition ctl_cadence (c : Control) : Prop := cadence (c_interval c) (c_count c).

(** A response that takes the processing branch. *)
Definition is_processing (r : Settled) : Prop :=
  match r with
  | Fulfilled data => success data = true /\ status_is data "processing" = true
  | Rejected => False
  end.

Definition twelve_reports : list Settled :=
  repeat (Fulfilled (processing_report 0 3)) 12.

(** ** Further observations on the monitor *)

(** A gap after [n] eased steps: each step keeps nine tenths of it. *)
Fixpoint shrink (n : nat) (gap : Q) : Q :=
  match n with
  | O => gap
  | S n' => shrink n' (gap * (9#10))
  end.

(** [k] frame callbacks in a row, always the oldest pending one. *)
Definition frame_ticks (k : nat) : list Event := repeat (EvFrame 0) k.

(** The paths handed to the navigation callback, newest first. *)
Fixpoint navigations_of (t : list Effect) : list string :=
  match t with
  | [] => []
  | FxNavigate path :: t' => path :: navigations_of t'
  | _ :: t' => navigations_of t'
  end.

Definition navigations (w : World) : list string := navigations_of (trace w).

Definition is_navigate_timer (t : Z * Callback) : bool :=
  match snd t with
  | CbNavigate _ => true
  | _ => false
  end.

(** The notification of the completed branch. *)
Definition completion_notice : string * string * string :=
  ("处理完成", "视频转录已完成，正在跳转到详情页", "success").

(** The status requests of an event sequence that fail in transport. *)
Fixpoint rejections (es : list Event) : nat :=
  match es with
  | [] => O
  | EvSettle Rejected :: es' => S (rejections es')
  | _ :: es' => rejections es'
  end.

(** How many more transport failures a control state can still see: none
    once nothing polls any more, otherwise the retries left plus the failure
    that ends the run. *)
Definition failure_credit (c : Control) : nat :=
  match (c_in_flight c + count_if is_poll_timer (c_timers c))%nat with
  | O => O
  | S _ => S (Z.to_nat (5 - c_count c))
  end.

(** The paths a timer adds to the navigation log when it fires. *)
Definition navigates (cb : Callback) : list string :=
  match cb with
  | CbNavigate path => [path]
  | _ => []
  end.

(** Every navigation, done or armed, goes to the monitored video's page;
    there is at most one of them, and only beside the completion notice. *)
Definition navigation_ok (videoId : string) (w : World) : Prop :=
  Forall (fun path => path = "transcription/" ++ videoId) (navigations w) /\
  Forall (fun t => forall path, snd t = CbNavigate path ->
                                path = "transcription/" ++ videoId) (timers w) /\
  ((length (navigations w) + count_if is_navigate_timer (timers w) = 0)%nat \/
   ((length (navigations w) + count_if is_navigate_timer (timers w) = 1)%nat /\
    notifications w = [completion_notice])).

(** Whether an event is a status request failing in transport. *)
Definition rejected_now (e : Event) : nat :=
  match e with
  | EvSettle Rejected => 1%nat
  | _ => 0%nat
  end.

(** The counter equals the number of re-arms, and every request after the
    first one was issued by a re-arm whose timer has fired. *)
Definition accounted (c : Control) : Prop :=
  c_count c = Z.of_nat (length (c_poll_delays c)) /\
  (c_fetches c + count_if is_poll_timer (c_timers c) = 1 + length (c_poll_delays c))%nat.

(** * Pagination of the transcription list

    [updatePagination] of ui.js (and its twin in app.js) and the pagination
    state of main.js.  Page numbers, the page size and the total are integers;
    the quotient in [Math.ceil(total / limit)] is taken over the rationals. *)

(** The [pagination] object of main.js. *)
Record Pagination := mkPagination {
  page : Z;
  limit : Z;
  total : Z
}.

(** [Math.ceil(total / limit)], for a page size other than 0.  At
    [limit = 0] the quotient of the code is [Infinity], [-Infinity] or [NaN]
    and no integer stands for it; the properties below that read [maxPage]
    assume a positive page size or a current page within [1..maxPage], which
    the value 0 taken here at [limit = 0] leaves empty. *)
Definition maxPage (pg : Pagination) : Z :=
  Qceiling (inject_Z (total pg) / inject_Z (limit pg)).

(** The values [i] takes in [for (let i = a; ...; i++)], [n] rounds of it. *)
Fixpoint count_up (a : Z) (n : nat) : list Z :=
  match n with
  | O => []
  | S n' => a :: count_up (a + 1) n'
  end.

(** [for (let i = a; i <= b; i++)] *)
Definition from_to (a b : Z) : list Z := count_up a (Z.to_nat (b - a + 1)).

(** [startPage] and [endPage], after the adjustment near the end. *)
Definition page_window (pg : Pagination) : Z * Z :=
  let startPage := Z.max 1 (page pg - 2) in
  let endPage := Z.min (maxPage pg) (startPage + 4) in
  let startPage :=
    if (endPage - startPage <? 4) && (1 <? startPage)
    then Z.max 1 (endPage - 4)
    else startPage in
  (startPage, endPage).

(** What [paginationHtml] is made of: a numbered button, highlighted or not,
    or the three dots. *)
Inductive PageItem :=
| PageButton (number : Z) (highlighted : bool)
| Ellipsis.

Definition page_items (pg : Pagination) : list PageItem :=
  let startPage := fst (page_window pg) in
  let endPage := snd (page_window pg) in
  ((if 1 <? startPage
    then PageButton 1 (page pg =? 1)
         :: (if 2 <? startPage then [Ellipsis] else [])
    else [])
   ++ map (fun i => PageButton i (page pg =? i)) (from_to startPage endPage)
   ++ (if endPage <? maxPage pg
       then (if endPage <? maxPage pg - 1 then [Ellipsis] else [])
            ++ [PageButton (maxPage pg) (page pg =? maxPage pg)]
       else []))%list.

Definition double_quote : string := String (ascii_of_nat 34) EmptyString.
Definition newline : string := String (ascii_of_nat 10) EmptyString.

Fixpoint spaces (n : nat) : string :=
  match n with
  | O => EmptyString
  | S n' => String (ascii_of_nat 32) (spaces n')
  end.

(** The template literal of one item. *)
Definition item_html (item : PageItem) : string :=
  match item with
  | PageButton number highlighted =>
      newline ++ spaces 12
      ++ "<button class=" ++ double_quote
      ++ "pagination-btn px-3 py-1 rounded-md border "
      ++ (if highlighted then "bg-blue-500 text-white"
          else "text-gray-600 hover:bg-gray-100")
      ++ double_quote ++ " data-page=" ++ double_quote
      ++ num_toString (Some number) ++ double_quote ++ ">"
      ++ num_toString (Some number) ++ "</button>"
      ++ newline ++ spaces 8
  | Ellipsis =>
      newline ++ spaces 16
      ++ "<span class=" ++ double_quote ++ "px-2 py-1" ++ double_quote
      ++ ">...</span>"
      ++ newline ++ spaces 12
  end.

Definition paginationHtml (pg : Pagination) : string :=
  String.concat "" (map item_html (page_items pg)).

(** [start] and [end] of the results line. *)
Definition results_start (pg : Pagination) : Z := (page pg - 1) * limit pg + 1.

Definition results_end (pg : Pagination) : Z :=
  Z.min (results_start pg + limit pg - 1) (total pg).

Definition results_text (pg : Pagination) : string :=
  "显示 " ++ num_toString (Some (results_start pg)) ++ "-"
  ++ num_toString (Some (results_end pg)) ++ " / "
  ++ num_toString (Some (total pg)) ++ " 结果".

(** The four elements [updatePagination] writes: the [disabled] flags of the
    two arrows, the [innerHTML] of the number strip and the text of the
    results line; [None] is an element that is not on the page. *)
Record PagerDom := mkPagerDom {
  prev_page : option bool;
  next_page : option bool;
  pagination_numbers : option string;
  showing_results : option string
}.

Definition updatePagination (pg : Pagination) (d : PagerDom) : PagerDom :=
  match prev_page d, next_page d, pagination_numbers d, showing_results d with
  | Some _, Some _, Some _, Some _ =>
      mkPagerDom (Some (page pg <=? 1)) (Some (maxPage pg <=? page pg))
                 (Some (paginationHtml pg)) (Some (results_text pg))
  | _, _, _, _ => d
  end.

(** [offset] of the request [loadTranscriptions] sends. *)
Definition offset (pg : Pagination) : Z := (page pg - 1) * limit pg.

(** The page changes of main.js; each is followed by [loadTranscriptions]
    when the page changed. *)
Definition with_page (p : Z) (pg : Pagination) : Pagination :=
  mkPagination p (limit pg) (total pg).

Definition prevPage (pg : Pagination) : Pagination :=
  if 1 <? page pg then with_page (page pg - 1) pg else pg.

Definition nextPage (pg : Pagination) : Pagination :=
  if page pg <? maxPage pg then with_page (page pg + 1) pg else pg.

Definition goToPage (p : Z) (pg : Pagination) : Pagination := with_page p pg.

Definition searchTranscriptions (pg : Pagination) : Pagination := with_page 1 pg.

Definition filterByTag (pg : Pagination) : Pagination := with_page 1 pg.

(** The numbers on the buttons of a strip, in order. *)
Fixpoint button_numbers (items : list PageItem) : list Z :=
  match items with
  | [] => []
  | PageButton n _ :: rest => n :: button_numbers rest
  | Ellipsis :: rest => button_numbers rest
  end.

(** After a button numbered [last]: the next button is either the next page,
    or it follows exactly one ellipsis and skips at least one page; the strip
    does not end on an ellipsis. *)
Fixpoint gaps_marked (last : Z) (items : list PageItem) : Prop :=
  match items with
  | [] => True
  | PageButton n _ :: rest => n = last + 1 /\ gaps_marked n rest
  | Ellipsis :: rest =>
      match rest with
      | PageButton n _ :: rest' => last + 1 < n /\ gaps_marked n rest'
      | _ => False
      end
  end.

(** The number of the last button of a strip, [last] when there is none. *)
Fixpoint last_button (last : Z) (items : list PageItem) : Z :=
  match items with
  | [] => last
  | PageButton n _ :: rest => last_button n rest
  | Ellipsis :: rest => last_button last rest
  end.

(** Only the button of page [p] is highlighted. *)
Definition highlights (p : Z) (item : PageItem) : Prop :=
  match item with
  | PageButton n highlighted => highlighted = true <-> n = p
  | Ellipsis => True
  end.

(** The strip [page_items] builds, over its four numbers. *)
Definition strip (p startPage endPage last : Z) : list PageItem :=
  ((if 1 <? startPage
    then PageButton 1 (p =? 1) :: (if 2 <? startPage then [Ellipsis] else [])
    else [])
   ++ map (fun i => PageButton i (p =? i)) (from_to startPage endPage)
   ++ (if endPage <? last
       then (if endPage <? last - 1 then [Ellipsis] else [])
            ++ [PageButton last (p =? last)]
       else []))%list.

(** The numbers of the highlighted buttons of a strip. *)
Fixpoint highlighted_numbers (items : list PageItem) : list Z :=
  match items with
  | [] => []
  | PageButton n true :: rest => n :: highlighted_numbers rest
  | _ :: rest => highlighted_numbers rest
  end.

(** A current page that exists. *)
Definition on_a_page (pg : Pagination) : Prop := 1 <= page pg <= maxPage pg.

(** * Routing

    [navigateTo] and the [hashchange] listener of router.js (the same logic
    is [App.navigateTo] and [App.setupRouting] in app.js).  Strings are
    sequences of UTF-8 bytes.  A write to [location.hash] goes through the URL
    parser, which drops tabs and newlines and percent-encodes what a fragment
    cannot hold; reading it returns the encoded fragment behind a [#].
    Rendering the page template ([loadPage]) is recorded as a call. *)

(** ASCII tab, line feed and carriage return, which the URL parser removes
    from its input. *)
Definition is_tab_or_newline (c : ascii) : bool :=
  let n := N_of_ascii c in
  ((n =? 9) || (n =? 10) || (n =? 13))%N.

(** The fragment percent-encode set of the URL standard: the C0 controls,
    space, the double quote, [<], [>], the backquote, and every byte above
    [~] (so each byte of a character outside ASCII). *)
Definition in_fragment_encode_set (c : ascii) : bool :=
  let n := N_of_ascii c in
  ((n <=? 32) || (126 <? n) || (n =? 34) || (n =? 60) || (n =? 62) || (n =? 96))%N.

Definition hex_digit (n : N) : ascii :=
  match String.get (N.to_nat n) "0123456789ABCDEF" with
  | Some c => c
  | None => "0"%char
  end.

(** [%XX] for one byte. *)
Definition percent_encode (c : ascii) : string :=
  let n := N_of_ascii c in
  String "%" (String (hex_digit (n / 16)) (String (hex_digit (n mod 16)) EmptyString)).

(** The fragment the URL parser makes of an input in its fragment state. *)
Fixpoint fragment_encode (input : string) : string :=
  match input with
  | EmptyString => EmptyString
  | String c rest =>
      if is_tab_or_newline c then fragment_encode rest
      else if in_fragment_encode_set c then percent_encode c ++ fragment_encode rest
      else String c (fragment_encode rest)
  end.

(** What [location.hash] reads after [location.hash = value]: one leading
    [#] of the value is dropped, the rest becomes the fragment, and an empty
    fragment reads as the empty string. *)
Definition set_location_hash (value : string) : string :=
  let input :=
    match value with
    | String c rest => if Ascii.eqb c "#" then rest else value
    | EmptyString => EmptyString
    end in
  let fragment := fragment_encode input in
  if String.eqb fragment "" then "" else "#" ++ fragment.

(** A string the fragment holds as it is. *)
Fixpoint hash_safe (s : string) : bool :=
  match s with
  | EmptyString => true
  | String c rest => negb (in_fragment_encode_set c) && hash_safe rest
  end.

(** [s.substring(1)] *)
Definition substring1 (s : string) : string :=
  match s with
  | EmptyString => EmptyString
  | String _ rest => rest
  end.

(** [s.split('/')] *)
Fixpoint split_slash (s : string) : list string :=
  match s with
  | EmptyString => [EmptyString]
  | String c rest =>
      if Ascii.eqb c "/"%char then EmptyString :: split_slash rest
      else match split_slash rest with
           | segment :: segments => String c segment :: segments
           | [] => [String c EmptyString]
           end
  end.

(** [`${id}`] for an id that may be [null]. *)
Definition id_text (id : option string) : string :=
  match id with
  | Some v => v
  | None => "null"
  end.

(** The [state] object of router.js, without the page callbacks. *)
Record RouterState := mkRouterState {
  currentPage : string;
  currentVideoId : option string
}.

(** The router and what it touches: the hash, the [.nav-link] elements
    (their [href] and whether they carry the [active] class), the pages
    handed to [loadPage] (newest first) and the writes to the hash. *)
Record Browser := mkBrowser {
  router : RouterState;
  location_hash : string;
  nav_links : list (string * bool);
  loaded : list string;
  hash_writes : nat
}.

Definition navigateTo (path : string) (b : Browser) : Browser :=
  let to_detail := String.prefix "transcription/" path in
  let videoId :=
    if to_detail then Some (nth 1 (split_slash path) EmptyString)
    else currentVideoId (router b) in
  let requested := if to_detail then "detail" else path in
  let current := if String.eqb requested "" then "home" else requested in
  let links :=
    map (fun link => (fst link, String.eqb (substring1 (fst link)) current))
        (nav_links b) in
  let expectedHash :=
    if String.eqb current "detail"
    then "#transcription/" ++ id_text videoId
    else "#" ++ current in
  if String.eqb (location_hash b) expectedHash
  then mkBrowser (mkRouterState current videoId) (location_hash b) links
                 (current :: loaded b) (hash_writes b)
  else mkBrowser (mkRouterState current videoId) (set_location_hash expectedHash)
                 links (current :: loaded b) (S (hash_writes b)).

(** The [hashchange] listener, also run once by [initRouter]. *)
Definition on_hashchange (b : Browser) : Browser :=
  let hash := if String.eqb (location_hash b) "" then "#home" else location_hash b in
  navigateTo (substring1 hash) b.

(** The part of an id before its first slash. *)
Definition first_segment (v : string) : string := nth 0 (split_slash v) EmptyString.

(** The stored video id, when there is one, holds no slash. *)
Definition id_is_one_segment (b : Browser) : Prop :=
  match currentVideoId (router b) with
  | Some v => first_segment v = v
  | None => True
  end.

(** The stored video id, when there is one, is held by a fragment as it
    is. *)
Definition id_is_hash_safe (b : Browser) : Prop :=
  match currentVideoId (router b) with
  | Some v => hash_safe v = true
  | None => True
  end.

(** A browser on the home page, before any navigation. *)
Definition fresh_browser : Browser :=
  mkBrowser (mkRouterState "home" None) ""
            [("#home", false); ("#transcriptions", false)] [] 0.

(** * Debouncing

    [debounce(func, wait)] of utils.js (and [App.debounce]): the closure
    variable [timeout], the timers of this closure that the host still holds
    (identifier and the arguments their callback will pass on), the
    identifier the next [setTimeout] returns, and the arguments [func] has
    been applied to, oldest first. *)

Section Debounce.

Variable A : Type.

Record Debounced := mkDebounced {
  timeout : option nat;
  waiting : list (nat * A);
  next_timer : nat;
  applied : list A
}.

(** [clearTimeout(timeout)]: an unset or stale identifier clears nothing. *)
Definition clearTimeout (id : option nat) (ts : list (nat * A)) : list (nat * A) :=
  match id with
  | None => ts
  | Some i => filter (fun t => negb (Nat.eqb (fst t) i)) ts
  end.

(** One call of the function [debounce] returns. *)
Definition debounced_call (args : A) (d : Debounced) : Debounced :=
  let id := next_timer d in
  mkDebounced (Some id) (clearTimeout (timeout d) (waiting d) ++ [(id, args)])%list
              (S id) (applied d).

(** The [i]-th waiting timer fires: [func.apply(context, args)]. *)
Definition timer_fires (i : nat) (d : Debounced) : option Debounced :=
  match nth_error (waiting d) i with
  | None => None
  | Some (_, args) =>
      Some (mkDebounced (timeout d) (remove_nth i (waiting d)) (next_timer d)
                        (applied d ++ [args])%list)
  end.

Inductive DebounceEvent :=
| Call (args : A)
| Fire (i : nat).

Definition debounce_step (e : DebounceEvent) (d : Debounced) : option Debounced :=
  match e with
  | Call args => Some (debounced_call args d)
  | Fire i => timer_fires i d
  end.

Fixpoint debounce_run (es : list DebounceEvent) (d : Debounced) : option Debounced :=
  match es with
  | [] => Some d
  | e :: es' =>
      match debounce_step e d with
      | None => None
      | Some d' => debounce_run es' d'
      end
  end.

(** The closure right after [debounce(func, wait)]. *)
Definition debounce (first_id : nat) : Debounced :=
  mkDebounced None [] first_id [].

(** The arguments of the calls of an event sequence, in order. *)
Fixpoint calls_of (es : list DebounceEvent) : list A :=
  match es with
  | [] => []
  | Call args :: es' => args :: calls_of es'
  | Fire _ :: es' => calls_of es'
  end.

(** The latest call of an event sequence, [latest] when it holds none. *)
Fixpoint latest_call (latest : option A) (es : list DebounceEvent) : option A :=
  match es with
  | [] => latest
  | Call args :: es' => latest_call (Some args) es'
  | Fire _ :: es' => latest_call latest es'
  end.

(** At most one timer waits; it is the one [timeout] names, and it carries
    the arguments of the latest call. *)
Definition one_timer (latest : option A) (d : Debounced) : Prop :=
  waiting d = [] \/
  exists id args,
    waiting d = [(id, args)] /\ timeout d = Some id /\ latest = Some args.

End Debounce.

Arguments mkDebounced {A}.
Arguments timeout {A}.
Arguments waiting {A}.
Arguments next_timer {A}.
Arguments applied {A}.
Arguments clearTimeout {A}.
Arguments debounced_call {A}.
Arguments timer_fires {A}.
Arguments Call {A}.
Arguments Fire {A}.
Arguments debounce_step {A}.
Arguments debounce_run {A}.
Arguments debounce {A}.
Arguments calls_of {A}.
Arguments one_timer {A}.
Arguments latest_call {A}.

(** * Dropdown menus

    [toggleDropdown] and [hideDropdown] of ui.js (and of [App]).  An element
    is its id, whether it carries the class [dropdown-content], and whether
    it carries the class [hidden]; the page is the list of its elements in
    document order. *)

Record Element := mkElement {
  element_id : string;
  dropdown_content : bool;
  hidden : bool
}.

Definition set_hidden (b : bool) (el : Element) : Element :=
  mkElement (element_id el) (dropdown_content el) b.

(** [document.getElementById(id)]: the first element with that id. *)
Definition getElementById (id : string) (els : list Element) : option Element :=
  find (fun el => String.eqb (element_id el) id) els.

(** A change made to the element [getElementById] returns. *)
Fixpoint update_by_id (id : string) (f : Element -> Element) (els : list Element)
  : list Element :=
  match els with
  | [] => []
  | el :: rest =>
      if String.eqb (element_id el) id then f el :: rest
      else el :: update_by_id id f rest
  end.

(** [document.querySelectorAll('.dropdown-content').forEach(el =>
    el.classList.add('hidden'))] *)
Definition hide_all_dropdowns (els : list Element) : list Element :=
  map (fun el => if dropdown_content el then set_hidden true el else el) els.

Definition toggleDropdown (dropdownId : string) (els : list Element) : list Element :=
  match getElementById dropdownId els with
  | None => els
  | Some dropdown =>
      if hidden dropdown
      then update_by_id dropdownId (set_hidden false) (hide_all_dropdowns els)
      else update_by_id dropdownId (set_hidden true) els
  end.

Definition hideDropdown (dropdownId : string) (els : list Element) : list Element :=
  match getElementById dropdownId els with
  | None => els
  | Some _ => update_by_id dropdownId (set_hidden true) els
  end.

Inductive MenuAction :=
| Toggle (dropdownId : string)
| Hide (dropdownId : string).

Definition menu_step (a : MenuAction) (els : list Element) : list Element :=
  match a with
  | Toggle id => toggleDropdown id els
  | Hide id => hideDropdown id els
  end.

Definition menu_run (actions : list MenuAction) (els : list Element) : list Element :=
  fold_left (fun els a => menu_step a els) actions els.

(** A dropdown that is showing. *)
Definition is_open_menu (el : Element) : bool :=
  dropdown_content el && negb (hidden el).

Definition open_menus (els : list Element) : nat := count_if is_open_menu els.

(** * Submitting a transcription

    [submitTranscription] of main.js (and of [App]) from the point where the
    request has settled.  It either starts a monitor on the page, or only
    announces something: the host calls made then, newest first, and the
    timers they leave. *)

(** The JSON body of [POST /api/transcribe]. *)
Record SubmitData := mkSubmitData {
  submit_success : bool;
  submit_status : option string;
  video_id : string;
  task_id : string;
  submit_error : option string
}.

Inductive Submission :=
| Monitoring (taskId videoId : string) (w : World)
| Announced (calls : list Effect) (armed : list (Z * Callback)).

Definition submitTranscription_resume (r : option SubmitData) (d : Dom) : Submission :=
  match r with
  | None =>
      Announced [FxSetTimeout CbHideNotification 5000;
                 FxNotify "提交失败" "提交转录请求失败，请稍后重试" "error";
                 FxConsoleError]
                [(5000, CbHideNotification)]
  | Some data =>
      if submit_success data then
        if match submit_status data with
           | Some s => String.eqb s "completed"
           | None => false
           end
        then
          Announced [FxSetTimeout (CbNavigate ("transcription/" ++ video_id data)) 1500;
                     FxSetTimeout CbHideNotification 5000;
                     FxNotify "处理完成" "该视频已经过转录，正在跳转到详情页" "success"]
                    [(5000, CbHideNotification);
                     (1500, CbNavigate ("transcription/" ++ video_id data))]
        else
          Monitoring (task_id data) (video_id data)
                     (monitorTask (task_id data)
                                  (showTaskModal "正在下载视频，请稍候..." d))
      else
        Announced [FxSetTimeout CbHideNotification 5000;
                   FxNotify "提交失败" (str_or (submit_error data) "提交转录请求失败")
                            "error"]
                  [(5000, CbHideNotification)]
  end.

(** * The animator in double precision

    The numbers of the code are binary64 values.  A finite one is a rational
    [k * 2^e] with [k < 2^53] and [e >= -1074], and an arithmetic operation
    of the code yields the binary64 value nearest to its exact result, a tie
    going to the even [k].  The run of the monitor above computes exactly;
    what a single step of the animator writes, and whether it asks for another
    frame, depends on the rounding, so the step is given here once more with
    every operation rounded as the code rounds it.  The reported progress and
    the bar's width reach the step as doubles, made by [JSON.parse] and
    [parseFloat] of their decimal text; they are rounded on entry, which
    leaves a double as it is and lets a decimal such as 0.0561 stand for the
    double the parser makes of it. *)

(** [num / den] rounded to the nearest integer, ties to even; [num >= 0] and
    [den > 0]. *)
Definition round_half_even (num den : Z) : Z :=
  let k := num / den in
  let r := num mod den in
  match 2 * r ?= den with
  | Lt => k
  | Gt => k + 1
  | Eq => if Z.even k then k else k + 1
  end.

(** [floor (log2 (n / d))] for [n, d > 0]. *)
Definition binade (n d : Z) : Z :=
  let l := Z.log2 n - Z.log2 d in
  let reaches := if 0 <=? l then d * 2 ^ l <=? n else d <=? n * 2 ^ (- l) in
  if reaches then l else l - 1.

(** The binary64 value nearest to [q].  Beyond the largest finite double the
    code has [Infinity]; here the rounded rational stands for it, which the
    clamp of [targetWidth64] treats alike: a reported progress too large for
    a double gives the target 100 or 5 either way. *)
Definition double (q : Q) : Q :=
  let n := Z.abs (Qnum q) in
  let d := Zpos (Qden q) in
  if n =? 0 then 0%Q
  else
    let e := Z.max (binade n d - 52) (-1074) in
    let k := if e <=? 0 then round_half_even (n * 2 ^ (- e)) d
             else round_half_even n (d * 2 ^ e) in
    Qred (inject_Z (Z.sgn (Qnum q) * k) * Qpower 2 e).

(** The mantissa and exponent of a finite double: at most 53 bits, and
    fewer only at the smallest exponent. *)
Definition canonical (k e : Z) : Prop :=
  0 <= k <= 2 ^ 53 /\ -1074 <= e /\ (2 ^ 52 <= k \/ e = -1074).

(** [Math.max(5, Math.min(100, targetProgress * 100))] *)
Definition targetWidth64 (targetProgress : Q) : Q :=
  Qmax 5 (Qmin 100 (double (double targetProgress * 100))).

(** [parseFloat(progressBar.style.width || '5%')] *)
Definition currentWidth64 (style_width : option Q) : Q :=
  double (currentWidth style_width).

(** [animateProgress] of taskMonitor.js with its arithmetic in binary64. *)
Definition animateProgress64 (targetProgress : Q) (w : World) : World :=
  match task_progress (dom w) with
  | None => w
  | Some style_width =>
      let cur := currentWidth64 style_width in
      let tgt := targetWidth64 targetProgress in
      if Qltb (Qabs (double (tgt - cur))) (1#2) then set_width tgt w
      else
        let newWidth := double (cur + double (double (tgt - cur) * double (1#10))) in
        let w1 := set_width newWidth w in
        if Qltb (1#2) (Qabs (double (newWidth - tgt)))
        then requestAnimationFrame targetProgress w1
        else w1
  end.

(** The largest finite double, [(2^53 - 1) * 2^971]. *)
Definition max_double : Q := inject_Z ((2 ^ 53 - 1) * 2 ^ 971).

(** The bar, if there is one, shows a finite width: [parseFloat] of it is
    not [Infinity], and no operation of the step overflows. *)
Definition finite_bar (w : World) : Prop :=
  match task_progress (dom w) with
  | Some style_width => (Qabs (currentWidth style_width) <= max_double)%Q
  | None => True
  end.

(** The specification's wording of the stepping function, read over the
    double-precision step: snap and stop below 0.5, otherwise ease and always
    re-schedule. *)
Definition steps_as_worded64 (p : Q) (w : World) : Prop :=
  forall sw, task_progress (dom w) = Some sw ->
    let cur := currentWidth64 sw in
    let tgt := targetWidth64 p in
    let w' := animateProgress64 p w in
    if Qltb (Qabs (double (tgt - cur))) (1#2)
    then task_progress (dom w') = Some (Some tgt) /\ frames w' = frames w
    else task_progress (dom w')
           = Some (Some (double (cur + double (double (tgt - cur) * double (1#10))))) /\
         frames w' = (frames w ++ [(next_handle w, p)])%list.

(** A dialog whose bar shows [width] percent, with no frame pending. *)
Definition bar_at (width : Q) : World :=
  mkWorld (mkClosure 0 None "正在处理" 1000 0)
          (mkDom (Some false) (Some "") (Some (Some width))) [] [] 1%positive 0%nat [].

(** ** Responses the handler knows *)

(** A response the handler has a branch for: a transport failure, a
    [success:false] body, or one of the statuses processing, completed and
    failed. *)
Definition recognised (r : Settled) : bool :=
  match r with
  | Rejected => true
  | Fulfilled data =>
      negb (success data) || status_is data "processing"
      || status_is data "completed" || status_is data "failed"
  end.

Definition recognised_event (e : Event) : bool :=
  match e with
  | EvSettle r => recognised r
  | EvTimer _ | EvFrame _ => true
  end.

(** A terminal state has been reached and polling is over: no request is
    awaited, no poll is armed, and the one outcome either waits behind its
    delay or has been shown. *)
Definition concluded (c : Control) : Prop :=
  c_in_flight c = O /\ count_if is_poll_timer (c_timers c) = O /\
  (count_if is_outcome_timer (c_timers c) + length (c_notifications c))%nat = 1%nat.

(** * Properties *)

(** ** Rational comparisons *)

Lemma Qltb_lt (x y : Q) : Qltb x y = true <-> (x < y)%Q.
Proof.
  unfold Qltb. rewrite negb_true_iff, <- not_true_iff_false, Qle_bool_iff.
  split; [apply Qnot_le_lt | apply Qlt_not_le].
Qed.

Lemma targetWidth_range (p : Q) : (5 <= targetWidth p <= 100)%Q.
Proof.
  unfold targetWidth. split.
  - apply Q.le_max_l.
  - apply Q.max_lub; [ lra | apply Q.le_min_l ].
Qed.


Lemma eased_between (cur tgt : Q) :
  (5 <= cur <= 100)%Q -> (5 <= tgt <= 100)%Q -> (5 <= eased cur tgt <= 100)%Q.
Proof. unfold eased. intros [? ?] [? ?]. split; lra. Qed.

Lemma eased_gap (cur tgt : Q) :
  (Qabs (eased cur tgt - tgt) == (9#10) * Qabs (tgt - cur))%Q.
Proof.
  unfold eased.
  setoid_replace (cur + (tgt - cur) * (1 # 10) - tgt)%Q
    with (- ((9#10) * (tgt - cur)))%Q by ring.
  rewrite Qabs_opp, Qabs_Qmult. reflexivity.
Qed.

(** ** The progress animator *)

Lemma animateProgress_unfold (p : Q) (w : World) (sw : option Q) :
  task_progress (dom w) = Some sw ->
  animateProgress p w =
    if Qltb (Qabs (targetWidth p - currentWidth sw)) (1#2)
    then set_width (targetWidth p) w
    else if Qltb (1#2) (Qabs (eased (currentWidth sw) (targetWidth p) - targetWidth p))
         then requestAnimationFrame p (set_width (eased (currentWidth sw) (targetWidth p)) w)
         else set_width (eased (currentWidth sw) (targetWidth p)) w.
Proof.
  intros Hbar. unfold animateProgress. rewrite Hbar. reflexivity.
Qed.

Lemma animateProgress_no_bar (p : Q) (w : World) :
  task_progress (dom w) = None -> animateProgress p w = w.
Proof.
  intros Hbar. unfold animateProgress. now rewrite Hbar.
Qed.

(** C6, counterexample: with the bar at 5 and a reported progress of 0.055
    the target is 5.5, exactly 0.5 away; the step writes 5.05 and requests no
    further frame, so the bar rests 0.45 short of its target.  The rounding
    of the code changes nothing here: in double precision the target is 5.5 as
    well, the step writes the double nearest to 5.05 and requests no frame. *)
Lemma animateProgress_stops_short :
  ~ steps_as_worded (55#1000) (monitorTask "t" dialog_page) /\
  (exists w,
      run "t" "v" [EvSettle (Fulfilled (processing_report (55#1000) 3))]
          (monitorTask "t" dialog_page) = Some w /\
      task_progress (dom w) = Some (Some (eased 5 (targetWidth (55#1000)))) /\
      (eased 5 (targetWidth (55#1000)) == 505#100)%Q /\
      (targetWidth (55#1000) == 55#10)%Q /\
      frames w = []) /\
  ~ steps_as_worded64 (55#1000) (monitorTask "t" dialog_page) /\
  (let w' := animateProgress64 (55#1000) (monitorTask "t" dialog_page) in
   (targetWidth64 (55#1000) == 55#10)%Q /\
   task_progress (dom w') = Some (Some (double (505#100))) /\
   frames w' = []).
Proof.
  split; [ | split; [ | split ] ].
  - intros H. specialize (H (Some 5%Q) eq_refl).
    vm_compute in H. destruct H as [_ H]. discriminate H.
  - eexists. split; [ vm_compute; reflexivity | ].
    repeat split; vm_compute; reflexivity.
  - intros H. specialize (H (Some 5%Q) eq_refl).
    vm_compute in H. destruct H as [_ H]. discriminate H.
  - cbv zeta. repeat split; vm_compute; reflexivity.
Qed.

(** *** Rounding to binary64 *)

(** Powers of two over the rationals. *)
Lemma pow2_pos (e : Z) : (0 < 2 ^ e)%Q.
Proof. apply Qpower_0_lt. reflexivity. Qed.

Lemma pow2_plus (a b : Z) : (2 ^ (a + b) == 2 ^ a * 2 ^ b)%Q.
Proof. apply Qpower_plus. discriminate. Qed.

Lemma pow2_Z (a : Z) : 0 <= a -> (inject_Z (2 ^ a) == 2 ^ a)%Q.
Proof. intros H. rewrite Zpower_Qpower by exact H. reflexivity. Qed.

Lemma pow2_opp (a : Z) : (2 ^ a * 2 ^ (- a) == 1)%Q.
Proof. rewrite <- pow2_plus. rewrite Z.add_opp_diag_r. reflexivity. Qed.

Lemma log2_bounds (n : Z) :
  0 < n -> (2 ^ Z.log2 n <= inject_Z n < 2 ^ (Z.log2 n + 1))%Q.
Proof.
  intros Hn. destruct (Z.log2_spec n Hn) as [Hlo Hhi].
  pose proof (Z.log2_nonneg n) as Hnn.
  rewrite <- !pow2_Z by lia. rewrite <- Zle_Qle, <- Zlt_Qlt.
  split; [ exact Hlo | ]. replace (Z.log2 n + 1) with (Z.succ (Z.log2 n)) by lia. exact Hhi.
Qed.

(** The test of [binade], over the rationals. *)
Lemma reaches_spec (n d l : Z) :
  0 < n -> 0 < d ->
  (if 0 <=? l then d * 2 ^ l <=? n else d <=? n * 2 ^ (- l)) = true <->
  (inject_Z d * 2 ^ l <= inject_Z n)%Q.
Proof.
  intros Hn Hd. destruct (Z.leb_spec 0 l) as [Hl | Hl].
  - rewrite Z.leb_le, Zle_Qle, inject_Z_mult, pow2_Z by lia. reflexivity.
  - rewrite Z.leb_le, Zle_Qle, inject_Z_mult, pow2_Z by lia.
    pose proof (pow2_pos l) as Hp. pose proof (pow2_pos (- l)) as Hp'.
    pose proof (pow2_opp l) as Hone.
    split; intros H.
    + apply (Qmult_le_r _ _ (2 ^ (- l))); [ exact Hp' | ].
      rewrite <- Qmult_assoc, Hone, Qmult_1_r. exact H.
    + apply (Qmult_le_r _ _ (2 ^ (- l))) in H; [ | exact Hp' ].
      rewrite <- Qmult_assoc, Hone, Qmult_1_r in H. exact H.
Qed.

Lemma binade_spec (n d : Z) :
  0 < n -> 0 < d ->
  (inject_Z d * 2 ^ binade n d <= inject_Z n < inject_Z d * 2 ^ (binade n d + 1))%Q.
Proof.
  intros Hn Hd. unfold binade.
  set (l := Z.log2 n - Z.log2 d).
  pose proof (reaches_spec n d l Hn Hd) as Hr.
  destruct (log2_bounds n Hn) as [Hnlo Hnhi].
  destruct (log2_bounds d Hd) as [Hdlo Hdhi].
  assert (Ha : (2 ^ Z.log2 n == 2 ^ l * 2 ^ Z.log2 d)%Q).
  { rewrite <- pow2_plus. unfold l. replace (Z.log2 n - Z.log2 d + Z.log2 d) with (Z.log2 n) by lia. reflexivity. }
  assert (Ha1 : (2 ^ (Z.log2 n + 1) == 2 ^ (l + 1) * 2 ^ Z.log2 d)%Q).
  { rewrite <- pow2_plus. unfold l. replace (Z.log2 n - Z.log2 d + 1 + Z.log2 d) with (Z.log2 n + 1) by lia. reflexivity. }
  assert (Hb : (2 ^ (Z.log2 d + 1) * 2 ^ (l - 1) == 2 ^ Z.log2 n)%Q).
  { rewrite <- pow2_plus. unfold l. replace (Z.log2 d + 1 + (Z.log2 n - Z.log2 d - 1)) with (Z.log2 n) by lia. reflexivity. }
  pose proof (pow2_pos l). pose proof (pow2_pos (l + 1)). pose proof (pow2_pos (l - 1)).
  pose proof (pow2_pos (Z.log2 d)).
  destruct (if 0 <=? l then d * 2 ^ l <=? n else d <=? n * 2 ^ (- l)) eqn:Ht.
  - split; [ apply Hr; reflexivity | ].
    eapply Qlt_le_trans; [ exact Hnhi | ]. rewrite Ha1.
    rewrite (Qmult_comm (inject_Z d)). apply Qmult_le_l; assumption.
  - split.
    + apply Qlt_le_weak. eapply Qlt_le_trans; [ | exact Hnlo ]. rewrite <- Hb.
      apply Qmult_lt_r; assumption.
    + replace (l - 1 + 1) with l by lia.
      apply Qnot_le_lt. intros Hle. apply Hr in Hle. congruence.
Qed.

Lemma binade_unique (n d b : Z) :
  0 < n -> 0 < d ->
  (inject_Z d * 2 ^ b <= inject_Z n < inject_Z d * 2 ^ (b + 1))%Q ->
  binade n d = b.
Proof.
  intros Hn Hd [Hlo Hhi]. destruct (binade_spec n d Hn Hd) as [Hlo' Hhi'].
  assert (Hdq : (0 < inject_Z d)%Q) by (rewrite Zlt_Qlt in Hd; exact Hd).
  assert (H1 : (2 ^ b < 2 ^ (binade n d + 1))%Q).
  { apply (Qmult_lt_l _ _ (inject_Z d)); [ exact Hdq | ]. eapply Qle_lt_trans; eassumption. }
  assert (H2 : (2 ^ binade n d < 2 ^ (b + 1))%Q).
  { apply (Qmult_lt_l _ _ (inject_Z d)); [ exact Hdq | ]. eapply Qle_lt_trans; eassumption. }
  apply Qpower_lt_compat_l_inv in H1; [ | reflexivity ].
  apply Qpower_lt_compat_l_inv in H2; [ | reflexivity ].
  lia.
Qed.

Lemma round_half_even_exact (K den : Z) :
  0 < den -> round_half_even (K * den) den = K.
Proof.
  intros Hd. unfold round_half_even.
  rewrite Z.div_mul, Z.mod_mul by lia.
  destruct (2 * 0 ?= den) eqn:Hc; try reflexivity.
  - apply Z.compare_eq in Hc. lia.
  - apply Z.compare_gt_iff in Hc. lia.
Qed.

Lemma round_half_even_bounds (lo hi num den : Z) :
  0 < den -> lo * den <= num <= hi * den ->
  lo <= round_half_even num den <= hi.
Proof.
  intros Hd [Hlo Hhi]. unfold round_half_even.
  pose proof (Z.div_mod num den ltac:(lia)) as Hdm.
  pose proof (Z.mod_pos_bound num den Hd) as Hr.
  set (k := num / den) in *. set (r := num mod den) in *.
  assert (Hk1 : lo <= k) by nia.
  assert (Hk2 : k <= hi) by nia.
  destruct (2 * r ?= den) eqn:Hc.
  - apply Z.compare_eq in Hc. destruct (Z.even k); [ lia | ]. split; [ lia | nia ].
  - lia.
  - apply Z.compare_gt_iff in Hc. split; [ lia | nia ].
Qed.

(** The quotient [double] rounds, over the rationals. *)
Lemma scaled_num_den (n d e : Z) :
  0 < d ->
  let num := if e <=? 0 then n * 2 ^ (- e) else n in
  let den := if e <=? 0 then d else d * 2 ^ e in
  0 < den /\
  forall K, (inject_Z K * inject_Z den == inject_Z num)%Q <->
            (inject_Z K * inject_Z d * 2 ^ e == inject_Z n)%Q.
Proof.
  intros Hd. cbv zeta. destruct (Z.leb_spec e 0) as [He | He].
  - split; [ exact Hd | ]. intros K.
    rewrite inject_Z_mult, pow2_Z by lia.
    pose proof (pow2_opp e) as Hone. pose proof (pow2_pos e) as Hp.
    split; intros H.
    + rewrite H. rewrite <- Qmult_assoc, (Qmult_comm (2 ^ (- e))), Hone. ring.
    + rewrite <- H. rewrite <- !Qmult_assoc, Hone. ring.
  - split; [ apply Z.mul_pos_pos; [ exact Hd | apply Z.pow_pos_nonneg; lia ] | ].
    intros K. rewrite inject_Z_mult, pow2_Z by lia. rewrite Qmult_assoc. reflexivity.
Qed.

Lemma Qscale (X N a b : Q) :
  (0 < a)%Q -> (0 < b)%Q -> (a * b == 1)%Q ->
  ((X <= N * b <-> X * a <= N) /\ (N * b <= X <-> N <= X * a))%Q.
Proof.
  intros Ha Hb Hone.
  assert (E1 : (N * b * a == N)%Q).
  { rewrite <- Qmult_assoc, (Qmult_comm b a), Hone. ring. }
  assert (E2 : (X * a * b == X)%Q).
  { rewrite <- Qmult_assoc, Hone. ring. }
  repeat split; intros H.
  - rewrite <- E1. apply Qmult_le_compat_r; [ exact H | apply Qlt_le_weak, Ha ].
  - rewrite <- E2. apply Qmult_le_compat_r; [ exact H | apply Qlt_le_weak, Hb ].
  - rewrite <- E1. apply Qmult_le_compat_r; [ exact H | apply Qlt_le_weak, Ha ].
  - rewrite <- E2. apply Qmult_le_compat_r; [ exact H | apply Qlt_le_weak, Hb ].
Qed.

Lemma scaled_le (n d e : Z) :
  0 < d ->
  let num := if e <=? 0 then n * 2 ^ (- e) else n in
  let den := if e <=? 0 then d else d * 2 ^ e in
  forall K, (K * den <= num <-> (inject_Z K * inject_Z d * 2 ^ e <= inject_Z n)%Q) /\
            (num <= K * den <-> (inject_Z n <= inject_Z K * inject_Z d * 2 ^ e)%Q).
Proof.
  intros Hd. cbv zeta. intros K. destruct (Z.leb_spec e 0) as [He | He].
  - rewrite !Zle_Qle, !inject_Z_mult, pow2_Z by lia.
    apply Qscale; [ apply pow2_pos | apply pow2_pos | apply pow2_opp ].
  - rewrite !Zle_Qle, !inject_Z_mult, pow2_Z by lia. rewrite !Qmult_assoc.
    split; reflexivity.
Qed.

Lemma Qabs_num_den (q : Q) :
  (inject_Z (Z.abs (Qnum q)) == Qabs q * inject_Z (Zpos (Qden q)))%Q.
Proof.
  destruct q as [a b]. cbn [Qnum Qden Qabs].
  rewrite (Qmake_Qdiv (Z.abs a) b). field.
  intros H. discriminate H.
Qed.

Lemma double_zero (q : Q) : (q == 0)%Q -> double q = 0%Q.
Proof.
  intros H. unfold double.
  assert (Hn : Qnum q = 0).
  { destruct q as [a b]. unfold Qeq in H. cbn in *. lia. }
  rewrite Hn. reflexivity.
Qed.

(** What [double] computes, for a number other than 0. *)
Lemma double_unfold (q : Q) :
  let n := Z.abs (Qnum q) in
  let d := Zpos (Qden q) in
  let e := Z.max (binade n d - 52) (-1074) in
  let k := round_half_even (if e <=? 0 then n * 2 ^ (- e) else n)
                           (if e <=? 0 then d else d * 2 ^ e) in
  Qnum q <> 0 ->
  (double q == inject_Z (Z.sgn (Qnum q) * k) * 2 ^ e)%Q.
Proof.
  cbv zeta. intros Hq. unfold double.
  destruct (Z.eqb_spec (Z.abs (Qnum q)) 0) as [H0 | _]; [ lia | ].
  rewrite Qred_correct.
  destruct (Z.max (binade (Z.abs (Qnum q)) (Z.pos (Qden q)) - 52) (-1074) <=? 0);
    reflexivity.
Qed.

Lemma double_canonical (q : Q) :
  exists k e, canonical k e /\ (double q == inject_Z (Z.sgn (Qnum q) * k) * 2 ^ e)%Q.
Proof.
  destruct (Z.eq_dec (Qnum q) 0) as [H0 | Hq].
  - exists 0, (-1074). split.
    + unfold canonical. split; [ split; [ lia | apply Z.pow_nonneg; lia ] | split; [ lia | right; reflexivity ] ].
    + rewrite double_zero; [ rewrite Z.mul_0_r; ring | ].
      destruct q as [a b]. cbn in H0. subst a. reflexivity.
  - pose proof (double_unfold q Hq) as Hd. cbv zeta in Hd.
    set (n := Z.abs (Qnum q)) in *. set (d := Z.pos (Qden q)) in *.
    set (e := Z.max (binade n d - 52) (-1074)) in *.
    set (num := if e <=? 0 then n * 2 ^ (- e) else n) in *.
    set (den := if e <=? 0 then d else d * 2 ^ e) in *.
    exists (round_half_even num den), e. split; [ | exact Hd ].
    assert (Hn : 0 < n) by (unfold n; lia).
    assert (Hdp : 0 < d) by (unfold d; lia).
    destruct (binade_spec n d Hn Hdp) as [Hlo Hhi].
    destruct (scaled_num_den n d e Hdp) as [Hden _]. fold den in Hden.
    pose proof (scaled_le n d e Hdp) as Hsc. cbv zeta in Hsc. fold num den in Hsc.
    assert (Hdq : (0 < inject_Z d)%Q) by (rewrite Zlt_Qlt in Hdp; exact Hdp).
    (* the upper bound: n < d * 2^(e + 53) *)
    assert (Hup : num <= 2 ^ 53 * den).
    { apply (Hsc (2 ^ 53)). rewrite pow2_Z by lia.
      apply Qlt_le_weak. eapply Qlt_le_trans; [ exact Hhi | ].
      rewrite (Qmult_comm (2 ^ 53)), <- Qmult_assoc, <- pow2_plus.
      apply Qmult_le_l; [ exact Hdq | ].
      apply Qpower_le_compat_l; [ unfold e; lia | discriminate ]. }
    assert (Hnum : 0 <= num).
    { unfold num. destruct (e <=? 0); [ apply Z.mul_nonneg_nonneg; [ lia | apply Z.pow_nonneg; lia ] | lia ]. }
    destruct (Z.max_spec (binade n d - 52) (-1074)) as [[Hlt He] | [Hge He]]; fold e in He.
    + (* subnormal *)
      pose proof (round_half_even_bounds 0 (2 ^ 53) num den Hden ltac:(lia)) as Hk.
      unfold canonical. split; [ exact Hk | split; [ lia | right; exact He ] ].
    + (* normal *)
      assert (Hlow : 2 ^ 52 * den <= num).
      { apply (Hsc (2 ^ 52)). rewrite pow2_Z by lia.
        eapply Qle_trans; [ | exact Hlo ].
        rewrite (Qmult_comm (2 ^ 52)), <- Qmult_assoc, <- pow2_plus.
        apply Qmult_le_l; [ exact Hdq | ].
        apply Qpower_le_compat_l; [ lia | discriminate ]. }
      pose proof (round_half_even_bounds (2 ^ 52) (2 ^ 53) num den Hden ltac:(lia)) as Hk.
      unfold canonical. split; [ lia | split; [ lia | left; lia ] ].
Qed.

Lemma double_of_canonical (q : Q) (k e : Z) :
  0 < k -> canonical k e ->
  (Qabs q == inject_Z k * 2 ^ e)%Q ->
  (double q == q)%Q.
Proof.
  intros Hk (Hk53 & He & Hnorm) Hq.
  assert (Hkq : (0 < inject_Z k)%Q) by (rewrite Zlt_Qlt in Hk; exact Hk).
  pose proof (pow2_pos e) as Hpe.
  assert (Habs : (0 < Qabs q)%Q).
  { rewrite Hq. apply Qmult_lt_0_compat; assumption. }
  assert (Hnz : Qnum q <> 0).
  { intros H0. destruct q as [a b]. cbn in H0. subst a. cbn in Habs.
    unfold Qlt in Habs. cbn in Habs. lia. }
  pose proof (double_unfold q Hnz) as Hd. cbv zeta in Hd.
  pose proof (Qabs_num_den q) as Hnd.
  set (n := Z.abs (Qnum q)) in *. set (d := Z.pos (Qden q)) in *.
  assert (Hn : 0 < n) by (unfold n; lia).
  assert (Hdp : 0 < d) by (unfold d; lia).
  assert (Hdq : (0 < inject_Z d)%Q) by (rewrite Zlt_Qlt in Hdp; exact Hdp).
  (* n = d * k * 2^e *)
  assert (Hval : (inject_Z n == inject_Z d * (inject_Z k * 2 ^ e))%Q).
  { rewrite Hnd, Hq. ring. }
  (* the binade *)
  destruct (log2_bounds k Hk) as [Hklo Hkhi].
  assert (Hb : binade n d = Z.log2 k + e).
  { apply binade_unique; [ exact Hn | exact Hdp | ]. rewrite Hval. split.
    - apply Qmult_le_l; [ exact Hdq | ]. rewrite pow2_plus.
      apply Qmult_le_compat_r; [ exact Hklo | apply Qlt_le_weak, Hpe ].
    - apply Qmult_lt_l; [ exact Hdq | ].
      replace (Z.log2 k + e + 1) with (Z.log2 k + 1 + e) by lia. rewrite pow2_plus.
      apply Qmult_lt_compat_r; [ exact Hpe | exact Hkhi ]. }
  rewrite Hb in Hd.
  (* the mantissa [K] and exponent [e'] double settles on *)
  assert (Hlog : Z.log2 k <= 53).
  { destruct (Z.le_gt_cases (Z.log2 k) 53) as [H | H]; [ exact H | exfalso ].
    pose proof (Z.log2_spec k Hk) as [Hl _].
    assert (2 ^ 54 <= 2 ^ Z.log2 k) by (apply Z.pow_le_mono_r; lia). lia. }
  set (e' := Z.max (Z.log2 k + e - 52) (-1074)) in *.
  assert (HK : exists K, (inject_Z K * 2 ^ e' == inject_Z k * 2 ^ e)%Q).
  { destruct (Z.eq_dec (Z.log2 k) 53) as [H53 | Hn53].
    - (* k = 2^53 *)
      assert (Hk2 : k = 2 ^ 53).
      { pose proof (Z.log2_spec k Hk) as [Hl _]. rewrite H53 in Hl. lia. }
      exists (2 ^ 52). unfold e'. rewrite H53, Z.max_l by lia.
      replace (53 + e - 52) with (1 + e) by lia. rewrite pow2_plus, Hk2.
      change (inject_Z (2 ^ 52)) with (4503599627370496%Q).
      change (inject_Z (2 ^ 53)) with (9007199254740992%Q).
      change (2 ^ 1)%Q with 2%Q. ring.
    - exists k. unfold e'.
      destruct (Z.eq_dec (Z.log2 k) 52) as [H52 | Hn52].
      + rewrite H52, Z.max_l by lia. replace (52 + e - 52) with e by lia. reflexivity.
      + assert (Hsmall : k < 2 ^ 52).
        { pose proof (Z.log2_spec k Hk) as [_ Hu].
          assert (2 ^ Z.succ (Z.log2 k) <= 2 ^ 52) by (apply Z.pow_le_mono_r; lia). lia. }
        destruct Hnorm as [Hbig | He'']; [ lia | ].
        rewrite He'', Z.max_r by lia. reflexivity. }
  destruct HK as (K & HK).
  destruct (scaled_num_den n d e' Hdp) as [Hden Hex]. cbv zeta in Hex.
  set (num := if e' <=? 0 then n * 2 ^ (- e') else n) in *.
  set (den := if e' <=? 0 then d else d * 2 ^ e') in *.
  assert (Hnum : num = K * den).
  { apply inject_Z_injective. rewrite inject_Z_mult. symmetry. apply Hex.
    rewrite Hval, <- HK. ring. }
  rewrite Hnum, round_half_even_exact in Hd by exact Hden.
  rewrite Hd, inject_Z_mult, <- Qmult_assoc, HK, <- Hq.
  (* the sign *)
  destruct q as [a b]. cbn [Qnum Qabs]. cbn [Qnum] in Hnz.
  destruct a as [|p|p]; [ contradiction | | ]; cbn [Z.sgn Z.abs].
  - change (inject_Z 1) with 1%Q. ring.
  - change (inject_Z (-1)) with (-1)%Q. 
    change (Z.neg p # b) with (- (Z.pos p # b))%Q. ring.
Qed.

(** Rounding a double again leaves it as it is. *)
Lemma double_idempotent (q : Q) : (double (double q) == double q)%Q.
Proof.
  destruct (double_canonical q) as (k & e & Hc & Hd).
  destruct (Z.eq_dec (Z.sgn (Qnum q) * k) 0) as [H0 | Hnz].
  - rewrite H0 in Hd. assert (Hz : (double q == 0)%Q) by (rewrite Hd; ring).
    rewrite (double_zero _ Hz). symmetry. exact Hz.
  - assert (Hk : 0 < k) by (destruct Hc as ((Hk & _) & _); lia).
    apply (double_of_canonical (double q) k e Hk Hc).
    rewrite Hd, Qabs_Qmult, (Qabs_pos (2 ^ e)) by (apply Qlt_le_weak, pow2_pos).
    apply Qmult_comp; [ | reflexivity ].
    destruct (Qnum q) as [|p|p]; cbn [Z.sgn] in *.
    + lia.
    + rewrite Z.mul_1_l. apply Qabs_pos.
      change 0%Q with (inject_Z 0). rewrite <- Zle_Qle. lia.
    + replace (-1 * k) with (- k) by lia. rewrite inject_Z_opp, Qabs_opp.
      apply Qabs_pos. change 0%Q with (inject_Z 0). rewrite <- Zle_Qle. lia.
Qed.

(** The target is a double. *)
Lemma targetWidth64_double (p : Q) :
  (double (targetWidth64 p) == targetWidth64 p)%Q.
Proof.
  unfold targetWidth64, Qmax, Qmin, GenericMinMax.gmax, GenericMinMax.gmin.
  destruct (Qcompare 100 _); destruct (Qcompare 5 _);
    try apply double_idempotent; vm_compute; reflexivity.
Qed.

(** C6, as amended: a call that finds the bar at a finite width, computing
    as the code does in double precision, snaps to the target and stops when
    the gap is below 0.5; otherwise it writes
    current + (target - current) * 0.1 and requests another frame only when
    the new width is still more than 0.5 from the target.  The target lies
    within 5..100, and the width written is a double, so the next call reads
    back exactly what this one wrote.  Without the bar the call does
    nothing. *)
Theorem animateProgress_step (p : Q) (w : World) :
  finite_bar w ->
  let tgt := targetWidth64 p in
  let w' := animateProgress64 p w in
  (5 <= tgt <= 100)%Q /\
  match task_progress (dom w) with
  | None => w' = w
  | Some sw =>
      let cur := currentWidth64 sw in
      let gap := double (tgt - cur) in
      let newWidth := double (cur + double (gap * double (1#10))) in
      if Qltb (Qabs gap) (1#2)
      then task_progress (dom w') = Some (Some tgt) /\
           (currentWidth64 (Some tgt) == tgt)%Q /\
           frames w' = frames w /\ vars w' = vars w
      else task_progress (dom w') = Some (Some newWidth) /\
           (currentWidth64 (Some newWidth) == newWidth)%Q /\
           (if Qltb (1#2) (Qabs (double (newWidth - tgt)))
            then frames w' = (frames w ++ [(next_handle w, p)])%list /\
                 animationFrame (vars w') = Some (next_handle w)
            else frames w' = frames w /\ vars w' = vars w)
  end.
Proof.
  intros _ tgt w'. split.
  - unfold tgt, targetWidth64.
    split; [ apply Q.le_max_l | ].
    apply Q.max_lub; [ lra | apply Q.le_min_l ].
  - subst tgt w'. unfold animateProgress64.
    destruct (task_progress (dom w)) as [sw|] eqn:Hbar; [ | reflexivity ].
    cbv zeta.
    destruct (Qltb (Qabs (double (targetWidth64 p - currentWidth64 sw))) (1 # 2)).
    + split; [ reflexivity | ].
      split; [ apply targetWidth64_double | split; reflexivity ].
    + split; [ match goal with
               | |- context [Qltb (1 # 2) ?x] => destruct (Qltb (1 # 2) x)
               end; reflexivity | ].
      split; [ apply double_idempotent | ].
      match goal with
      | |- context [Qltb (1 # 2) ?x] => destruct (Qltb (1 # 2) x)
      end; split; reflexivity.
Qed.

Lemma animateProgress_step_witness :
  let p := (6#10)%Q in
  let w := bar_at 5 in
  let tgt := targetWidth64 p in
  let w' := animateProgress64 p w in
  (5 <= tgt <= 100)%Q /\
  match task_progress (dom w) with
  | None => w' = w
  | Some sw =>
      let cur := currentWidth64 sw in
      let gap := double (tgt - cur) in
      let newWidth := double (cur + double (gap * double (1#10))) in
      if Qltb (Qabs gap) (1#2)
      then task_progress (dom w') = Some (Some tgt) /\
           (currentWidth64 (Some tgt) == tgt)%Q /\
           frames w' = frames w /\ vars w' = vars w
      else task_progress (dom w') = Some (Some newWidth) /\
           (currentWidth64 (Some newWidth) == newWidth)%Q /\
           (if Qltb (1#2) (Qabs (double (newWidth - tgt)))
            then frames w' = (frames w ++ [(next_handle w, p)])%list /\
                 animationFrame (vars w') = Some (next_handle w)
            else frames w' = frames w /\ vars w' = vars w)
  end.
Proof.
  apply (animateProgress_step (6#10) (bar_at 5)).
  vm_compute. discriminate.
Defined.

(** The rounding decides the branch.  With the bar at 5.11 and a reported
    progress of 0.0561 the product [0.0561 * 100] is the double just below
    5.61 and the gap rounds to a double below 0.5: the step snaps.  In exact
    arithmetic the gap is 0.5 and the step eases to 5.16. *)
Lemma rounding_decides_the_branch :
  let w' := animateProgress64 (561#10000) (bar_at (511#100)) in
  task_progress (dom w') = Some (Some (targetWidth64 (561#10000))) /\
  (targetWidth64 (561#10000) < 561#100)%Q /\
  ((561#100) - targetWidth64 (561#10000) < 1#1000000000000000)%Q /\
  frames w' = [] /\
  task_progress (dom (animateProgress (561#10000) (bar_at (511#100))))
    = Some (Some (eased (511#100) (targetWidth (561#10000)))) /\
  (eased (511#100) (targetWidth (561#10000)) == 516#100)%Q.
Proof.
  cbv zeta. repeat split; vm_compute; reflexivity.
Qed.

(** ** The displayed percentage stays within 5..100 *)

Create HintDb display.

Lemma display_ok_emit (e : Effect) (w : World) :
  write_ok e -> display_ok w -> display_ok (emit e w).
Proof.
  intros He [Hbar Htr]. split; [ exact Hbar | constructor; assumption ].
Qed.

Lemma display_ok_with_vars (c : Closure) (w : World) :
  display_ok w -> display_ok (with_vars c w).
Proof. intros H. exact H. Qed.

Lemma display_ok_setTimeout (cb : Callback) (delay : Z) (w : World) :
  display_ok w -> display_ok (setTimeout cb delay w).
Proof.
  intros [Hbar Htr]. split; [ exact Hbar | constructor; [ exact I | exact Htr ] ].
Qed.

Lemma display_ok_requestAnimationFrame (p : Q) (w : World) :
  display_ok w -> display_ok (requestAnimationFrame p w).
Proof.
  intros [Hbar Htr]. split; [ exact Hbar | constructor; [ exact I | exact Htr ] ].
Qed.

Lemma display_ok_cancelAnimationFrame (h : positive) (w : World) :
  display_ok w -> display_ok (cancelAnimationFrame h w).
Proof.
  intros [Hbar Htr]. split; [ exact Hbar | constructor; [ exact I | exact Htr ] ].
Qed.

Lemma display_ok_set_width (q : Q) (w : World) :
  percent_ok q -> display_ok w -> display_ok (set_width q w).
Proof.
  intros Hq [_ Htr]. split; [ exact Hq | constructor; assumption ].
Qed.

Lemma display_ok_hideTaskModal (w : World) :
  display_ok w -> display_ok (hideTaskModal w).
Proof.
  intros [Hbar Htr]. unfold hideTaskModal.
  destruct (task_modal (dom w)); (split; [ exact Hbar | constructor; [ exact I | exact Htr ] ]).
Qed.

Lemma display_ok_showNotification (title message type : string) (w : World) :
  display_ok w -> display_ok (showNotification title message type w).
Proof.
  intros H. unfold showNotification.
  apply display_ok_setTimeout, display_ok_emit; [ exact I | exact H ].
Qed.

Lemma currentWidth_ok (w : World) (sw : option Q) :
  display_ok w -> task_progress (dom w) = Some sw -> percent_ok (currentWidth sw).
Proof.
  intros [Hbar _] Hsw. unfold bar_ok in Hbar. rewrite Hsw in Hbar.
  destruct sw as [q|]; [ exact Hbar | ].
  unfold percent_ok, currentWidth. split; lra.
Qed.

Lemma display_ok_animateProgress (p : Q) (w : World) :
  display_ok w -> display_ok (animateProgress p w).
Proof.
  intros Hok.
  destruct (task_progress (dom w)) as [sw|] eqn:Hbar.
  - pose proof (currentWidth_ok w sw Hok Hbar) as Hcur.
    pose proof (targetWidth_range p) as Htgt.
    rewrite (animateProgress_unfold p w sw Hbar).
    destruct (Qltb (Qabs _) _).
    + apply display_ok_set_width; assumption.
    + assert (Hnew : display_ok (set_width (eased (currentWidth sw) (targetWidth p)) w)).
      { apply display_ok_set_width; [ | exact Hok ].
        apply eased_between; assumption. }
      destruct (Qltb _ _);
        [ apply display_ok_requestAnimationFrame | ]; exact Hnew.
  - rewrite animateProgress_no_bar; assumption.
Qed.

Lemma display_ok_set_status (text : string) (w : World) :
  display_ok w -> display_ok (completion_world (set_status text w)).
Proof.
  intros [Hbar Htr]. unfold set_status.
  destruct (task_status (dom w)); cbn [completion_world].
  - split; [ exact Hbar | constructor; [ exact I | exact Htr ] ].
  - split; assumption.
Qed.

#[local] Hint Resolve display_ok_with_vars display_ok_setTimeout
  display_ok_requestAnimationFrame display_ok_cancelAnimationFrame
  display_ok_hideTaskModal display_ok_showNotification
  display_ok_animateProgress display_ok_set_status : display.

Lemma display_ok_update_progress (p : Q) (w : World) :
  display_ok w -> display_ok (update_progress p w).
Proof.
  intros Hok. unfold update_progress.
  destruct (_ || _); [ | exact Hok ].
  unfold set_lastProgress. apply display_ok_with_vars, display_ok_animateProgress.
  destruct (animationFrame _); auto with display.
Qed.

Lemma display_ok_on_processing (data : TaskData) (w : World) :
  display_ok w -> display_ok (completion_world (on_processing data w)).
Proof.
  intros Hok. unfold on_processing.
  match goal with
  | |- context [set_status ?t ?x] =>
      assert (H3 : display_ok (completion_world (set_status t x)));
      [ apply display_ok_set_status, display_ok_update_progress;
        unfold set_currentStageName; auto with display
      | destruct (set_status t x) as [w3|w3] ]
  end; cbn [completion_world] in *.
  - unfold set_check. auto with display.
  - exact H3.
Qed.

Lemma display_ok_catch_block (w : World) :
  display_ok w -> display_ok (catch_block w).
Proof.
  intros Hok. unfold catch_block.
  assert (Hw1 : display_ok (emit FxConsoleError w))
    by (apply display_ok_emit; [ exact I | exact Hok ]).
  destruct (_ <? 5); unfold set_check; auto with display.
Qed.

Lemma display_ok_try_block (data : TaskData) (w : World) :
  display_ok w -> display_ok (completion_world (try_block data w)).
Proof.
  intros Hok. unfold try_block.
  destruct (success data); [ | cbn [completion_world]; auto with display ].
  destruct (status_is data "processing"); [ apply display_ok_on_processing, Hok | ].
  destruct (status_is data "completed"); [ | destruct (status_is data "failed"); [ | exact Hok ] ].
  - unfold on_completed.
    pose proof (display_ok_set_status "处理完成，即将跳转到详情页..." _
                  (display_ok_animateProgress 1 w Hok)) as H1.
    destruct (set_status _ _); cbn [completion_world] in *; auto with display.
  - unfold on_failed.
    pose proof (display_ok_set_status "转录失败，请稍后重试..." w Hok) as H1.
    destruct (set_status _ _); cbn [completion_world] in *; auto with display.
Qed.

Lemma display_ok_checkStatus_resume (r : Settled) (w : World) :
  display_ok w -> display_ok (checkStatus_resume r w).
Proof.
  intros Hok. destruct r as [data|]; cbn [checkStatus_resume].
  - pose proof (display_ok_try_block data w Hok) as H1.
    destruct (try_block data w); cbn [completion_world] in H1;
      [ exact H1 | apply display_ok_catch_block, H1 ].
  - apply display_ok_catch_block, Hok.
Qed.

Section DisplayInvariant.

Variables taskId videoId : string.

Lemma display_ok_run_callback (cb : Callback) (w : World) :
  display_ok w -> display_ok (run_callback taskId videoId cb w).
Proof.
  intros Hok. destruct cb; cbn [run_callback]; auto with display.
  - destruct Hok as [Hbar Htr].
    split; [ exact Hbar | constructor; [ exact I | exact Htr ] ].
  - apply display_ok_emit; [ exact I | exact Hok ].
  - apply display_ok_emit; [ exact I | exact Hok ].
Qed.

Lemma display_ok_step (e : Event) (w w' : World) :
  display_ok w -> step taskId videoId e w = Some w' -> display_ok w'.
Proof.
  intros Hok Hstep. destruct e as [r|i|i]; cbn [step] in Hstep.
  - destruct (in_flight w); [ discriminate | ].
    injection Hstep as <-. apply display_ok_checkStatus_resume. exact Hok.
  - destruct (nth_error (timers w) i) as [[delay cb]|]; [ | discriminate ].
    injection Hstep as <-. apply display_ok_run_callback. exact Hok.
  - destruct (nth_error (frames w) i) as [[h p]|]; [ | discriminate ].
    injection Hstep as <-. apply display_ok_animateProgress. exact Hok.
Qed.

Lemma display_ok_run (es : list Event) :
  forall w w', display_ok w -> run taskId videoId es w = Some w' -> display_ok w'.
Proof.
  induction es as [|e es IH]; intros w w' Hok Hrun; cbn [run] in Hrun.
  - injection Hrun as <-. exact Hok.
  - destruct (step taskId videoId e w) as [w1|] eqn:Hstep; [ | discriminate ].
    eapply IH; [ eapply display_ok_step; eassumption | exact Hrun ].
Qed.

End DisplayInvariant.

(** C7: on a page whose bar starts within 5..100 (the 5% that
    [showTaskModal] sets, or an unset width, read as 5%), whatever responses
    arrive and in whatever order timers and frame callbacks fire, the bar's
    width stays within 5..100 and so does every width the animator wrote. *)
Theorem currentPercent_stays_in_range
  (taskId videoId : string) (page : Dom) (es : list Event) (w : World) :
  bar_ok page ->
  run taskId videoId es (monitorTask taskId page) = Some w ->
  bar_ok (dom w) /\ Forall write_ok (trace w).
Proof.
  intros Hpage Hrun.
  apply (display_ok_run taskId videoId es (monitorTask taskId page) w); [ | exact Hrun ].
  split; [ exact Hpage | ].
  constructor; [ exact I | constructor ].
Qed.

Lemma showTaskModal_bar_ok (text : string) (d : Dom) :
  task_modal d <> None -> task_status d <> None -> task_progress d <> None ->
  bar_ok (showTaskModal text d).
Proof.
  intros Hm Hs Hp. unfold showTaskModal.
  destruct (task_modal d); [ | contradiction ].
  destruct (task_status d); [ | contradiction ].
  destruct (task_progress d); [ | contradiction ].
  unfold bar_ok, percent_ok. cbn. split; lra.
Qed.

Lemma currentPercent_stays_in_range_witness :
  exists w,
    run "t" "v"
        [EvSettle (Fulfilled (processing_report (1#2) 3)); EvFrame 0; EvFrame 0]
        (monitorTask "t" dialog_page) = Some w /\
    bar_ok (dom w) /\ Forall write_ok (trace w).
Proof.
  eexists. split; [ vm_compute; reflexivity | ].
  apply (currentPercent_stays_in_range "t" "v" dialog_page
           [EvSettle (Fulfilled (processing_report (1#2) 3)); EvFrame 0; EvFrame 0]).
  - apply showTaskModal_bar_ok; discriminate.
  - vm_compute. reflexivity.
Defined.

(** ** The target rule *)







(** ** The polling control state *)

Lemma control_animateProgress (p : Q) (w : World) :
  control (animateProgress p w) = control w.
Proof.
  unfold animateProgress.
  destruct (task_progress (dom w)); [ | reflexivity ].
  destruct (Qltb _ _); [ reflexivity | ].
  destruct (Qltb _ _); reflexivity.
Qed.

Lemma control_update_progress (p : Q) (w : World) :
  control (update_progress p w) = control w.
Proof.
  unfold update_progress. destruct (_ || _); [ | reflexivity ].
  change (control (set_lastProgress p ?x)) with (control x).
  rewrite control_animateProgress.
  destruct (animationFrame (vars w)); reflexivity.
Qed.

Lemma control_set_status (text : string) (w : World) :
  match set_status text w with
  | Normal w' => has_status_element w = true /\ control w' = control w
  | Thrown w' => has_status_element w = false /\ w' = w
  end.
Proof.
  unfold set_status, control, has_status_element.
  destruct (task_status (dom w)); split; reflexivity.
Qed.

Lemma control_on_processing (data : TaskData) (w : World) :
  match on_processing data w with
  | Normal w' =>
      has_status_element w = true /\
      control w' =
        let count := checkCount (vars w) + 1 in
        let interval := adjust_interval count (checkInterval (vars w)) in
        rearmed interval count interval (control w)
  | Thrown w' => has_status_element w = false /\ control w' = control w
  end.
Proof.
  unfold on_processing.
  set (stageName := str_or _ _).
  set (w2 := update_progress _ _).
  assert (Hw2 : control w2 = control w).
  { unfold w2. rewrite control_update_progress. reflexivity. }
  pose proof (control_set_status
                (stageName ++ "，已用时: " ++ timeStr (elapsed_time data)) w2) as Hst.
  assert (Hel : has_status_element w2 = has_status_element w)
    by exact (f_equal c_status_element Hw2).
  destruct (set_status _ w2) as [w3|w3]; destruct Hst as [Hs Hc].
  - split; [ congruence | ].
    assert (H3 : control w3 = control w) by congruence.
    pose proof (f_equal c_count H3) as Hcount.
    pose proof (f_equal c_interval H3) as Hint.
    cbn [control c_count c_interval] in Hcount, Hint.
    unfold control, rearmed in *. cbv zeta.
    cbn [setTimeout set_check with_vars vars dom timers in_flight trace checkCount
         checkInterval has_status_element notifications fetches poll_delays
         notifications_of fetches_of poll_delays_of
         c_timers c_in_flight c_count c_interval c_status_element c_notifications
         c_fetches c_poll_delays].
    unfold has_status_element, notifications, fetches, poll_delays in *.
    cbn [setTimeout set_check with_vars vars dom timers in_flight trace
         notifications_of fetches_of poll_delays_of].
    injection H3 as Ht Hf Hc1 Hi1 He Hn Hfe Hp.
    rewrite Ht, Hf, Hc1, Hi1, Hn, Hfe, Hp.
    cbn [dom] in *. rewrite He. reflexivity.
  - subst w3. split; [ congruence | exact Hw2 ].
Qed.

(** *** The handler, seen on the control state *)

Lemma control_hideTaskModal (w : World) : control (hideTaskModal w) = control w.
Proof.
  unfold hideTaskModal. destruct (task_modal (dom w)); reflexivity.
Qed.

Lemma control_showNotification (title message type : string) (w : World) :
  control (showNotification title message type w) =
  notified title message type (control w).
Proof. reflexivity. Qed.

Lemma control_setTimeout_other (cb : Callback) (delay : Z) (w : World) :
  cb <> CbCheckStatus ->
  control (setTimeout cb delay w) = deferred delay cb (control w).
Proof.
  intros Hcb. destruct cb; try contradiction; reflexivity.
Qed.

Lemma control_catch_block (w : World) :
  control (catch_block w) = ctl_catch (control w).
Proof.
  unfold catch_block, ctl_catch.
  change (checkCount (vars (emit FxConsoleError w))) with (c_count (control w)).
  destruct (c_count (control w) <? 5); [ reflexivity | ].
  rewrite control_showNotification, control_hideTaskModal. reflexivity.
Qed.

Lemma control_on_completed (w : World) :
  match on_completed w with
  | Normal w' =>
      has_status_element w = true /\ control w' = deferred 1500 CbCompleted (control w)
  | Thrown w' => has_status_element w = false /\ control w' = control w
  end.
Proof.
  unfold on_completed.
  pose proof (control_set_status "处理完成，即将跳转到详情页..." (animateProgress 1 w)) as Hst.
  pose proof (control_animateProgress 1 w) as Han.
  assert (Hel : has_status_element (animateProgress 1 w) = has_status_element w)
    by exact (f_equal c_status_element Han).
  destruct (set_status _ _) as [w1|w1]; destruct Hst as [Hs Hc].
  - split; [ congruence | ].
    rewrite control_setTimeout_other by discriminate. congruence.
  - subst w1. split; [ congruence | exact Han ].
Qed.

Lemma control_on_failed (w : World) :
  match on_failed w with
  | Normal w' =>
      has_status_element w = true /\ control w' = deferred 1500 CbFailed (control w)
  | Thrown w' => has_status_element w = false /\ control w' = control w
  end.
Proof.
  unfold on_failed.
  pose proof (control_set_status "转录失败，请稍后重试..." w) as Hst.
  destruct (set_status _ _) as [w1|w1]; destruct Hst as [Hs Hc].
  - split; [ exact Hs | ].
    rewrite control_setTimeout_other by discriminate. congruence.
  - subst w1. split; [ exact Hs | reflexivity ].
Qed.

(** The handler touches the control state exactly as [ctl_resume] says. *)
Lemma control_checkStatus_resume (r : Settled) (w : World) :
  control (checkStatus_resume r w) = ctl_resume r (control w).
Proof.
  destruct r as [data|]; cbn [checkStatus_resume ctl_resume];
    [ | apply control_catch_block ].
  unfold try_block.
  change (c_status_element (control w)) with (has_status_element w).
  destruct (success data);
    [ | apply control_setTimeout_other; discriminate ].
  destruct (status_is data "processing").
  { pose proof (control_on_processing data w) as H.
    destruct (on_processing data w) as [w1|w1]; destruct H as [Hel Hc]; rewrite Hel.
    - exact Hc.
    - rewrite control_catch_block, Hc. reflexivity. }
  destruct (status_is data "completed").
  { pose proof (control_on_completed w) as H.
    destruct (on_completed w) as [w1|w1]; destruct H as [Hel Hc]; rewrite Hel.
    - exact Hc.
    - rewrite control_catch_block, Hc. reflexivity. }
  destruct (status_is data "failed"); [ | reflexivity ].
  pose proof (control_on_failed w) as H.
  destruct (on_failed w) as [w1|w1]; destruct H as [Hel Hc]; rewrite Hel.
  - exact Hc.
  - rewrite control_catch_block, Hc. reflexivity.
Qed.

(** *** The event loop, seen on the control state *)

Section ControlLoop.

Variables taskId videoId : string.

Lemma control_run_callback (cb : Callback) (w : World) :
  control (run_callback taskId videoId cb w) = ctl_callback videoId cb (control w).
Proof.
  destruct cb; cbn [run_callback ctl_callback]; try reflexivity.
  - rewrite control_setTimeout_other by discriminate.
    rewrite control_showNotification, control_hideTaskModal. reflexivity.
  - rewrite control_showNotification, control_hideTaskModal. reflexivity.
  - rewrite control_showNotification, control_hideTaskModal. reflexivity.
Qed.

(** Every turn of the event loop is a turn of the control machine. *)
Lemma control_step (e : Event) (w w' : World) :
  step taskId videoId e w = Some w' -> ctl_step videoId e (control w) = Some (control w').
Proof.
  intros Hstep. destruct e as [r|i|i]; cbn [step ctl_step] in *.
  - change (c_in_flight (control w)) with (in_flight w).
    destruct (in_flight w) as [|n] eqn:Hfl; [ discriminate | ].
    injection Hstep as <-. rewrite control_checkStatus_resume.
    unfold answer, control at 2, ctl_set_in_flight. rewrite Hfl. reflexivity.
  - change (c_timers (control w)) with (timers w).
    destruct (nth_error (timers w) i) as [[delay cb]|]; [ | discriminate ].
    injection Hstep as <-. rewrite control_run_callback. reflexivity.
  - destruct (nth_error (frames w) i) as [[h p]|]; [ | discriminate ].
    injection Hstep as <-. rewrite control_animateProgress. reflexivity.
Qed.

(** *** One poll in flight, one outcome at most *)

Lemma count_if_app {A} (f : A -> bool) (l1 l2 : list A) :
  count_if f (l1 ++ l2) = (count_if f l1 + count_if f l2)%nat.
Proof. unfold count_if. rewrite filter_app, length_app. reflexivity. Qed.

Lemma count_if_remove_nth {A} (f : A -> bool) (i : nat) :
  forall (l : list A) (x : A),
    nth_error l i = Some x ->
    count_if f l = ((if f x then 1 else 0) + count_if f (remove_nth i l))%nat.
Proof.
  induction i as [|i IH]; intros [|y l] x Hx; try discriminate; cbn in Hx.
  - injection Hx as ->. unfold count_if. cbn. destruct (f x); reflexivity.
  - specialize (IH l x Hx). unfold count_if in *. cbn.
    destruct (f y); cbn; lia.
Qed.

Lemma count_if_single {A} (f : A -> bool) (x : A) :
  count_if f [x] = if f x then 1%nat else 0%nat.
Proof. unfold count_if. cbn. destruct (f x); reflexivity. Qed.

Ltac tokens_unfold :=
  unfold tokens;
  cbn [c_timers c_in_flight c_notifications rearmed deferred notified length];
  rewrite ?count_if_app, ?count_if_single;
  cbn [is_poll_timer is_outcome_timer snd].

Lemma tokens_rearmed (delay count interval : Z) (c : Control) :
  tokens (rearmed delay count interval c) = S (tokens c).
Proof. tokens_unfold. lia. Qed.

Lemma tokens_deferred_outcome (delay : Z) (cb : Callback) (c : Control) :
  is_outcome_timer (delay, cb) = true ->
  tokens (deferred delay cb c) = S (tokens c).
Proof.
  intros Hcb. destruct cb; try discriminate Hcb; tokens_unfold; lia.
Qed.

Lemma tokens_deferred_other (delay : Z) (cb : Callback) (c : Control) :
  is_outcome_timer (delay, cb) = false -> is_poll_timer (delay, cb) = false ->
  tokens (deferred delay cb c) = tokens c.
Proof.
  intros Ho Hp. destruct cb; try discriminate Ho; try discriminate Hp;
    tokens_unfold; lia.
Qed.

Lemma tokens_notified (title message type : string) (c : Control) :
  tokens (notified title message type c) = S (tokens c).
Proof. tokens_unfold. lia. Qed.

Lemma tokens_ctl_catch (c : Control) : tokens (ctl_catch c) = S (tokens c).
Proof.
  unfold ctl_catch. destruct (_ <? 5); [ apply tokens_rearmed | apply tokens_notified ].
Qed.

Lemma tokens_ctl_resume (r : Settled) (c : Control) :
  (tokens (ctl_resume r c) <= S (tokens c))%nat.
Proof.
  destruct r as [data|]; cbn [ctl_resume]; [ | rewrite tokens_ctl_catch; lia ].
  repeat match goal with
         | |- context [if ?b then _ else _] => destruct b
         end;
    rewrite ?tokens_ctl_catch; unfold ctl_processing;
    rewrite ?tokens_rearmed, ?tokens_deferred_outcome by reflexivity; lia.
Qed.

Lemma tokens_ctl_step (e : Event) (c c' : Control) :
  ctl_step videoId e c = Some c' -> (tokens c' <= tokens c)%nat.
Proof.
  intros Hstep. destruct e as [r|i|i]; cbn [ctl_step] in Hstep.
  - destruct (c_in_flight c) as [|n] eqn:Hfl; [ discriminate | ].
    injection Hstep as <-.
    pose proof (tokens_ctl_resume r (ctl_set_in_flight n c)) as H.
    unfold tokens at 2 in H. cbn in H. unfold tokens at 2. lia.
  - destruct (nth_error (c_timers c) i) as [[delay cb]|] eqn:Hnth; [ | discriminate ].
    injection Hstep as <-.
    pose proof (count_if_remove_nth is_poll_timer i _ _ Hnth) as Hp.
    pose proof (count_if_remove_nth is_outcome_timer i _ _ Hnth) as Ho.
    unfold is_poll_timer, is_outcome_timer in Hp, Ho. cbn [snd] in Hp, Ho.
    assert (Hbase : (tokens c =
                       (if is_poll_timer (delay, cb) then 1 else 0)
                       + (if is_outcome_timer (delay, cb) then 1 else 0)
                       + tokens (ctl_set_timers (remove_nth i (c_timers c)) c))%nat).
    { unfold tokens at 1 2. cbn [ctl_set_timers c_timers c_in_flight c_notifications].
      unfold is_poll_timer, is_outcome_timer. cbn [snd]. lia. }
    unfold is_poll_timer, is_outcome_timer in Hbase. cbn [snd] in Hbase.
    destruct cb; cbn [ctl_callback];
      rewrite ?tokens_deferred_other, ?tokens_notified by reflexivity;
      try lia.
    unfold tokens in *.
    cbn [ctl_set_timers c_timers c_in_flight c_notifications] in *. lia.
  - injection Hstep as <-. lia.
Qed.

End ControlLoop.

Section Runs.

Variables taskId videoId : string.

Lemma tokens_run (es : list Event) :
  forall w w',
    run taskId videoId es w = Some w' ->
    (tokens (control w') <= tokens (control w))%nat.
Proof.
  induction es as [|e es IH]; intros w w' Hrun; cbn [run] in Hrun.
  - injection Hrun as <-. lia.
  - destruct (step taskId videoId e w) as [w1|] eqn:Hstep; [ | discriminate ].
    apply (control_step taskId videoId) in Hstep.
    apply (tokens_ctl_step videoId) in Hstep.
    specialize (IH w1 w' Hrun). lia.
Qed.

Lemma tokens_monitorTask (page : Dom) :
  tokens (control (monitorTask taskId page)) = 1%nat.
Proof. reflexivity. Qed.

Lemma idle_ctl_step (e : Event) (c c' : Control) :
  idle c -> ctl_step videoId e c = Some c' ->
  idle c' /\ c_fetches c' = c_fetches c /\ c_poll_delays c' = c_poll_delays c /\
  c_notifications c' = c_notifications c.
Proof.
  intros (Hfl & Hp & Ho) Hstep. destruct e as [r|i|i]; cbn [ctl_step] in Hstep.
  - rewrite Hfl in Hstep. discriminate.
  - destruct (nth_error (c_timers c) i) as [[delay cb]|] eqn:Hnth; [ | discriminate ].
    injection Hstep as <-.
    pose proof (count_if_remove_nth is_poll_timer i _ _ Hnth) as Hp'.
    pose proof (count_if_remove_nth is_outcome_timer i _ _ Hnth) as Ho'.
    unfold is_poll_timer at 2 in Hp'. unfold is_outcome_timer at 2 in Ho'.
    cbn [snd] in Hp', Ho'.
    destruct cb; try (exfalso; lia); cbn [ctl_callback];
      (split; [ unfold idle; cbn; lia | repeat split ]).
  - injection Hstep as <-. repeat split; assumption.
Qed.

Lemma idle_run (es : list Event) :
  forall w w',
    idle (control w) -> run taskId videoId es w = Some w' ->
    idle (control w') /\ fetches w' = fetches w /\ poll_delays w' = poll_delays w /\
    notifications w' = notifications w.
Proof.
  induction es as [|e es IH]; intros w w' Hidle Hrun; cbn [run] in Hrun.
  - injection Hrun as <-. repeat split; try reflexivity; apply Hidle.
  - destruct (step taskId videoId e w) as [w1|] eqn:Hstep; [ | discriminate ].
    apply (control_step taskId videoId) in Hstep.
    destruct (idle_ctl_step e _ _ Hidle Hstep) as (Hidle1 & Hf & Hd & Hn).
    destruct (IH w1 w' Hidle1 Hrun) as (Hidle' & Hf' & Hd' & Hn').
    change (fetches w1 = fetches w) in Hf.
    change (poll_delays w1 = poll_delays w) in Hd.
    change (notifications w1 = notifications w) in Hn.
    repeat split; try apply Hidle'; congruence.
Qed.

End Runs.

(** *** Exactly one token while every response is known *)

Section ExactlyOnce.

Variables taskId videoId : string.

Lemma tokens_ctl_resume_recognised (r : Settled) (c : Control) :
  recognised r = true -> tokens (ctl_resume r c) = S (tokens c).
Proof.
  destruct r as [data|]; cbn [ctl_resume recognised]; intros Hr;
    [ | apply tokens_ctl_catch ].
  destruct (success data); cbn [negb orb] in Hr;
    [ | apply tokens_deferred_outcome; reflexivity ].
  destruct (status_is data "processing");
    [ destruct (c_status_element c);
      [ unfold ctl_processing; apply tokens_rearmed | apply tokens_ctl_catch ] | ].
  destruct (status_is data "completed");
    [ destruct (c_status_element c);
      [ apply tokens_deferred_outcome; reflexivity | apply tokens_ctl_catch ] | ].
  destruct (status_is data "failed"); [ | discriminate Hr ].
  destruct (c_status_element c);
    [ apply tokens_deferred_outcome; reflexivity | apply tokens_ctl_catch ].
Qed.

Lemma tokens_ctl_timer (i : nat) (c c' : Control) :
  ctl_step videoId (EvTimer i) c = Some c' -> tokens c' = tokens c.
Proof.
  intros Hstep. cbn [ctl_step] in Hstep.
  destruct (nth_error (c_timers c) i) as [[delay cb]|] eqn:Hnth; [ | discriminate ].
  injection Hstep as <-.
  pose proof (count_if_remove_nth is_poll_timer i _ _ Hnth) as Hp.
  pose proof (count_if_remove_nth is_outcome_timer i _ _ Hnth) as Ho.
  unfold is_poll_timer, is_outcome_timer in Hp, Ho. cbn [snd] in Hp, Ho.
  assert (Hbase : (tokens c =
                     (if is_poll_timer (delay, cb) then 1 else 0)
                     + (if is_outcome_timer (delay, cb) then 1 else 0)
                     + tokens (ctl_set_timers (remove_nth i (c_timers c)) c))%nat).
  { unfold tokens at 1 2. cbn [ctl_set_timers c_timers c_in_flight c_notifications].
    unfold is_poll_timer, is_outcome_timer. cbn [snd]. lia. }
  unfold is_poll_timer, is_outcome_timer in Hbase. cbn [snd] in Hbase.
  destruct cb; cbn [ctl_callback];
    rewrite ?tokens_deferred_other, ?tokens_notified by reflexivity;
    try lia.
  unfold tokens in *.
  cbn [ctl_set_timers c_timers c_in_flight c_notifications] in *. lia.
Qed.

Lemma tokens_ctl_step_recognised (e : Event) (c c' : Control) :
  recognised_event e = true ->
  ctl_step videoId e c = Some c' -> tokens c' = tokens c.
Proof.
  intros Hrec Hstep. destruct e as [r|i|i].
  - cbn [ctl_step] in Hstep. cbn [recognised_event] in Hrec.
    destruct (c_in_flight c) as [|n] eqn:Hfl; [ discriminate | ].
    injection Hstep as <-.
    rewrite (tokens_ctl_resume_recognised r _ Hrec).
    unfold tokens. cbn [ctl_set_in_flight c_in_flight c_timers c_notifications].
    rewrite Hfl. lia.
  - apply (tokens_ctl_timer i). exact Hstep.
  - cbn [ctl_step] in Hstep. injection Hstep as <-. reflexivity.
Qed.

Lemma tokens_ctl_step_unrecognised (e : Event) (c c' : Control) :
  recognised_event e = false ->
  ctl_step videoId e c = Some c' -> S (tokens c') = tokens c.
Proof.
  intros Hrec Hstep. destruct e as [r|i|i]; try discriminate Hrec.
  cbn [ctl_step] in Hstep. cbn [recognised_event] in Hrec.
  destruct (c_in_flight c) as [|n] eqn:Hfl; [ discriminate | ].
  injection Hstep as <-.
  destruct r as [data|]; [ | discriminate Hrec ].
  cbn [recognised] in Hrec.
  apply orb_false_iff in Hrec. destruct Hrec as [Hrec Hf].
  apply orb_false_iff in Hrec. destruct Hrec as [Hrec Hc].
  apply orb_false_iff in Hrec. destruct Hrec as [Hs Hp].
  apply negb_false_iff in Hs.
  cbn [ctl_resume]. rewrite Hs, Hp, Hc, Hf.
  unfold tokens. cbn [ctl_set_in_flight c_in_flight c_timers c_notifications].
  rewrite Hfl. lia.
Qed.

(** With every response known the one token is kept; an unknown status
    takes it away for good. *)
Lemma tokens_run_exact (es : list Event) :
  forall w w',
    (tokens (control w) <= 1)%nat ->
    run taskId videoId es w = Some w' ->
    tokens (control w') =
      if forallb recognised_event es then tokens (control w) else O.
Proof.
  induction es as [|e es IH]; intros w w' Hone Hrun; cbn [run] in Hrun.
  - injection Hrun as <-. reflexivity.
  - destruct (step taskId videoId e w) as [w1|] eqn:Hstep; [ | discriminate ].
    apply (control_step taskId videoId) in Hstep.
    cbn [forallb]. destruct (recognised_event e) eqn:He; cbn [andb].
    + pose proof (tokens_ctl_step_recognised e _ _ He Hstep) as Heq.
      rewrite (IH w1 w' ltac:(lia) Hrun), Heq. reflexivity.
    + pose proof (tokens_ctl_step_unrecognised e _ _ He Hstep) as Heq.
      pose proof (tokens_run taskId videoId es _ _ Hrun) as Hle.
      lia.
Qed.

Lemma concluded_ctl_step (e : Event) (c c' : Control) :
  concluded c -> ctl_step videoId e c = Some c' ->
  concluded c' /\ c_fetches c' = c_fetches c /\ c_poll_delays c' = c_poll_delays c.
Proof.
  intros (Hfl & Hp & Ho) Hstep. destruct e as [r|i|i]; cbn [ctl_step] in Hstep.
  - rewrite Hfl in Hstep. discriminate.
  - destruct (nth_error (c_timers c) i) as [[delay cb]|] eqn:Hnth; [ | discriminate ].
    injection Hstep as <-.
    pose proof (count_if_remove_nth is_poll_timer i _ _ Hnth) as Hp'.
    pose proof (count_if_remove_nth is_outcome_timer i _ _ Hnth) as Ho'.
    unfold is_poll_timer at 2 in Hp'. unfold is_outcome_timer at 2 in Ho'.
    cbn [snd] in Hp', Ho'.
    destruct cb; try (exfalso; lia); cbn [ctl_callback];
      (split; [ | split; reflexivity ]);
      unfold concluded;
      cbn [ctl_set_timers deferred notified c_in_flight c_timers c_notifications length];
      rewrite ?count_if_app, ?count_if_single;
      cbn [is_poll_timer is_outcome_timer snd]; lia.
  - injection Hstep as <-. repeat split; assumption.
Qed.

Lemma concluded_run (es : list Event) :
  forall w w',
    concluded (control w) -> run taskId videoId es w = Some w' ->
    concluded (control w') /\ fetches w' = fetches w /\ poll_delays w' = poll_delays w.
Proof.
  induction es as [|e es IH]; intros w w' Hc Hrun; cbn [run] in Hrun.
  - injection Hrun as <-. repeat split; apply Hc.
  - destruct (step taskId videoId e w) as [w1|] eqn:Hstep; [ | discriminate ].
    apply (control_step taskId videoId) in Hstep.
    destruct (concluded_ctl_step e _ _ Hc Hstep) as (Hc1 & Hf & Hd).
    destruct (IH w1 w' Hc1 Hrun) as (Hc' & Hf' & Hd').
    change (fetches w1 = fetches w) in Hf.
    change (poll_delays w1 = poll_delays w) in Hd.
    split; [ exact Hc' | split; congruence ].
Qed.

End ExactlyOnce.

(** ** Terminal outcomes *)

(** C3, counterexample: a run need not deliver any outcome.  A first
    response with [success:true] and the status [queued] is dropped by the
    handler; the monitor is then at rest, with no request awaited and no timer
    armed, and nothing that can still happen shows an outcome or issues a
    request. *)
Lemma unknown_status_ends_without_outcome :
  exists w,
    run "t" "v" [EvSettle (Fulfilled queued_report)] (monitorTask "t" dialog_page)
      = Some w /\
    notifications w = [] /\ in_flight w = O /\ timers w = [] /\ frames w = [] /\
    forall es' w',
      run "t" "v" es' w = Some w' -> notifications w' = [] /\ fetches w' = 1%nat.
Proof.
  eexists. split; [ vm_compute; reflexivity | ].
  split; [ reflexivity | ]. split; [ reflexivity | ].
  split; [ reflexivity | ]. split; [ reflexivity | ].
  intros es' w' Hrun.
  eapply idle_run in Hrun; [ | repeat split ].
  destruct Hrun as (_ & Hf & _ & Hn).
  rewrite Hn, Hf. split; reflexivity.
Qed.

(** C3, as amended: in every run of the monitor in which each response is
    one the handler knows (a transport failure, [success:false], or the status
    processing, completed or failed), exactly one of these exists at every
    moment: an awaited request, an armed poll, an outcome waiting behind its
    delay, or an outcome shown.  So the outcome is delivered exactly once:
    never twice, and whenever nothing of the monitor is pending it has been
    shown.  A run that received a response with an unknown status has none of
    the four and shows no outcome; no run has more than one.  Once a terminal
    state has been reached no request is awaited and no poll is armed, so the
    poll-completion handler is not entered again, in this world and in every
    later one; no further request is issued or poll armed, the outcome that
    waits is shown once its timer fires, and once it is shown nothing shows
    another. *)
Theorem outcome_exactly_once
  (taskId videoId : string) (page : Dom) (es : list Event) (w : World) :
  run taskId videoId es (monitorTask taskId page) = Some w ->
  (in_flight w + count_if is_poll_timer (timers w)
   + count_if is_outcome_timer (timers w) + length (notifications w) <= 1)%nat /\
  (in_flight w + count_if is_poll_timer (timers w)
   + count_if is_outcome_timer (timers w) + length (notifications w))%nat
  = (if forallb recognised_event es then 1%nat else O) /\
  (forallb recognised_event es = true ->
   idle (control w) -> length (notifications w) = 1%nat) /\
  ((count_if is_outcome_timer (timers w) + length (notifications w))%nat = 1%nat ->
   count_if is_poll_timer (timers w) = O /\
   (forall r, step taskId videoId (EvSettle r) w = None) /\
   forall es' w',
     run taskId videoId es' w = Some w' ->
     (count_if is_outcome_timer (timers w') + length (notifications w'))%nat = 1%nat /\
     in_flight w' = O /\ count_if is_poll_timer (timers w') = O /\
     (forall r, step taskId videoId (EvSettle r) w' = None) /\
     fetches w' = fetches w /\ poll_delays w' = poll_delays w /\
     (length (notifications w) = 1%nat -> notifications w' = notifications w)).
Proof.
  intros Hrun.
  pose proof (tokens_run taskId videoId es _ _ Hrun) as Htok.
  rewrite tokens_monitorTask in Htok.
  unfold tokens in Htok. cbn [control c_in_flight c_timers c_notifications] in Htok.
  pose proof (tokens_run_exact taskId videoId es _ _
                ltac:(rewrite tokens_monitorTask; lia) Hrun) as Heq.
  rewrite tokens_monitorTask in Heq.
  unfold tokens in Heq. cbn [control c_in_flight c_timers c_notifications] in Heq.
  split; [ exact Htok | split; [ exact Heq | split ] ].
  - intros Hrec (Hfl & Hp & Ho). rewrite Hrec in Heq.
    cbn [control c_in_flight c_timers] in Hfl, Hp, Ho. lia.
  - intros Hdecided.
    assert (Hconcluded : concluded (control w)).
    { unfold concluded. cbn [control c_in_flight c_timers c_notifications]. lia. }
    split; [ lia | split ].
    + intros r. cbn [step].
      destruct (in_flight w); [ reflexivity | exfalso; lia ].
    + intros es' w' Hrun'.
      destruct (concluded_run taskId videoId es' _ _ Hconcluded Hrun')
        as ((Hfl' & Hp' & Ho') & Hf' & Hd').
      cbn [control c_in_flight c_timers c_notifications] in Hfl', Hp', Ho'.
      split; [ exact Ho' | ]. split; [ exact Hfl' | ]. split; [ exact Hp' | ].
      split; [ intros r; cbn [step]; rewrite Hfl'; reflexivity | ].
      split; [ exact Hf' | ]. split; [ exact Hd' | ].
      intros Hshown.
      assert (Hidle : idle (control w)).
      { unfold idle. cbn [control c_in_flight c_timers]. lia. }
      destruct (idle_run taskId videoId es' _ _ Hidle Hrun') as (_ & _ & _ & Hn).
      exact Hn.
Qed.

Lemma outcome_exactly_once_witness :
  exists w,
    run "t" "v" [EvSettle (Fulfilled completed_report); EvTimer 0]
        (monitorTask "t" dialog_page) = Some w /\
    length (notifications w) = 1%nat /\
    (in_flight w + count_if is_poll_timer (timers w)
     + count_if is_outcome_timer (timers w) + length (notifications w) <= 1)%nat /\
    (in_flight w + count_if is_poll_timer (timers w)
     + count_if is_outcome_timer (timers w) + length (notifications w))%nat
    = (if forallb recognised_event [EvSettle (Fulfilled completed_report); EvTimer 0]
       then 1%nat else O) /\
    (forallb recognised_event [EvSettle (Fulfilled completed_report); EvTimer 0] = true ->
     idle (control w) -> length (notifications w) = 1%nat) /\
    ((count_if is_outcome_timer (timers w) + length (notifications w))%nat = 1%nat ->
     count_if is_poll_timer (timers w) = O /\
     (forall r, step "t" "v" (EvSettle r) w = None) /\
     forall es' w',
       run "t" "v" es' w = Some w' ->
       (count_if is_outcome_timer (timers w') + length (notifications w'))%nat = 1%nat /\
       in_flight w' = O /\ count_if is_poll_timer (timers w') = O /\
       (forall r, step "t" "v" (EvSettle r) w' = None) /\
       fetches w' = fetches w /\ poll_delays w' = poll_delays w /\
       (length (notifications w) = 1%nat -> notifications w' = notifications w)).
Proof.
  eexists. split; [ vm_compute; reflexivity | ].
  split; [ vm_compute; reflexivity | ].
  apply (outcome_exactly_once "t" "v" dialog_page
           [EvSettle (Fulfilled completed_report); EvTimer 0]).
  vm_compute. reflexivity.
Defined.

(** ** Application-level rejection *)

(** C4, counterexample: when the first response is
    [{success:false, error:"quota exceeded"}] the handler shows nothing yet; it
    leaves a 1000 ms timer, and only that timer shows the outcome. *)
Lemma api_error_not_immediate :
  exists w,
    run "t" "v" [EvSettle (Fulfilled quota_report)] (monitorTask "t" dialog_page)
      = Some w /\
    notifications w = [] /\
    timers w = [(1000, CbApiError "quota exceeded")].
Proof.
  eexists. split; [ vm_compute; reflexivity | ].
  split; vm_compute; reflexivity.
Qed.

Lemma nth_error_snoc {A} (l : list A) (x : A) :
  nth_error (l ++ [x]) (length l) = Some x.
Proof.
  rewrite nth_error_app2 by lia. rewrite Nat.sub_diag. reflexivity.
Qed.

Lemma remove_nth_snoc {A} (l : list A) (x : A) :
  remove_nth (length l) (l ++ [x]) = l.
Proof.
  induction l as [|y l IH]; cbn; [ reflexivity | rewrite IH; reflexivity ].
Qed.

(** C4, as amended: a response with [success:false] is never retried and
    leaves the closure variables alone; the handler arms one 1000 ms timer,
    and when that timer fires the dialog is hidden and the outcome shown,
    carrying the response's error message, or the generic message when the
    error is absent or empty. *)
Theorem api_error_reported_after_delay
  (taskId videoId : string) (data : TaskData) (w : World) :
  success data = false ->
  let w' := checkStatus_resume (Fulfilled data) w in
  timers w' = (timers w ++ [(1000, CbApiError (rejection_reason data))])%list /\
  vars w' = vars w /\ notifications w' = notifications w /\
  poll_delays w' = poll_delays w /\ fetches w' = fetches w /\
  in_flight w' = in_flight w /\
  exists w'',
    step taskId videoId (EvTimer (length (timers w))) w' = Some w'' /\
    trace w'' = (FxSetTimeout CbHideNotification 5000
                 :: FxNotify "状态检查失败" (rejection_reason data) "error"
                 :: FxHideTaskModal :: trace w')%list /\
    notifications w'' =
      ("状态检查失败", rejection_reason data, "error") :: notifications w /\
    poll_delays w'' = poll_delays w /\ fetches w'' = fetches w /\
    in_flight w'' = in_flight w.
Proof.
  intros Hfalse w'. subst w'.
  cbn [checkStatus_resume]. unfold try_block. rewrite Hfalse.
  fold (rejection_reason data).
  repeat (split; [ reflexivity | ]).
  cbn [step setTimeout timers].
  rewrite nth_error_snoc.
  eexists. split; [ reflexivity | ].
  unfold drop_timer. cbn [setTimeout timers]. rewrite remove_nth_snoc.
  cbn [run_callback]. unfold showNotification, hideTaskModal.
  destruct (task_modal (dom w)) eqn:Hm; cbn; rewrite ?Hm; repeat split.
Qed.

Lemma api_error_reported_after_delay_witness :
  let w := answer (monitorTask "t" dialog_page) in
  let w' := checkStatus_resume (Fulfilled quota_report) w in
  timers w' = (timers w ++ [(1000, CbApiError (rejection_reason quota_report))])%list /\
  vars w' = vars w /\ notifications w' = notifications w /\
  poll_delays w' = poll_delays w /\ fetches w' = fetches w /\
  in_flight w' = in_flight w /\
  exists w'',
    step "t" "v" (EvTimer (length (timers w))) w' = Some w'' /\
    trace w'' = (FxSetTimeout CbHideNotification 5000
                 :: FxNotify "状态检查失败" (rejection_reason quota_report) "error"
                 :: FxHideTaskModal :: trace w')%list /\
    notifications w'' =
      ("状态检查失败", rejection_reason quota_report, "error") :: notifications w /\
    poll_delays w'' = poll_delays w /\ fetches w'' = fetches w /\
    in_flight w'' = in_flight w.
Proof.
  apply (api_error_reported_after_delay "t" "v" quota_report
           (answer (monitorTask "t" dialog_page))).
  reflexivity.
Defined.

(** ** Reports with an unknown status *)

(** C10: a report with [success:true] whose status is none of processing,
    completed and failed leaves the world exactly as it was: no timer, no
    outcome, no variable changed.  In a run of the monitor nothing else is
    pending at that point, so whatever happens afterwards no status request
    is issued, no poll is armed and no outcome is shown. *)
Theorem unknown_status_stalls (taskId videoId : string) (data : TaskData) :
  unknown_status data ->
  (forall w, checkStatus_resume (Fulfilled data) w = w) /\
  (forall page es1 w es2 w2,
      run taskId videoId es1 (monitorTask taskId page) = Some w ->
      run taskId videoId (EvSettle (Fulfilled data) :: es2) w = Some w2 ->
      fetches w2 = fetches w /\ poll_delays w2 = poll_delays w /\
      notifications w2 = [] /\ in_flight w2 = O /\
      count_if is_poll_timer (timers w2) = O).
Proof.
  intros (Hs & Hp & Hc & Hf).
  assert (Hnop : forall w, checkStatus_resume (Fulfilled data) w = w).
  { intros w. cbn [checkStatus_resume]. unfold try_block.
    rewrite Hs, Hp, Hc, Hf. reflexivity. }
  split; [ exact Hnop | ].
  intros page es1 w es2 w2 Hrun1 Hrun2.
  pose proof (tokens_run taskId videoId es1 _ _ Hrun1) as Htok.
  rewrite tokens_monitorTask in Htok.
  cbn [run step] in Hrun2.
  destruct (in_flight w) as [|n] eqn:Hfl; [ discriminate | ].
  rewrite Hnop in Hrun2.
  unfold tokens in Htok. cbn [control c_in_flight c_timers c_notifications] in Htok.
  rewrite Hfl in Htok.
  assert (Hidle : idle (control (answer w))).
  { unfold idle. cbn [control answer c_in_flight c_timers in_flight timers].
    rewrite Hfl. cbn [pred]. lia. }
  destruct (idle_run taskId videoId es2 _ _ Hidle Hrun2)
    as ((Hfl2 & Hp2 & _) & Hfe & Hpd & Hno).
  assert (Hnone : notifications w = []).
  { destruct (notifications w); [ reflexivity | cbn in Htok; lia ]. }
  repeat split.
  - exact Hfe.
  - exact Hpd.
  - rewrite Hno. exact Hnone.
  - exact Hfl2.
  - exact Hp2.
Qed.

Lemma unknown_status_stalls_witness :
  (forall w, checkStatus_resume (Fulfilled queued_report) w = w) /\
  (forall page es1 w es2 w2,
      run "t" "v" es1 (monitorTask "t" page) = Some w ->
      run "t" "v" (EvSettle (Fulfilled queued_report) :: es2) w = Some w2 ->
      fetches w2 = fetches w /\ poll_delays w2 = poll_delays w /\
      notifications w2 = [] /\ in_flight w2 = O /\
      count_if is_poll_timer (timers w2) = O).
Proof.
  apply (unknown_status_stalls "t" "v" queued_report).
  repeat split.
Defined.

(** ** The retry budget *)

Lemma count_ctl_resume (r : Settled) (c : Control) :
  c_count c <= c_count (ctl_resume r c) <= c_count c + 1.
Proof.
  assert (Hcatch : c_count c <= c_count (ctl_catch c) <= c_count c + 1).
  { unfold ctl_catch. destruct (_ <? 5); cbn; lia. }
  destruct r as [data|]; cbn [ctl_resume]; [ | exact Hcatch ].
  repeat match goal with
         | |- context [if ?b then _ else _] => destruct b
         end; try exact Hcatch; cbn; lia.
Qed.

Lemma count_ctl_step (videoId : string) (e : Event) (c c' : Control) :
  ctl_step videoId e c = Some c' -> c_count c <= c_count c'.
Proof.
  intros Hstep. destruct e as [r|i|i]; cbn [ctl_step] in Hstep.
  - destruct (c_in_flight c); [ discriminate | ]. injection Hstep as <-.
    apply (count_ctl_resume r (ctl_set_in_flight n c)).
  - destruct (nth_error (c_timers c) i) as [[delay cb]|]; [ | discriminate ].
    injection Hstep as <-. destruct cb; cbn; lia.
  - injection Hstep as <-. lia.
Qed.

(** C9: the retry limit is tested against [checkCount], the variable that
    every handled processing report increments and every retried transport
    failure increments too; no turn of the event loop ever lowers it; and once
    it has reached 5 a transport failure arms no retry: the dialog is hidden
    and the connection failure shown at once. *)
Theorem retry_budget_is_poll_counter (taskId videoId : string) :
  (forall data w,
      success data = true -> status_is data "processing" = true ->
      has_status_element w = true ->
      checkCount (vars (checkStatus_resume (Fulfilled data) w)) = checkCount (vars w) + 1) /\
  (forall w,
      checkCount (vars w) < 5 ->
      checkCount (vars (checkStatus_resume Rejected w)) = checkCount (vars w) + 1 /\
      timers (checkStatus_resume Rejected w) = (timers w ++ [(3000, CbCheckStatus)])%list) /\
  (forall e w w',
      step taskId videoId e w = Some w' -> checkCount (vars w) <= checkCount (vars w')) /\
  (forall w,
      5 <= checkCount (vars w) ->
      let w' := checkStatus_resume Rejected w in
      notifications w' = connection_lost :: notifications w /\
      timers w' = (timers w ++ [(5000, CbHideNotification)])%list /\
      poll_delays w' = poll_delays w /\ fetches w' = fetches w /\
      in_flight w' = in_flight w /\ checkCount (vars w') = checkCount (vars w)).
Proof.
  split; [ | split; [ | split ] ].
  - intros data w Hs Hp Hel.
    pose proof (control_checkStatus_resume (Fulfilled data) w) as Hc.
    cbn [ctl_resume] in Hc. rewrite Hs, Hp in Hc.
    change (c_status_element (control w)) with (has_status_element w) in Hc.
    rewrite Hel in Hc. exact (f_equal c_count Hc).
  - intros w Hlt.
    pose proof (control_checkStatus_resume Rejected w) as Hc.
    cbn [ctl_resume] in Hc. unfold ctl_catch in Hc.
    apply Z.ltb_lt in Hlt.
    change (c_count (control w)) with (checkCount (vars w)) in Hc.
    rewrite Hlt in Hc.
    split; [ exact (f_equal c_count Hc) | exact (f_equal c_timers Hc) ].
  - intros e w w' Hstep.
    apply (control_step taskId videoId) in Hstep.
    exact (count_ctl_step videoId e _ _ Hstep).
  - intros w Hge w'. subst w'.
    pose proof (control_checkStatus_resume Rejected w) as Hc.
    cbn [ctl_resume] in Hc. unfold ctl_catch in Hc.
    change (c_count (control w)) with (checkCount (vars w)) in Hc.
    assert (Hnlt : (checkCount (vars w) <? 5) = false) by (apply Z.ltb_ge; exact Hge).
    rewrite Hnlt in Hc.
    repeat split.
    + exact (f_equal c_notifications Hc).
    + exact (f_equal c_timers Hc).
    + exact (f_equal c_poll_delays Hc).
    + exact (f_equal c_fetches Hc).
    + exact (f_equal c_in_flight Hc).
    + exact (f_equal c_count Hc).
Qed.

Lemma retry_budget_is_poll_counter_witness :
  exists w,
    run "t" "v" (polling five_reports) (monitorTask "t" dialog_page) = Some w /\
    checkCount (vars w) = 5 /\
    let w' := checkStatus_resume Rejected w in
    notifications w' = connection_lost :: notifications w /\
    timers w' = (timers w ++ [(5000, CbHideNotification)])%list /\
    poll_delays w' = poll_delays w /\ fetches w' = fetches w /\
    in_flight w' = in_flight w /\ checkCount (vars w') = checkCount (vars w).
Proof.
  eexists. split; [ vm_compute; reflexivity | ].
  split; [ vm_compute; reflexivity | ].
  apply (proj2 (proj2 (proj2 (retry_budget_is_poll_counter "t" "v")))).
  vm_compute. discriminate.
Defined.

(** C1, counterexample: five processing reports, then one transport
    failure.  It is the first failure of the run, and it is terminal: the
    counter the retry limit reads stands at 5 after the five reports. *)
Lemma first_failure_terminal_after_five_polls :
  exists w w',
    run "t" "v" (polling five_reports) (monitorTask "t" dialog_page) = Some w /\
    notifications w = [] /\ checkCount (vars w) = 5 /\
    step "t" "v" (EvSettle Rejected) w = Some w' /\
    notifications w' = [connection_lost] /\
    count_if is_poll_timer (timers w') = O /\ in_flight w' = O.
Proof.
  eexists. eexists.
  split; [ vm_compute; reflexivity | ].
  split; [ vm_compute; reflexivity | ].
  split; [ vm_compute; reflexivity | ].
  split; [ vm_compute; reflexivity | ].
  split; [ vm_compute; reflexivity | ].
  split; vm_compute; reflexivity.
Qed.

(** The world of a fresh monitor after [n] retried transport failures, for
    [n] up to 5: nothing shown, the next request awaited, [n] counted. *)
Lemma after_failures (taskId videoId : string) (page : Dom) (n : nat) :
  (n <= 5)%nat ->
  exists w,
    run taskId videoId (failures n) (monitorTask taskId page) = Some w /\
    notifications w = [] /\ timers w = [] /\ in_flight w = 1%nat /\
    checkCount (vars w) = Z.of_nat n /\ fetches w = S n /\
    poll_delays w = repeat 3000 n.
Proof.
  intros Hn.
  do 6 (destruct n as [|n];
        [ eexists; split; [ vm_compute; reflexivity | repeat split ] | ]).
  exfalso. lia.
Qed.

(** C1, as amended: on a fresh monitor whose polls all fail in transport,
    each of the first five failures shows nothing and arms one retry after
    3000 ms, and the sixth failure in a row, never an earlier one, hides the
    dialog and shows the connection failure with nothing left armed.  No
    separate failure counter exists and no response ever lowers
    [checkCount]. *)
Theorem sixth_failure_terminal_on_fresh_monitor
  (taskId videoId : string) (page : Dom) (n : nat) :
  (n <= 5)%nat ->
  (exists w w',
      run taskId videoId (failures n) (monitorTask taskId page) = Some w /\
      notifications w = [] /\ fetches w = S n /\
      step taskId videoId (EvSettle Rejected) w = Some w' /\
      if (n <? 5)%nat
      then notifications w' = [] /\ timers w' = [(3000, CbCheckStatus)]
      else notifications w' = [connection_lost] /\
           timers w' = [(5000, CbHideNotification)] /\ in_flight w' = O) /\
  (forall r w, checkCount (vars w) <= checkCount (vars (checkStatus_resume r w))).
Proof.
  intros Hn. split.
  - destruct (after_failures taskId videoId page n Hn)
      as (w & Hrun & Hno & Htm & Hfl & Hcount & Hfe & _).
    exists w. eexists.
    split; [ exact Hrun | ]. split; [ exact Hno | ]. split; [ exact Hfe | ].
    cbn [step]. rewrite Hfl. split; [ reflexivity | ].
    pose proof (control_checkStatus_resume Rejected (answer w)) as Hc.
    cbn [ctl_resume] in Hc. unfold ctl_catch in Hc.
    change (c_count (control (answer w))) with (checkCount (vars w)) in Hc.
    rewrite Hcount in Hc.
    destruct (n <? 5)%nat eqn:Hlt.
    + apply Nat.ltb_lt in Hlt.
      assert (Hz : (Z.of_nat n <? 5) = true) by (apply Z.ltb_lt; lia).
      rewrite Hz in Hc. split.
      * change (notifications ?x) with (c_notifications (control x)).
        rewrite Hc. exact Hno.
      * change (timers ?x) with (c_timers (control x)).
        rewrite Hc. cbn. rewrite Htm. reflexivity.
    + apply Nat.ltb_ge in Hlt.
      assert (Hz : (Z.of_nat n <? 5) = false) by (apply Z.ltb_ge; lia).
      rewrite Hz in Hc. repeat split.
      * change (notifications ?x) with (c_notifications (control x)).
        rewrite Hc. cbn. unfold notifications in Hno. cbn. rewrite Hno. reflexivity.
      * change (timers ?x) with (c_timers (control x)).
        rewrite Hc. cbn. rewrite Htm. reflexivity.
      * change (in_flight ?x) with (c_in_flight (control x)).
        rewrite Hc. cbn. rewrite Hfl. reflexivity.
  - intros r w.
    pose proof (control_checkStatus_resume r w) as Hc.
    pose proof (count_ctl_resume r (control w)) as Hm.
    rewrite <- Hc in Hm. exact (proj1 Hm).
Qed.

Lemma sixth_failure_terminal_on_fresh_monitor_witness :
  (exists w w',
      run "t" "v" (failures 5) (monitorTask "t" dialog_page) = Some w /\
      notifications w = [] /\ fetches w = 6%nat /\
      step "t" "v" (EvSettle Rejected) w = Some w' /\
      notifications w' = [connection_lost] /\
      timers w' = [(5000, CbHideNotification)] /\ in_flight w' = O) /\
  (forall r w, checkCount (vars w) <= checkCount (vars (checkStatus_resume r w))).
Proof.
  apply (sixth_failure_terminal_on_fresh_monitor "t" "v" dialog_page 5).
  lia.
Defined.

(** C5, counterexample: after five transport failures in a row on a fresh
    monitor nothing has been shown; a retry is armed, and when it fires the
    sixth status request goes out. *)
Lemma fifth_failure_arms_sixth_request :
  exists w w',
    run "t" "v" (failures 4 ++ [EvSettle Rejected]) (monitorTask "t" dialog_page)
      = Some w /\
    notifications w = [] /\ timers w = [(3000, CbCheckStatus)] /\
    fetches w = 5%nat /\
    step "t" "v" (EvTimer 0) w = Some w' /\ fetches w' = 6%nat.
Proof.
  eexists. eexists.
  split; [ vm_compute; reflexivity | ].
  split; [ vm_compute; reflexivity | ].
  split; [ vm_compute; reflexivity | ].
  split; [ vm_compute; reflexivity | ].
  split; vm_compute; reflexivity.
Qed.

(** C5, as amended: starting from a fresh monitor, five transport failures
    in a row yield no outcome; the fifth arms a 3000 ms retry, which issues a
    sixth status request.  When that request fails as well the connection
    failure is shown, and from then on no further request is ever issued. *)
Theorem errored_after_sixth_failure (taskId videoId : string) (page : Dom) :
  exists w5 w6 w7,
    run taskId videoId (failures 4 ++ [EvSettle Rejected]) (monitorTask taskId page)
      = Some w5 /\
    notifications w5 = [] /\ timers w5 = [(3000, CbCheckStatus)] /\
    fetches w5 = 5%nat /\
    step taskId videoId (EvTimer 0) w5 = Some w6 /\
    fetches w6 = 6%nat /\ notifications w6 = [] /\
    step taskId videoId (EvSettle Rejected) w6 = Some w7 /\
    notifications w7 = [connection_lost] /\
    forall es w, run taskId videoId es w7 = Some w ->
                 fetches w = 6%nat /\ notifications w = [connection_lost].
Proof.
  destruct page as [[hidden|] st bar].
  all: eexists; eexists; eexists.
  all: do 9 (split; [ vm_compute; reflexivity | ]).
  all: intros es w Hrun.
  all: apply idle_run in Hrun; [ | repeat split ].
  all: destruct Hrun as (_ & Hf & _ & Hn); split; [ exact Hf | exact Hn ].
Qed.

(** ** The polling cadence *)

Example schedule_boundaries :
  map schedule [0; 10; 11; 30; 31; 32] = [1000; 1000; 2000; 2000; 3000; 3000].
Proof. reflexivity. Qed.

Lemma schedule_mono (a b : Z) : a <= b -> schedule a <= schedule b.
Proof.
  intros Hab. unfold schedule.
  destruct (Z.leb_spec a 10), (Z.leb_spec b 10), (Z.leb_spec a 30), (Z.leb_spec b 30); lia.
Qed.

Lemma adjust_interval_schedule (interval count : Z) :
  cadence interval count ->
  adjust_interval (count + 1) interval = schedule (count + 1) /\
  interval <= schedule (count + 1).
Proof.
  unfold cadence, adjust_interval, schedule.
  intros [-> | [[-> H] | [-> H]]].
  all: destruct (Z.ltb_spec 10 (count + 1)), (Z.ltb_spec 30 (count + 1)),
         (Z.leb_spec (count + 1) 10), (Z.leb_spec (count + 1) 30);
    cbn; try lia.
Qed.

Lemma cadence_schedule (count : Z) : cadence (schedule count) count.
Proof.
  unfold cadence, schedule.
  destruct (Z.leb_spec count 10), (Z.leb_spec count 30); lia.
Qed.

Lemma cadence_count_up (interval count count' : Z) :
  cadence interval count -> count <= count' -> cadence interval count'.
Proof. unfold cadence. intros [H | [[H1 H2] | [H1 H2]]] Hle; lia. Qed.

Lemma cadence_ctl_catch (c : Control) : ctl_cadence c -> ctl_cadence (ctl_catch c).
Proof.
  unfold ctl_cadence, ctl_catch. intros H.
  destruct (_ <? 5); cbn; [ eapply cadence_count_up; [ exact H | lia ] | exact H ].
Qed.

Lemma cadence_ctl_resume (r : Settled) (c : Control) :
  ctl_cadence c ->
  ctl_cadence (ctl_resume r c) /\ c_interval c <= c_interval (ctl_resume r c).
Proof.
  intros H.
  assert (Hcatch : ctl_cadence (ctl_catch c) /\ c_interval c <= c_interval (ctl_catch c)).
  { split; [ apply cadence_ctl_catch, H | ].
    unfold ctl_catch. destruct (_ <? 5); cbn; lia. }
  assert (Hproc : ctl_cadence (ctl_processing c) /\
                  c_interval c <= c_interval (ctl_processing c)).
  { destruct (adjust_interval_schedule _ _ H) as [Heq Hle].
    unfold ctl_cadence, ctl_processing. cbn. rewrite Heq.
    split; [ apply cadence_schedule | exact Hle ]. }
  destruct r as [data|]; cbn [ctl_resume]; [ | exact Hcatch ].
  repeat match goal with
         | |- context [if ?b then _ else _] => destruct b
         end; try exact Hcatch; try exact Hproc; (split; [ exact H | cbn; lia ]).
Qed.

Lemma cadence_ctl_step (videoId : string) (e : Event) (c c' : Control) :
  ctl_cadence c -> ctl_step videoId e c = Some c' ->
  ctl_cadence c' /\ c_interval c <= c_interval c'.
Proof.
  intros H Hstep. destruct e as [r|i|i]; cbn [ctl_step] in Hstep.
  - destruct (c_in_flight c); [ discriminate | ]. injection Hstep as <-.
    apply (cadence_ctl_resume r (ctl_set_in_flight n c)). exact H.
  - destruct (nth_error (c_timers c) i) as [[delay cb]|]; [ | discriminate ].
    injection Hstep as <-. destruct cb; (split; [ exact H | cbn; lia ]).
  - injection Hstep as <-. split; [ exact H | lia ].
Qed.

Lemma cadence_run (taskId videoId : string) (es : list Event) :
  forall w w',
    ctl_cadence (control w) -> run taskId videoId es w = Some w' ->
    ctl_cadence (control w') /\
    checkInterval (vars w) <= checkInterval (vars w').
Proof.
  induction es as [|e es IH]; intros w w' Hc Hrun; cbn [run] in Hrun.
  - injection Hrun as <-. split; [ exact Hc | lia ].
  - destruct (step taskId videoId e w) as [w1|] eqn:Hstep; [ | discriminate ].
    apply (control_step taskId videoId) in Hstep.
    destruct (cadence_ctl_step videoId e _ _ Hc Hstep) as [Hc1 Hle1].
    destruct (IH w1 w' Hc1 Hrun) as [Hc' Hle'].
    split; [ exact Hc' | ].
    change (c_interval (control w)) with (checkInterval (vars w)) in Hle1.
    change (c_interval (control w1)) with (checkInterval (vars w1)) in Hle1.
    lia.
Qed.

(** One processing report and the poll it arms. *)
Lemma polling_round (taskId videoId : string) (r : Settled) (w : World) :
  is_processing r ->
  timers w = [] -> in_flight w = 1%nat -> has_status_element w = true ->
  checkInterval (vars w) = schedule (checkCount (vars w)) ->
  exists w',
    run taskId videoId [EvSettle r; EvTimer 0] w = Some w' /\
    timers w' = [] /\ in_flight w' = 1%nat /\ has_status_element w' = true /\
    checkCount (vars w') = checkCount (vars w) + 1 /\
    checkInterval (vars w') = schedule (checkCount (vars w')) /\
    poll_delays w' = schedule (checkCount (vars w')) :: poll_delays w.
Proof.
  intros Hr Htm Hfl Hel Hint.
  destruct r as [data|]; [ destruct Hr as [Hs Hp] | contradiction ].
  cbn [run step]. rewrite Hfl.
  set (w1 := checkStatus_resume (Fulfilled data) (answer w)).
  assert (Hc : control w1 = ctl_processing (control (answer w))).
  { unfold w1. rewrite control_checkStatus_resume. cbn [ctl_resume].
    rewrite Hs, Hp.
    change (c_status_element (control (answer w))) with (has_status_element w).
    rewrite Hel. reflexivity. }
  assert (Hadj : adjust_interval (checkCount (vars w) + 1) (checkInterval (vars w))
                 = schedule (checkCount (vars w) + 1)).
  { apply adjust_interval_schedule. rewrite Hint. apply cadence_schedule. }
  unfold ctl_processing in Hc.
  change (c_count (control (answer w))) with (checkCount (vars w)) in Hc.
  change (c_interval (control (answer w))) with (checkInterval (vars w)) in Hc.
  cbv zeta in Hc. rewrite Hadj in Hc.
  pose proof (f_equal c_timers Hc) as Ht1.
  pose proof (f_equal c_in_flight Hc) as Hf1.
  pose proof (f_equal c_count Hc) as Hc1.
  pose proof (f_equal c_interval Hc) as Hi1.
  pose proof (f_equal c_status_element Hc) as He1.
  pose proof (f_equal c_poll_delays Hc) as Hp1.
  cbn [control rearmed c_timers c_in_flight c_count c_interval c_status_element
       c_poll_delays answer timers in_flight] in Ht1, Hf1, Hc1, Hi1, He1, Hp1.
  rewrite Htm in Ht1. cbn [app] in Ht1. rewrite Hfl in Hf1. cbn [pred] in Hf1.
  rewrite Ht1. cbn [nth_error].
  eexists. split; [ reflexivity | ].
  cbn [run_callback checkStatus drop_timer timers in_flight vars dom trace].
  rewrite Ht1, Hf1. cbn [remove_nth].
  unfold has_status_element, poll_delays in *.
  cbn [dom trace poll_delays_of answer] in *.
  rewrite Hc1, Hi1. repeat split; try assumption.
  cbn [checkStatus drop_timer dom]. rewrite He1. exact Hel.
Qed.

Lemma run_app (taskId videoId : string) (es1 es2 : list Event) :
  forall w,
    run taskId videoId (es1 ++ es2) w =
    match run taskId videoId es1 w with
    | Some w1 => run taskId videoId es2 w1
    | None => None
    end.
Proof.
  induction es1 as [|e es1 IH]; intros w; cbn [run app]; [ reflexivity | ].
  destruct (step taskId videoId e w); [ apply IH | reflexivity ].
Qed.

Lemma status_element_ctl_step (videoId : string) (e : Event) (c c' : Control) :
  ctl_step videoId e c = Some c' -> c_status_element c' = c_status_element c.
Proof.
  intros Hstep. destruct e as [r|i|i]; cbn [ctl_step] in Hstep.
  - destruct (c_in_flight c); [ discriminate | ]. injection Hstep as <-.
    destruct r as [data|]; cbn [ctl_resume]; unfold ctl_catch, ctl_processing;
      repeat match goal with
             | |- context [if ?b then _ else _] => destruct b eqn:?
             end; reflexivity.
  - destruct (nth_error (c_timers c) i) as [[delay cb]|]; [ | discriminate ].
    injection Hstep as <-. destruct cb; reflexivity.
  - injection Hstep as <-. reflexivity.
Qed.

Lemma status_element_run (taskId videoId : string) (es : list Event) :
  forall w w',
    run taskId videoId es w = Some w' -> has_status_element w' = has_status_element w.
Proof.
  induction es as [|e es IH]; intros w w' Hrun; cbn [run] in Hrun.
  - injection Hrun as <-. reflexivity.
  - destruct (step taskId videoId e w) as [w1|] eqn:Hstep; [ | discriminate ].
    apply (control_step taskId videoId) in Hstep.
    apply status_element_ctl_step in Hstep.
    change (has_status_element w1 = has_status_element w) in Hstep.
    rewrite (IH w1 w' Hrun). exact Hstep.
Qed.

Lemma polling_run (taskId videoId : string) (reports : list Settled) :
  forall w,
    Forall is_processing reports ->
    timers w = [] -> in_flight w = 1%nat -> has_status_element w = true ->
    checkInterval (vars w) = schedule (checkCount (vars w)) ->
    exists w',
      run taskId videoId (polling reports) w = Some w' /\
      checkCount (vars w') = checkCount (vars w) + Z.of_nat (length reports) /\
      checkInterval (vars w') = schedule (checkCount (vars w')) /\
      rev (poll_delays w') =
        (rev (poll_delays w) ++
         map (fun k => schedule (checkCount (vars w) + Z.of_nat k))
             (seq 1 (length reports)))%list.
Proof.
  induction reports as [|r reports IH]; intros w Hall Htm Hfl Hel Hint.
  - exists w. cbn. rewrite Z.add_0_r, app_nil_r. repeat split. exact Hint.
  - inversion Hall as [|r' rs' Hr Hrest]; subst.
    destruct (polling_round taskId videoId r w Hr Htm Hfl Hel Hint)
      as (w1 & Hrun1 & Htm1 & Hfl1 & Hel1 & Hcount1 & Hint1 & Hpd1).
    destruct (IH w1 Hrest Htm1 Hfl1 Hel1 Hint1)
      as (w' & Hrun' & Hcount' & Hint' & Hpd').
    exists w'. split; [ | split; [ | split; [ exact Hint' | ] ] ].
    + change (polling (r :: reports))
        with ([EvSettle r; EvTimer 0] ++ polling reports)%list.
      rewrite run_app, Hrun1. exact Hrun'.
    + rewrite Hcount', Hcount1. cbn [length]. lia.
    + rewrite Hpd', Hpd1. cbn [rev length]. rewrite <- app_assoc.
      f_equal. cbn [seq map app]. rewrite Hcount1. f_equal.
      rewrite <- (seq_shift (length reports) 1), map_map.
      apply map_ext. intros k. f_equal. lia.
Qed.

Lemma schedule_seq_sorted (n a : nat) :
  StronglySorted Z.le (map (fun k => schedule (Z.of_nat k)) (seq a n)).
Proof.
  revert a. induction n as [|n IH]; intros a; cbn [seq map]; constructor.
  - apply IH.
  - apply Forall_forall. intros x Hx.
    apply in_map_iff in Hx. destruct Hx as (k & <- & Hk).
    apply in_seq in Hk. apply schedule_mono. lia.
Qed.

(** C2: when every response is a processing report (and the page has its
    status line), the k-th report re-arms the poll with exactly the table's
    interval for count k, starting from 1000 at count 0, so the intervals read
    1000 for counts up to 10, 2000 for 11 to 30 and 3000 from 31 on, and never
    decrease.  More generally, in
    any run of the monitor a handled processing report increments the count
    and re-arms with the table's interval for the new count, and no turn of
    the event loop lowers [checkInterval]. *)
Theorem poll_interval_follows_schedule
  (taskId videoId : string) (page : Dom) (reports : list Settled) :
  task_status page <> None ->
  Forall is_processing reports ->
  (exists w,
      run taskId videoId (polling reports) (monitorTask taskId page) = Some w /\
      checkCount (vars w) = Z.of_nat (length reports) /\
      checkInterval (vars w) = schedule (Z.of_nat (length reports)) /\
      rev (poll_delays w) =
        map (fun k => schedule (Z.of_nat k)) (seq 1 (length reports)) /\
      StronglySorted Z.le (rev (poll_delays w))) /\
  (forall es w r w',
      run taskId videoId es (monitorTask taskId page) = Some w ->
      is_processing r ->
      step taskId videoId (EvSettle r) w = Some w' ->
      checkCount (vars w') = checkCount (vars w) + 1 /\
      checkInterval (vars w') = schedule (checkCount (vars w')) /\
      timers w' = (timers w ++ [(schedule (checkCount (vars w')), CbCheckStatus)])%list /\
      checkInterval (vars w) <= checkInterval (vars w')) /\
  (forall es w e w',
      run taskId videoId es (monitorTask taskId page) = Some w ->
      step taskId videoId e w = Some w' ->
      checkInterval (vars w) <= checkInterval (vars w')).
Proof.
  intros Hpage Hall.
  assert (Hel0 : has_status_element (monitorTask taskId page) = true).
  { unfold has_status_element. cbn. destruct (task_status page); [ reflexivity | contradiction ]. }
  assert (Hcad0 : ctl_cadence (control (monitorTask taskId page))) by (left; reflexivity).
  split; [ | split ].
  - destruct (polling_run taskId videoId reports (monitorTask taskId page) Hall)
      as (w & Hrun & Hcount & Hint & Hpd); try reflexivity; [ exact Hel0 | ].
    change (checkCount (vars (monitorTask taskId page))) with 0 in Hcount.
    rewrite Z.add_0_l in Hcount.
    exists w. split; [ exact Hrun | ]. split; [ exact Hcount | ].
    split; [ rewrite <- Hcount; exact Hint | ].
    assert (Hlist : rev (poll_delays w) =
                    map (fun k => schedule (Z.of_nat k)) (seq 1 (length reports))).
    { rewrite Hpd. cbn [monitorTask checkStatus vars trace checkCount poll_delays
                        poll_delays_of rev app]. reflexivity. }
    split; [ exact Hlist | ]. rewrite Hlist. apply schedule_seq_sorted.
  - intros es w r w' Hrun Hr Hstep.
    destruct (cadence_run taskId videoId es _ _ Hcad0 Hrun) as [Hcad _].
    pose proof (status_element_run taskId videoId es _ _ Hrun) as Hel.
    rewrite Hel0 in Hel.
    destruct r as [data|]; [ destruct Hr as [Hs Hp] | contradiction ].
    apply (control_step taskId videoId) in Hstep. cbn [ctl_step] in Hstep.
    destruct (c_in_flight (control w)) as [|n]; [ discriminate | ].
    cbn [ctl_resume] in Hstep. rewrite Hs, Hp in Hstep.
    change (c_status_element (ctl_set_in_flight n (control w)))
      with (has_status_element w) in Hstep.
    rewrite Hel in Hstep. injection Hstep as Ht1 _ Hc1 Hi1 _ _ _ _.
    destruct (adjust_interval_schedule _ _ Hcad) as [Hadj Hle].
    change (c_count (control w)) with (checkCount (vars w)) in Hadj, Hle.
    change (c_interval (control w)) with (checkInterval (vars w)) in Hadj, Hle.
    rewrite Hadj in Ht1, Hi1.
    rewrite <- Hc1, <- Hi1, <- Ht1.
    repeat split; try reflexivity. exact Hle.
  - intros es w e w' Hrun Hstep.
    destruct (cadence_run taskId videoId es _ _ Hcad0 Hrun) as [Hcad _].
    apply (control_step taskId videoId) in Hstep.
    exact (proj2 (cadence_ctl_step videoId e _ _ Hcad Hstep)).
Qed.

Lemma poll_interval_follows_schedule_witness :
  (exists w,
      run "t" "v" (polling twelve_reports) (monitorTask "t" dialog_page) = Some w /\
      checkCount (vars w) = Z.of_nat (length twelve_reports) /\
      checkInterval (vars w) = schedule (Z.of_nat (length twelve_reports)) /\
      rev (poll_delays w) =
        map (fun k => schedule (Z.of_nat k)) (seq 1 (length twelve_reports)) /\
      StronglySorted Z.le (rev (poll_delays w))) /\
  (forall es w r w',
      run "t" "v" es (monitorTask "t" dialog_page) = Some w ->
      is_processing r ->
      step "t" "v" (EvSettle r) w = Some w' ->
      checkCount (vars w') = checkCount (vars w) + 1 /\
      checkInterval (vars w') = schedule (checkCount (vars w')) /\
      timers w' = (timers w ++ [(schedule (checkCount (vars w')), CbCheckStatus)])%list /\
      checkInterval (vars w) <= checkInterval (vars w')) /\
  (forall es w e w',
      run "t" "v" es (monitorTask "t" dialog_page) = Some w ->
      step "t" "v" e w = Some w' ->
      checkInterval (vars w) <= checkInterval (vars w')).
Proof.
  apply (poll_interval_follows_schedule "t" "v" dialog_page twelve_reports).
  - discriminate.
  - apply Forall_forall. intros r Hr. apply repeat_spec in Hr. subst r.
    split; reflexivity.
Defined.

(** The first twelve intervals of that run, spelled out. *)
Example twelve_polls_delays :
  option_map (fun w => rev (poll_delays w))
             (run "t" "v" (polling twelve_reports) (monitorTask "t" dialog_page))
  = Some [1000; 1000; 1000; 1000; 1000; 1000; 1000; 1000; 1000; 1000; 2000; 2000].
Proof. vm_compute. reflexivity. Qed.

(** * Further properties of the monitor *)

(** ** The elapsed-time text *)

Lemma two_digit_seconds (s : Z) :
  0 <= s < 60 -> String.length (padStart2 (num_toString (Some s))) = 2%nat.
Proof.
  intros Hs.
  assert (Hn : exists n, (n < 60)%nat /\ s = Z.of_nat n).
  { exists (Z.to_nat s). split; lia. }
  destruct Hn as (n & Hn & ->).
  do 60 (destruct n as [|n]; [ reflexivity | ]).
  exfalso. lia.
Qed.

(** X1: for a non-negative elapsed time the text is [m分ss秒] where
    60*m + s is the elapsed time rounded down, s lies in 0..59 and is always
    printed with exactly two characters. *)
Theorem timeStr_minutes_seconds (elapsed : Q) :
  (0 <= elapsed)%Q ->
  exists m s,
    Qfloor elapsed = 60 * m + s /\ 0 <= m /\ 0 <= s < 60 /\
    timeStr (Some elapsed) =
      num_toString (Some m) ++ "分" ++ padStart2 (num_toString (Some s)) ++ "秒" /\
    String.length (padStart2 (num_toString (Some s))) = 2%nat.
Proof.
  intros Hpos.
  assert (Hfloor : 0 <= Qfloor elapsed).
  { change 0 with (Qfloor 0). apply Qfloor_resp_le. exact Hpos. }
  exists (Qfloor elapsed / 60), (Z.rem (Qfloor elapsed) 60).
  assert (Hrem : Z.rem (Qfloor elapsed) 60 = Qfloor elapsed mod 60)
    by (apply Z.rem_mod_nonneg; lia).
  pose proof (Z.mod_pos_bound (Qfloor elapsed) 60 ltac:(lia)) as Hbound.
  pose proof (Z.div_mod (Qfloor elapsed) 60 ltac:(lia)) as Hdm.
  pose proof (Z.div_pos (Qfloor elapsed) 60 Hfloor ltac:(lia)) as Hdiv.
  repeat split; try lia.
  apply two_digit_seconds. lia.
Qed.

Lemma timeStr_minutes_seconds_witness :
  exists m s,
    Qfloor (1257#10) = 60 * m + s /\ 0 <= m /\ 0 <= s < 60 /\
    timeStr (Some (1257#10)) =
      num_toString (Some m) ++ "分" ++ padStart2 (num_toString (Some s)) ++ "秒" /\
    String.length (padStart2 (num_toString (Some s))) = 2%nat.
Proof.
  apply (timeStr_minutes_seconds (1257#10)).
  unfold Qle. cbn. lia.
Defined.

(** ** The frame loop settles *)

Lemma Qltb_false_le (x y : Q) : Qltb x y = false -> (y <= x)%Q.
Proof.
  unfold Qltb. rewrite negb_false_iff. apply Qle_bool_iff.
Qed.

Lemma shrink_le (n : nat) :
  forall g g', (g <= g')%Q -> (shrink n g <= shrink n g')%Q.
Proof.
  induction n as [|n IH]; intros g g' Hle; cbn [shrink]; [ exact Hle | ].
  apply IH. lra.
Qed.

Lemma shrink_budget : (shrink 49 (855#10) <= 1#2)%Q.
Proof. apply Qle_bool_imp_le. vm_compute. reflexivity. Qed.

Lemma frame_fires (taskId videoId : string) (w : World) (h : positive) (p : Q) :
  frames w = [(h, p)] ->
  step taskId videoId (EvFrame 0) w = Some (animateProgress p (drop_frame 0 w)) /\
  frames (drop_frame 0 w) = [] /\
  task_progress (dom (drop_frame 0 w)) = task_progress (dom w).
Proof.
  intros Hfr. cbn [step]. rewrite Hfr. cbn [nth_error].
  unfold drop_frame. cbn [frames dom]. rewrite Hfr. repeat split.
Qed.

(** From a single pending frame whose gap shrinks below 0.5 within [n]
    eased steps, at most [n + 1] frame callbacks empty the queue. *)
Lemma frame_loop_settles (taskId videoId : string) (p : Q) (n : nat) :
  forall w h c,
    frames w = [(h, p)] ->
    task_progress (dom w) = Some (Some c) ->
    (shrink n (Qabs (targetWidth p - c)) <= 1#2)%Q ->
    exists k w' c',
      (k <= S n)%nat /\
      run taskId videoId (frame_ticks k) w = Some w' /\
      frames w' = [] /\
      task_progress (dom w') = Some (Some c') /\
      (Qabs (targetWidth p - c') <= 1#2)%Q.
Proof.
  induction n as [|n IH]; intros w h c Hfr Hbar Hgap.
  all: destruct (frame_fires taskId videoId w h p Hfr) as (Hstep & Hfr0 & Hbar0).
  all: rewrite Hbar in Hbar0.
  all: pose proof (animateProgress_unfold p (drop_frame 0 w) (Some c) Hbar0) as Hun.
  all: cbn [currentWidth] in Hun.
  all: destruct (Qltb (Qabs (targetWidth p - c)) (1 # 2)) eqn:Hsnap.
  - (* n = 0, snap *)
    exists 1%nat, (animateProgress p (drop_frame 0 w)), (targetWidth p).
    split; [ lia | ]. cbn [frame_ticks repeat run]. rewrite Hstep.
    split; [ reflexivity | ]. rewrite Hun. cbn [set_width emit with_dom frames dom].
    rewrite Hfr0. repeat split.
    setoid_replace (targetWidth p - targetWidth p)%Q with 0%Q by ring.
    cbn. lra.
  - (* n = 0, last eased step *)
    cbn [shrink] in Hgap.
    pose proof (eased_gap c (targetWidth p)) as Heg.
    assert (Hagain : Qltb (1 # 2) (Qabs (eased c (targetWidth p) - targetWidth p)) = false).
    { apply not_true_iff_false. rewrite Qltb_lt. rewrite Heg. lra. }
    rewrite Hagain in Hun.
    exists 1%nat, (animateProgress p (drop_frame 0 w)), (eased c (targetWidth p)).
    split; [ lia | ]. cbn [frame_ticks repeat run]. rewrite Hstep.
    split; [ reflexivity | ]. rewrite Hun. cbn [set_width emit with_dom frames dom].
    rewrite Hfr0. repeat split.
    rewrite <- Qabs_opp.
    setoid_replace (- (targetWidth p - eased c (targetWidth p)))%Q
      with (eased c (targetWidth p) - targetWidth p)%Q by ring.
    rewrite Heg. lra.
  - (* n + 1, snap *)
    exists 1%nat, (animateProgress p (drop_frame 0 w)), (targetWidth p).
    split; [ lia | ]. cbn [frame_ticks repeat run]. rewrite Hstep.
    split; [ reflexivity | ]. rewrite Hun. cbn [set_width emit with_dom frames dom].
    rewrite Hfr0. repeat split.
    setoid_replace (targetWidth p - targetWidth p)%Q with 0%Q by ring.
    cbn. lra.
  - (* n + 1, eased step *)
    pose proof (eased_gap c (targetWidth p)) as Heg.
    assert (Hflip : (Qabs (targetWidth p - eased c (targetWidth p))
                     == (9#10) * Qabs (targetWidth p - c))%Q).
    { rewrite <- Qabs_opp.
      setoid_replace (- (targetWidth p - eased c (targetWidth p)))%Q
        with (eased c (targetWidth p) - targetWidth p)%Q by ring.
      exact Heg. }
    destruct (Qltb (1 # 2) (Qabs (eased c (targetWidth p) - targetWidth p))) eqn:Hagain.
    + (* another frame is requested *)
      set (w1 := animateProgress p (drop_frame 0 w)) in *.
      assert (Hfr1 : frames w1 = [(next_handle w, p)]).
      { rewrite Hun. cbn [requestAnimationFrame set_width emit with_dom frames
                          next_handle drop_frame].
        rewrite Hfr. reflexivity. }
      assert (Hbar1 : task_progress (dom w1) = Some (Some (eased c (targetWidth p)))).
      { rewrite Hun. reflexivity. }
      assert (Hgap1 : (shrink n (Qabs (targetWidth p - eased c (targetWidth p))) <= 1#2)%Q).
      { cbn [shrink] in Hgap.
        eapply Qle_trans; [ | exact Hgap ].
        apply shrink_le. rewrite Hflip. lra. }
      destruct (IH w1 (next_handle w) _ Hfr1 Hbar1 Hgap1)
        as (k & w' & c' & Hk & Hrun & Hfr' & Hbar' & Hc').
      exists (S k), w', c'. split; [ lia | ].
      cbn [frame_ticks repeat run]. rewrite Hstep.
      repeat split; assumption.
    + exists 1%nat, (animateProgress p (drop_frame 0 w)), (eased c (targetWidth p)).
      split; [ lia | ]. cbn [frame_ticks repeat run]. rewrite Hstep.
      split; [ reflexivity | ]. rewrite Hun. cbn [set_width emit with_dom frames dom].
      rewrite Hfr0. repeat split.
      rewrite Hflip. apply Qltb_false_le in Hagain. rewrite Heg in Hagain. exact Hagain.
Qed.

(** X2: when the animator is started on a bar within 5..100 with no frame
    pending, its frame loop stops by itself after at most 50 frame callbacks,
    and leaves the bar within 0.5 of the target (on it, or up to 0.5 short). *)
Theorem animation_settles_within_50_frames
  (taskId videoId : string) (p : Q) (w : World) (sw : option Q) :
  frames w = [] ->
  task_progress (dom w) = Some sw ->
  percent_ok (currentWidth sw) ->
  exists k w' c',
    (k <= 50)%nat /\
    run taskId videoId (frame_ticks k) (animateProgress p w) = Some w' /\
    frames w' = [] /\
    task_progress (dom w') = Some (Some c') /\
    (Qabs (targetWidth p - c') <= 1#2)%Q.
Proof.
  intros Hfr Hbar [Hlo Hhi].
  pose proof (targetWidth_range p) as [Htlo Hthi].
  pose proof (animateProgress_unfold p w sw Hbar) as Hun.
  pose proof (eased_gap (currentWidth sw) (targetWidth p)) as Heg.
  assert (Hflip : (Qabs (targetWidth p - eased (currentWidth sw) (targetWidth p))
                   == (9#10) * Qabs (targetWidth p - currentWidth sw))%Q).
  { rewrite <- Qabs_opp.
    setoid_replace (- (targetWidth p - eased (currentWidth sw) (targetWidth p)))%Q
      with (eased (currentWidth sw) (targetWidth p) - targetWidth p)%Q by ring.
    exact Heg. }
  destruct (Qltb (Qabs (targetWidth p - currentWidth sw)) (1 # 2)) eqn:Hsnap.
  - exists 0%nat, (animateProgress p w), (targetWidth p).
    split; [ lia | ]. split; [ reflexivity | ].
    rewrite Hun. cbn [set_width emit with_dom frames dom]. repeat split; [ exact Hfr | ].
    setoid_replace (targetWidth p - targetWidth p)%Q with 0%Q by ring.
    cbn. lra.
  - destruct (Qltb (1 # 2)
                   (Qabs (eased (currentWidth sw) (targetWidth p) - targetWidth p)))
      eqn:Hagain.
    + set (w1 := animateProgress p w) in *.
      assert (Hfr1 : frames w1 = [(next_handle w, p)]).
      { rewrite Hun. cbn [requestAnimationFrame set_width emit with_dom frames next_handle].
        rewrite Hfr. reflexivity. }
      assert (Hbar1 : task_progress (dom w1)
                      = Some (Some (eased (currentWidth sw) (targetWidth p)))).
      { rewrite Hun. reflexivity. }
      assert (Hgap0 : (Qabs (targetWidth p - currentWidth sw) <= 95)%Q).
      { apply Qabs_Qle_condition. split; lra. }
      assert (Hgap1 : (shrink 49 (Qabs (targetWidth p
                                        - eased (currentWidth sw) (targetWidth p)))
                       <= 1#2)%Q).
      { eapply Qle_trans; [ | exact shrink_budget ].
        apply shrink_le. rewrite Hflip. lra. }
      destruct (frame_loop_settles taskId videoId p 49 w1 (next_handle w) _
                                   Hfr1 Hbar1 Hgap1)
        as (k & w' & c' & Hk & Hrun & Hfr' & Hbar' & Hc').
      exists k, w', c'. repeat split; assumption.
    + exists 0%nat, (animateProgress p w), (eased (currentWidth sw) (targetWidth p)).
      split; [ lia | ]. split; [ reflexivity | ].
      rewrite Hun. cbn [set_width emit with_dom frames dom].
      repeat split; [ exact Hfr | ].
      rewrite Hflip. apply Qltb_false_le in Hagain. rewrite Heg in Hagain. exact Hagain.
Qed.

Lemma animation_settles_within_50_frames_witness :
  exists k w' c',
    (k <= 50)%nat /\
    run "t" "v" (frame_ticks k) (animateProgress 1 (monitorTask "t" dialog_page))
      = Some w' /\
    frames w' = [] /\
    task_progress (dom w') = Some (Some c') /\
    (Qabs (targetWidth 1 - c') <= 1#2)%Q.
Proof.
  apply (animation_settles_within_50_frames "t" "v" 1 (monitorTask "t" dialog_page)
           (Some 5%Q)).
  - reflexivity.
  - reflexivity.
  - unfold percent_ok. cbn. split; lra.
Defined.

(** ** Navigation *)

Lemma navigations_animateProgress (p : Q) (w : World) :
  navigations (animateProgress p w) = navigations w.
Proof.
  unfold animateProgress.
  destruct (task_progress (dom w)); [ | reflexivity ].
  destruct (Qltb _ _); [ reflexivity | ].
  destruct (Qltb _ _); reflexivity.
Qed.

Lemma navigations_update_progress (p : Q) (w : World) :
  navigations (update_progress p w) = navigations w.
Proof.
  unfold update_progress. destruct (_ || _); [ | reflexivity ].
  change (navigations (set_lastProgress p ?x)) with (navigations x).
  rewrite navigations_animateProgress.
  destruct (animationFrame (vars w)); reflexivity.
Qed.

Lemma navigations_set_status (text : string) (w : World) :
  navigations (completion_world (set_status text w)) = navigations w.
Proof.
  unfold set_status. destruct (task_status (dom w)); reflexivity.
Qed.

Lemma navigations_hideTaskModal (w : World) :
  navigations (hideTaskModal w) = navigations w.
Proof.
  unfold hideTaskModal. destruct (task_modal (dom w)); reflexivity.
Qed.

Lemma navigations_catch_block (w : World) :
  navigations (catch_block w) = navigations w.
Proof.
  unfold catch_block. destruct (_ <? 5); [ reflexivity | ].
  change (navigations (showNotification ?a ?b ?c ?x)) with (navigations x).
  rewrite navigations_hideTaskModal. reflexivity.
Qed.

Lemma navigations_try_block (data : TaskData) (w : World) :
  navigations (completion_world (try_block data w)) = navigations w.
Proof.
  unfold try_block.
  destruct (success data); [ | reflexivity ].
  destruct (status_is data "processing").
  { unfold on_processing.
    match goal with
    | |- context [set_status ?t ?x] =>
        pose proof (navigations_set_status t x) as Hs;
        destruct (set_status t x) as [w3|w3]
    end; cbn [completion_world] in *.
    - change (navigations (setTimeout ?cb ?d (set_check ?i ?c w3))) with (navigations w3).
      rewrite Hs, navigations_update_progress. reflexivity.
    - rewrite Hs, navigations_update_progress. reflexivity. }
  destruct (status_is data "completed").
  { unfold on_completed.
    pose proof (navigations_set_status "处理完成，即将跳转到详情页..." (animateProgress 1 w)) as Hs.
    destruct (set_status _ _) as [w1|w1]; cbn [completion_world] in *.
    - change (navigations (setTimeout ?cb ?d w1)) with (navigations w1).
      rewrite Hs. apply navigations_animateProgress.
    - rewrite Hs. apply navigations_animateProgress. }
  destruct (status_is data "failed"); [ | reflexivity ].
  unfold on_failed.
  pose proof (navigations_set_status "转录失败，请稍后重试..." w) as Hs.
  destruct (set_status _ _) as [w1|w1]; cbn [completion_world] in *; exact Hs.
Qed.

Lemma navigations_checkStatus_resume (r : Settled) (w : World) :
  navigations (checkStatus_resume r w) = navigations w.
Proof.
  destruct r as [data|]; cbn [checkStatus_resume]; [ | apply navigations_catch_block ].
  pose proof (navigations_try_block data w) as Ht.
  destruct (try_block data w) as [w1|w1]; cbn [completion_world] in Ht.
  - exact Ht.
  - rewrite navigations_catch_block. exact Ht.
Qed.

Lemma navigations_run_callback (taskId videoId : string) (cb : Callback) (w : World) :
  navigations (run_callback taskId videoId cb w) = (navigates cb ++ navigations w)%list.
Proof.
  destruct cb; cbn [run_callback navigates app]; try reflexivity.
  - change (navigations (setTimeout ?cb ?d (showNotification ?a ?b ?c ?x)))
      with (navigations x).
    apply navigations_hideTaskModal.
  - change (navigations (showNotification ?a ?b ?c ?x)) with (navigations x).
    apply navigations_hideTaskModal.
  - change (navigations (showNotification ?a ?b ?c ?x)) with (navigations x).
    apply navigations_hideTaskModal.
Qed.

Section NavigationInvariant.

Variables taskId videoId : string.

Lemma Forall_remove_nth {A} (P : A -> Prop) (i : nat) :
  forall l : list A, Forall P l -> Forall P (remove_nth i l).
Proof.
  induction i as [|i IH]; intros [|x l] H; cbn; try constructor;
    inversion H; subst; auto.
Qed.

Lemma navigation_ok_step (e : Event) (w w' : World) :
  (tokens (control w) <= 1)%nat ->
  navigation_ok videoId w ->
  step taskId videoId e w = Some w' ->
  navigation_ok videoId w'.
Proof.
  intros Htok (Hnav & Htm & Hcount) Hstep.
  pose proof (control_step taskId videoId e w w' Hstep) as Hctl.
  unfold tokens in Htok. cbn [control c_in_flight c_timers c_notifications] in Htok.
  destruct e as [r|i|i]; cbn [step] in Hstep.
  - (* a response: no navigation, no navigation timer, and a notification
       only when none was shown before *)
    destruct (in_flight w) as [|n] eqn:Hfl; [ discriminate | ].
    injection Hstep as <-.
    assert (Hnavs : navigations (checkStatus_resume r (answer w)) = navigations w)
      by (rewrite navigations_checkStatus_resume; reflexivity).
    cbn [ctl_step control c_in_flight] in Hctl. rewrite Hfl in Hctl.
    injection Hctl as Hctl.
    assert (Hnone : notifications w = []).
    { destruct (notifications w); [ reflexivity | cbn in Htok; lia ]. }
    assert (Hzero : (length (navigations w) + count_if is_navigate_timer (timers w) = 0)%nat).
    { destruct Hcount as [H0 | [_ H1]]; [ exact H0 | ].
      rewrite Hnone in H1. discriminate. }
    set (w1 := checkStatus_resume r (answer w)) in *.
    assert (Htimers : timers w1 = timers w \/
                      exists d cb, timers w1 = (timers w ++ [(d, cb)])%list /\
                                   is_navigate_timer (d, cb) = false).
    { pose proof (f_equal c_timers Hctl) as Ht. cbn [control c_timers] in Ht.
      rewrite <- Ht. clear Ht Hctl.
      destruct r as [data|]; cbn [ctl_resume]; unfold ctl_catch, ctl_processing;
        repeat match goal with
               | |- context [if ?b then _ else _] => destruct b
               end;
        cbn [rearmed deferred notified c_timers ctl_set_in_flight control timers];
        try (left; reflexivity);
        right; eexists; eexists; split; reflexivity. }
    split; [ rewrite Hnavs; exact Hnav | ].
    split.
    { destruct Htimers as [-> | (d & cb & -> & Hcb)]; [ exact Htm | ].
      apply Forall_app. split; [ exact Htm | ].
      constructor; [ | constructor ].
      intros path Hp. cbn [snd] in Hp. subst cb. discriminate Hcb. }
    left. rewrite Hnavs.
    destruct Htimers as [-> | (d & cb & -> & Hcb)]; [ exact Hzero | ].
    rewrite count_if_app, count_if_single, Hcb. lia.
  - destruct (nth_error (timers w) i) as [[delay cb]|] eqn:Hnth; [ | discriminate ].
    injection Hstep as <-.
    pose proof (navigations_run_callback taskId videoId cb (drop_timer i w)) as Hnavs.
    change (navigations (drop_timer i w)) with (navigations w) in Hnavs.
    cbn [ctl_step control c_timers] in Hctl. rewrite Hnth in Hctl.
    injection Hctl as Hctl.
    pose proof (f_equal c_timers Hctl) as Ht.
    pose proof (f_equal c_notifications Hctl) as Hn.
    cbn [control c_timers c_notifications] in Ht, Hn.
    pose proof (count_if_remove_nth is_navigate_timer i _ _ Hnth) as Hcnt.
    pose proof (count_if_remove_nth is_outcome_timer i _ _ Hnth) as Hout.
    pose proof (Forall_remove_nth _ i _ Htm) as Htm'.
    assert (Hcb : forall path, cb = CbNavigate path -> path = "transcription/" ++ videoId).
    { intros path ->. apply nth_error_In in Hnth.
      rewrite Forall_forall in Htm. exact (Htm _ Hnth path eq_refl). }
    unfold is_navigate_timer at 2 in Hcnt. unfold is_outcome_timer at 2 in Hout.
    cbn [snd] in Hcnt, Hout.
    set (w1 := run_callback taskId videoId cb (drop_timer i w)) in *.
    unfold navigation_ok.
    rewrite Hnavs. rewrite <- Hn, <- Ht. clear Hn Ht Hctl Hnavs.
    destruct cb; cbn [navigates app ctl_callback ctl_set_timers deferred notified
                      c_timers c_notifications control length].
    + (* checkStatus *)
      repeat split; try assumption.
      destruct Hcount as [H0 | [H1 Hn1]]; [ left; lia | right; split; [ lia | exact Hn1 ] ].
    + (* the completed closure: shows the notice and arms the navigation *)
      assert (Hnone : notifications w = []).
      { destruct (notifications w); [ reflexivity | cbn in Htok; lia ]. }
      assert (Hzero : (length (navigations w)
                       + count_if is_navigate_timer (timers w) = 0)%nat).
      { destruct Hcount as [H0 | [_ H1]]; [ exact H0 | ].
        rewrite Hnone in H1. discriminate. }
      split; [ exact Hnav | ]. split.
      { apply Forall_app. split.
        - apply Forall_app. split; [ exact Htm' | ].
          constructor; [ | constructor ]. intros path Hp. discriminate Hp.
        - constructor; [ | constructor ]. intros path Hp. cbn [snd] in Hp.
          injection Hp as <-. reflexivity. }
      right. split.
      * rewrite !count_if_app, !count_if_single. cbn [is_navigate_timer snd]. lia.
      * unfold notifications in Hnone. cbn [control c_notifications notifications] in *.
        unfold notifications. rewrite Hnone. reflexivity.
    + (* the navigation itself *)
      split; [ constructor; [ apply Hcb; reflexivity | exact Hnav ] | ].
      split; [ exact Htm' | ].
      destruct Hcount as [H0 | [H1 Hn1]]; [ exfalso; lia | ].
      right. split; [ cbn [length]; lia | exact Hn1 ].
    + (* the failed closure *)
      assert (Hzero : (length (navigations w)
                       + count_if is_navigate_timer (timers w) = 0)%nat).
      { destruct Hcount as [H0 | [_ H1]]; [ exact H0 | ].
        rewrite H1 in Htok. cbn in Htok. lia. }
      split; [ exact Hnav | ]. split.
      { apply Forall_app. split; [ exact Htm' | ].
        constructor; [ | constructor ]. intros path Hp. discriminate Hp. }
      left. rewrite count_if_app, count_if_single. cbn [is_navigate_timer snd]. lia.
    + (* the success:false closure *)
      assert (Hzero : (length (navigations w)
                       + count_if is_navigate_timer (timers w) = 0)%nat).
      { destruct Hcount as [H0 | [_ H1]]; [ exact H0 | ].
        rewrite H1 in Htok. cbn in Htok. lia. }
      split; [ exact Hnav | ]. split.
      { apply Forall_app. split; [ exact Htm' | ].
        constructor; [ | constructor ]. intros path Hp. discriminate Hp. }
      left. rewrite count_if_app, count_if_single. cbn [is_navigate_timer snd]. lia.
    + (* hideNotification *)
      repeat split; try assumption.
      destruct Hcount as [H0 | [H1 Hn1]]; [ left; lia | right; split; [ lia | exact Hn1 ] ].
  - destruct (nth_error (frames w) i) as [[h p]|]; [ | discriminate ].
    injection Hstep as <-.
    pose proof (navigations_animateProgress p (drop_frame i w)) as Hnavs.
    change (navigations (drop_frame i w)) with (navigations w) in Hnavs.
    cbn [ctl_step] in Hctl. injection Hctl as Ht _ _ _ _ Hn _ _.
    unfold navigation_ok. rewrite Hnavs, <- Ht, <- Hn.
    repeat split; assumption.
Qed.

Lemma navigation_ok_run (es : list Event) :
  forall w w',
    (tokens (control w) <= 1)%nat ->
    navigation_ok videoId w ->
    run taskId videoId es w = Some w' ->
    navigation_ok videoId w'.
Proof.
  induction es as [|e es IH]; intros w w' Htok Hok Hrun; cbn [run] in Hrun.
  - injection Hrun as <-. exact Hok.
  - destruct (step taskId videoId e w) as [w1|] eqn:Hstep; [ | discriminate ].
    apply (IH w1 w'); [ | eapply navigation_ok_step; eassumption | exact Hrun ].
    apply (control_step taskId videoId) in Hstep.
    apply (tokens_ctl_step videoId) in Hstep. lia.
Qed.

End NavigationInvariant.

(** X3: in every run the monitor navigates at most once, only to
    [transcription/{videoId}], and only after the completion notice has been
    shown; a run that ends in a failure notice never navigates. *)
Theorem navigates_once_after_completion
  (taskId videoId : string) (page : Dom) (es : list Event) (w : World) :
  run taskId videoId es (monitorTask taskId page) = Some w ->
  navigations w = [] \/
  (navigations w = ["transcription/" ++ videoId] /\
   notifications w = [completion_notice]).
Proof.
  intros Hrun.
  assert (Hok : navigation_ok videoId w).
  { apply (navigation_ok_run taskId videoId es (monitorTask taskId page) w).
    - rewrite tokens_monitorTask. lia.
    - split; [ constructor | split; [ constructor | left; reflexivity ] ].
    - exact Hrun. }
  destruct Hok as (Hnav & _ & Hcount).
  destruct (navigations w) as [|path rest]; [ left; reflexivity | right ].
  destruct Hcount as [H0 | [H1 Hn]]; [ cbn in H0; lia | ].
  destruct rest; [ | cbn in H1; lia ].
  inversion Hnav; subst. split; [ reflexivity | exact Hn ].
Qed.

Lemma navigates_once_after_completion_witness :
  exists w,
    run "t" "v" [EvSettle (Fulfilled completed_report); EvTimer 0; EvTimer 1]
        (monitorTask "t" dialog_page) = Some w /\
    navigations w = ["transcription/v"] /\
    (navigations w = [] \/
     (navigations w = ["transcription/" ++ "v"] /\
      notifications w = [completion_notice])).
Proof.
  eexists. split; [ vm_compute; reflexivity | ].
  split; [ vm_compute; reflexivity | ].
  apply (navigates_once_after_completion "t" "v" dialog_page
           [EvSettle (Fulfilled completed_report); EvTimer 0; EvTimer 1]).
  vm_compute. reflexivity.
Defined.

(** ** Transport failures over a whole run *)

Lemma failure_credit_step (videoId : string) (e : Event) (c c' : Control) :
  (tokens c <= 1)%nat ->
  ctl_step videoId e c = Some c' ->
  (rejected_now e + failure_credit c' <= failure_credit c)%nat.
Proof.
  intros Htok Hstep. unfold tokens in Htok.
  destruct e as [r|i|i]; cbn [ctl_step] in Hstep.
  - destruct (c_in_flight c) as [|n] eqn:Hfl; [ discriminate | ].
    injection Hstep as <-.
    assert (Hn : n = O) by lia. subst n.
    assert (Hp : count_if is_poll_timer (c_timers c) = O) by lia.
    unfold failure_credit at 2. rewrite Hfl. cbn [Nat.add].
    assert (Hcatch : (1 + failure_credit (ctl_catch (ctl_set_in_flight 0 c))
                      <= S (Z.to_nat (5 - c_count c)))%nat).
    { unfold ctl_catch. cbn [ctl_set_in_flight c_count].
      destruct (Z.ltb_spec (c_count c) 5) as [Hlt | Hge].
      - unfold failure_credit.
        cbn [rearmed ctl_set_in_flight c_in_flight c_timers c_count].
        rewrite count_if_app, count_if_single, Hp. cbn [is_poll_timer snd Nat.add].
        lia.
      - unfold failure_credit.
        cbn [notified ctl_set_in_flight c_in_flight c_timers c_count].
        rewrite count_if_app, count_if_single, Hp. cbn [is_poll_timer snd Nat.add].
        lia. }
    assert (Hother : forall c1,
               c_count c <= c_count c1 ->
               (failure_credit c1 <= S (Z.to_nat (5 - c_count c)))%nat).
    { intros c1 Hle. unfold failure_credit.
      destruct (c_in_flight c1 + count_if is_poll_timer (c_timers c1))%nat; lia. }
    destruct r as [data|]; cbn [rejected_now]; [ | exact Hcatch ].
    cbn [Nat.add]. apply Hother.
    apply (count_ctl_resume (Fulfilled data) (ctl_set_in_flight 0 c)).
  - destruct (nth_error (c_timers c) i) as [[delay cb]|] eqn:Hnth; [ | discriminate ].
    injection Hstep as <-. cbn [rejected_now Nat.add].
    pose proof (count_if_remove_nth is_poll_timer i _ _ Hnth) as Hp.
    unfold is_poll_timer at 2 in Hp. cbn [snd] in Hp.
    unfold failure_credit.
    destruct cb; cbn [ctl_callback ctl_set_timers deferred notified
                      c_in_flight c_timers c_count];
      rewrite ?count_if_app, ?count_if_single; cbn [is_poll_timer snd];
      rewrite ?Nat.add_0_r;
      try (rewrite Hp; cbn [Nat.add];
           destruct (c_in_flight c + count_if is_poll_timer (remove_nth i (c_timers c)))%nat;
           lia).
    rewrite Hp.
    replace (S (c_in_flight c) + count_if is_poll_timer (remove_nth i (c_timers c)))%nat
      with (c_in_flight c + (1 + count_if is_poll_timer (remove_nth i (c_timers c))))%nat
      by lia.
    lia.
  - injection Hstep as <-. cbn [rejected_now]. lia.
Qed.

Lemma failure_credit_run (taskId videoId : string) (es : list Event) :
  forall w w',
    (tokens (control w) <= 1)%nat ->
    run taskId videoId es w = Some w' ->
    (rejections es + failure_credit (control w') <= failure_credit (control w))%nat.
Proof.
  induction es as [|e es IH]; intros w w' Htok Hrun; cbn [run] in Hrun.
  - injection Hrun as <-. cbn [rejections]. lia.
  - destruct (step taskId videoId e w) as [w1|] eqn:Hstep; [ | discriminate ].
    apply (control_step taskId videoId) in Hstep.
    pose proof (failure_credit_step videoId e _ _ Htok Hstep) as Hone.
    pose proof (tokens_ctl_step videoId e _ _ Hstep) as Htok1.
    assert (Htok1' : (tokens (control w1) <= 1)%nat) by lia.
    specialize (IH w1 w' Htok1' Hrun).
    assert (Hsplit : rejections (e :: es) = (rejected_now e + rejections es)%nat).
    { destruct e as [[data|]|i|i]; reflexivity. }
    rewrite Hsplit. lia.
Qed.

(** X4: over a whole run, however successes and failures are interleaved,
    at most six status requests can fail in transport: each retried failure
    uses up one of the five counts below the limit, and the failure after
    that ends the polling. *)
Theorem at_most_six_transport_failures
  (taskId videoId : string) (page : Dom) (es : list Event) (w : World) :
  run taskId videoId es (monitorTask taskId page) = Some w ->
  (rejections es <= 6)%nat.
Proof.
  intros Hrun.
  assert (Htok : (tokens (control (monitorTask taskId page)) <= 1)%nat)
    by (rewrite tokens_monitorTask; lia).
  pose proof (failure_credit_run taskId videoId es _ _ Htok Hrun) as H.
  change (failure_credit (control (monitorTask taskId page))) with 6%nat in H.
  lia.
Qed.

Lemma at_most_six_transport_failures_witness :
  exists w,
    run "t" "v" (failures 5 ++ [EvSettle Rejected]) (monitorTask "t" dialog_page)
      = Some w /\
    rejections (failures 5 ++ [EvSettle Rejected]) = 6%nat /\
    (rejections (failures 5 ++ [EvSettle Rejected]) <= 6)%nat.
Proof.
  eexists. split; [ vm_compute; reflexivity | ].
  split; [ reflexivity | ].
  eapply (at_most_six_transport_failures "t" "v" dialog_page
            (failures 5 ++ [EvSettle Rejected])).
  vm_compute. reflexivity.
Defined.

(** ** Requests, re-arms and the counter *)

Lemma accounted_rearmed (delay count interval : Z) (c : Control) :
  accounted c -> count = c_count c + 1 ->
  accounted (rearmed delay count interval c).
Proof.
  intros [Hc Hf] ->. unfold accounted.
  cbn [rearmed c_count c_poll_delays c_fetches c_timers length].
  rewrite count_if_app, count_if_single. cbn [is_poll_timer snd]. split; lia.
Qed.

Lemma accounted_deferred (delay : Z) (cb : Callback) (c : Control) :
  accounted c -> is_poll_timer (delay, cb) = false ->
  accounted (deferred delay cb c).
Proof.
  intros [Hc Hf] Hcb. unfold accounted.
  cbn [deferred c_count c_poll_delays c_fetches c_timers].
  rewrite count_if_app, count_if_single, Hcb. split; lia.
Qed.

Lemma accounted_notified (title message type : string) (c : Control) :
  accounted c -> accounted (notified title message type c).
Proof.
  intros [Hc Hf]. unfold accounted.
  cbn [notified c_count c_poll_delays c_fetches c_timers].
  rewrite count_if_app, count_if_single. cbn [is_poll_timer snd]. split; lia.
Qed.

Lemma accounted_ctl_resume (r : Settled) (c : Control) :
  accounted c -> accounted (ctl_resume r c).
Proof.
  intros H.
  assert (Hcatch : accounted (ctl_catch c)).
  { unfold ctl_catch. destruct (_ <? 5);
      [ apply accounted_rearmed; [ exact H | reflexivity ]
      | apply accounted_notified; exact H ]. }
  destruct r as [data|]; cbn [ctl_resume]; [ | exact Hcatch ].
  repeat match goal with
         | |- context [if ?b then _ else _] => destruct b
         end;
    try exact Hcatch; try exact H;
    try (apply accounted_deferred; [ exact H | reflexivity ]).
  unfold ctl_processing. apply accounted_rearmed; [ exact H | reflexivity ].
Qed.

Lemma accounted_ctl_step (videoId : string) (e : Event) (c c' : Control) :
  accounted c -> ctl_step videoId e c = Some c' -> accounted c'.
Proof.
  intros H Hstep. destruct e as [r|i|i]; cbn [ctl_step] in Hstep.
  - destruct (c_in_flight c) as [|n]; [ discriminate | ]. injection Hstep as <-.
    apply accounted_ctl_resume. exact H.
  - destruct (nth_error (c_timers c) i) as [[delay cb]|] eqn:Hnth; [ | discriminate ].
    injection Hstep as <-.
    pose proof (count_if_remove_nth is_poll_timer i _ _ Hnth) as Hp.
    unfold is_poll_timer at 2 in Hp. cbn [snd] in Hp.
    assert (Hbase : accounted (ctl_set_timers (remove_nth i (c_timers c)) c) \/
                    cb = CbCheckStatus).
    { destruct cb; try (right; reflexivity); left;
        destruct H as [Hc Hf]; unfold accounted;
        cbn [ctl_set_timers c_count c_poll_delays c_fetches c_timers]; split; lia. }
    destruct cb; cbn [ctl_callback];
      try (destruct Hbase as [Hb | Hb]; [ | discriminate Hb ]).
    + destruct H as [Hc Hf]. unfold accounted.
      cbn [ctl_set_timers c_count c_poll_delays c_fetches c_timers]. split; lia.
    + apply accounted_deferred; [ apply accounted_notified; exact Hb | reflexivity ].
    + exact Hb.
    + apply accounted_notified. exact Hb.
    + apply accounted_notified. exact Hb.
    + exact Hb.
  - injection Hstep as <-. exact H.
Qed.

Lemma accounted_run (taskId videoId : string) (es : list Event) :
  forall w w',
    accounted (control w) -> run taskId videoId es w = Some w' ->
    accounted (control w').
Proof.
  induction es as [|e es IH]; intros w w' H Hrun; cbn [run] in Hrun.
  - injection Hrun as <-. exact H.
  - destruct (step taskId videoId e w) as [w1|] eqn:Hstep; [ | discriminate ].
    apply (control_step taskId videoId) in Hstep.
    apply (IH w1 w'); [ | exact Hrun ].
    eapply accounted_ctl_step; eassumption.
Qed.

(** X5: in every run [checkCount] is exactly the number of times the poll
    was re-armed (by a processing report or by a retried failure), and the
    status requests issued are the first one plus one per re-arm whose timer
    has fired; so never more than [checkCount + 1] requests go out. *)
Theorem requests_follow_the_counter
  (taskId videoId : string) (page : Dom) (es : list Event) (w : World) :
  run taskId videoId es (monitorTask taskId page) = Some w ->
  checkCount (vars w) = Z.of_nat (length (poll_delays w)) /\
  (fetches w + count_if is_poll_timer (timers w) = 1 + length (poll_delays w))%nat /\
  Z.of_nat (fetches w) <= checkCount (vars w) + 1.
Proof.
  intros Hrun.
  assert (H0 : accounted (control (monitorTask taskId page))) by (split; reflexivity).
  destruct (accounted_run taskId videoId es _ _ H0 Hrun) as [Hc Hf].
  cbn [control c_count c_poll_delays c_fetches c_timers] in Hc, Hf.
  repeat split; [ exact Hc | exact Hf | lia ].
Qed.

Lemma requests_follow_the_counter_witness :
  exists w,
    run "t" "v" (failures 2 ++ polling five_reports) (monitorTask "t" dialog_page)
      = Some w /\
    checkCount (vars w) = Z.of_nat (length (poll_delays w)) /\
    (fetches w + count_if is_poll_timer (timers w) = 1 + length (poll_delays w))%nat /\
    Z.of_nat (fetches w) <= checkCount (vars w) + 1.
Proof.
  eexists. split; [ vm_compute; reflexivity | ].
  apply (requests_follow_the_counter "t" "v" dialog_page
           (failures 2 ++ polling five_reports)).
  vm_compute. reflexivity.
Defined.

(** * Properties of the pagination *)

(** [maxPage] is the least number of pages of [limit] entries that hold
    [total] results. *)
Lemma maxPage_spec (pg : Pagination) :
  0 < limit pg ->
  (maxPage pg - 1) * limit pg < total pg <= maxPage pg * limit pg.
Proof.
  intros Hlim. unfold maxPage.
  set (x := (inject_Z (total pg) / inject_Z (limit pg))%Q).
  assert (Hl : (0 < inject_Z (limit pg))%Q).
  { change 0%Q with (inject_Z 0). rewrite <- Zlt_Qlt. exact Hlim. }
  assert (Hx : (x * inject_Z (limit pg) == inject_Z (total pg))%Q).
  { unfold x. field. intros H0. rewrite H0 in Hl. apply (Qlt_irrefl 0). exact Hl. }
  pose proof (Qle_ceiling x) as Hup.
  pose proof (Qceiling_lt x) as Hlow.
  split.
  - apply (Qmult_lt_compat_r _ _ _ Hl) in Hlow.
    rewrite Hx in Hlow.
    rewrite <- inject_Z_mult in Hlow.
    rewrite <- Zlt_Qlt in Hlow. exact Hlow.
  - apply (Qmult_le_compat_r _ _ (inject_Z (limit pg))) in Hup; [ | apply Qlt_le_weak, Hl ].
    rewrite Hx in Hup.
    rewrite <- inject_Z_mult in Hup.
    rewrite <- Zle_Qle in Hup. exact Hup.
Qed.

Lemma page_window_bounds (pg : Pagination) :
  on_a_page pg ->
  let startPage := fst (page_window pg) in
  let endPage := snd (page_window pg) in
  1 <= startPage /\ startPage <= page pg <= endPage /\ endPage <= maxPage pg /\
  endPage - startPage + 1 = Z.min 5 (maxPage pg) /\
  page pg - 2 <= startPage + 2 /\ endPage <= page pg + 4.
Proof.
  unfold on_a_page, page_window. intros [Hlo Hhi]. cbv zeta. cbn [fst snd].
  destruct (Z.ltb_spec (Z.min (maxPage pg) (Z.max 1 (page pg - 2) + 4)
                        - Z.max 1 (page pg - 2)) 4);
    destruct (Z.ltb_spec 1 (Z.max 1 (page pg - 2))); cbn [andb fst snd]; lia.
Qed.

(** X6: for a current page that exists, the window of numbered buttons
    starts at 1 or later, ends at the last page or earlier, contains the
    current page, and holds five pages, or all of them when there are fewer
    than five. *)
Theorem page_window_holds_current_page (pg : Pagination) :
  1 <= page pg <= maxPage pg ->
  let startPage := fst (page_window pg) in
  let endPage := snd (page_window pg) in
  1 <= startPage /\ startPage <= page pg <= endPage /\ endPage <= maxPage pg /\
  endPage - startPage + 1 = Z.min 5 (maxPage pg).
Proof.
  intros H. pose proof (page_window_bounds pg H) as Hb. cbv zeta in *.
  repeat split; lia.
Qed.

Lemma page_window_holds_current_page_witness :
  let pg := mkPagination 9 10 95 in
  let startPage := fst (page_window pg) in
  let endPage := snd (page_window pg) in
  1 <= startPage /\ startPage <= page pg <= endPage /\ endPage <= maxPage pg /\
  endPage - startPage + 1 = Z.min 5 (maxPage pg).
Proof.
  apply (page_window_holds_current_page (mkPagination 9 10 95)).
  vm_compute. split; discriminate.
Defined.

Lemma page_items_strip (pg : Pagination) :
  page_items pg =
  strip (page pg) (fst (page_window pg)) (snd (page_window pg)) (maxPage pg).
Proof. reflexivity. Qed.

Lemma gaps_marked_count_up (p : Z) (n : nat) :
  forall a rest,
    gaps_marked (a + Z.of_nat n - 1) rest ->
    gaps_marked (a - 1) (map (fun i => PageButton i (p =? i)) (count_up a n) ++ rest).
Proof.
  induction n as [|n IH]; intros a rest Hrest.
  - cbn [count_up map app].
    replace (a - 1) with (a + Z.of_nat 0 - 1) by lia. exact Hrest.
  - cbn [count_up map app gaps_marked]. split; [ lia | ].
    replace a with (a + 1 - 1) at 1 by lia.
    apply IH.
    replace (a + 1 + Z.of_nat n - 1) with (a + Z.of_nat (S n) - 1) by lia.
    exact Hrest.
Qed.

Lemma last_button_count_up (p : Z) (n : nat) :
  forall a l rest,
    l = a - 1 ->
    last_button l (map (fun i => PageButton i (p =? i)) (count_up a n) ++ rest) =
    last_button (a + Z.of_nat n - 1) rest.
Proof.
  induction n as [|n IH]; intros a l rest Hl.
  - cbn [count_up map app]. f_equal. lia.
  - cbn [count_up map app last_button].
    rewrite (IH (a + 1) a rest) by lia. f_equal. lia.
Qed.

Lemma highlighted_count_up (p : Z) (n : nat) :
  forall a,
    highlighted_numbers (map (fun i => PageButton i (p =? i)) (count_up a n)) =
    if (a <=? p) && (p <? a + Z.of_nat n) then [p] else [].
Proof.
  induction n as [|n IH]; intros a.
  - cbn [count_up map highlighted_numbers].
    destruct (Z.leb_spec a p), (Z.ltb_spec p (a + Z.of_nat 0)); cbn [andb];
      try reflexivity; lia.
  - cbn [count_up map highlighted_numbers]. rewrite IH.
    destruct (Z.eqb_spec p a) as [-> | Hne].
    + destruct (Z.leb_spec (a + 1) a); [ lia | ]. cbn [andb].
      destruct (Z.leb_spec a a), (Z.ltb_spec a (a + Z.of_nat (S n))); cbn [andb];
        try reflexivity; lia.
    + destruct (Z.leb_spec (a + 1) p), (Z.ltb_spec p (a + 1 + Z.of_nat n)),
        (Z.leb_spec a p), (Z.ltb_spec p (a + Z.of_nat (S n)));
        cbn [andb]; try reflexivity; lia.
Qed.

Lemma highlighted_numbers_app (l1 l2 : list PageItem) :
  highlighted_numbers (l1 ++ l2) = (highlighted_numbers l1 ++ highlighted_numbers l2)%list.
Proof.
  induction l1 as [|[n [|]|] l1 IH]; cbn [app highlighted_numbers];
    rewrite ?IH; reflexivity.
Qed.

(** The shape of a strip whose window lies within 1..last. *)
Lemma strip_shape (p s e last : Z) :
  1 <= s -> s <= e -> e <= last ->
  exists h rest,
    strip p s e last = PageButton 1 h :: rest /\
    gaps_marked 1 rest /\ last_button 1 rest = last.
Proof.
  intros Hs Hse Hel. unfold strip, from_to.
  assert (Hn : exists m, Z.to_nat (e - s + 1) = S m /\ Z.of_nat (S m) = e - s + 1).
  { exists (Z.to_nat (e - s)). split; lia. }
  destruct Hn as (m & -> & Hm).
  set (tail := if e <? last
               then ((if e <? last - 1 then [Ellipsis] else [])
                     ++ [PageButton last (p =? last)])%list
               else []).
  assert (Htail : gaps_marked e tail /\ last_button e tail = last).
  { unfold tail.
    destruct (Z.ltb_spec e last) as [Hlt | Hge].
    - destruct (Z.ltb_spec e (last - 1)); cbn [app gaps_marked last_button];
        repeat split; lia.
    - cbn [gaps_marked last_button]. split; [ exact I | lia ]. }
  destruct Htail as [Hgaps Hlast].
  assert (Hwin : forall a k,
             a + Z.of_nat k - 1 = e ->
             gaps_marked (a - 1)
               (map (fun i => PageButton i (p =? i)) (count_up a k) ++ tail) /\
             last_button (a - 1)
               (map (fun i => PageButton i (p =? i)) (count_up a k) ++ tail) = last).
  { intros a k Hk. split.
    - apply gaps_marked_count_up. rewrite Hk. exact Hgaps.
    - rewrite (last_button_count_up p k a (a - 1) tail eq_refl), Hk. exact Hlast. }
  destruct (Z.ltb_spec 1 s) as [Hs1 | Hs1].
  - destruct (Z.ltb_spec 2 s) as [Hs2 | Hs2].
    + (* 1, ellipsis, window *)
      eexists. eexists. split; [ reflexivity | ].
      cbn [app count_up map gaps_marked last_button].
      destruct (Hwin (s + 1) m ltac:(lia)) as [Hg Hl].
      replace (s + 1 - 1) with s in Hg, Hl by lia.
      repeat split; [ lia | exact Hg | exact Hl ].
    + (* 1, then the window from 2 *)
      assert (s = 2) by lia. subst s.
      eexists. eexists. split; [ reflexivity | ].
      cbn [app].
      destruct (Hwin 2 (S m) ltac:(lia)) as [Hg Hl].
      split; [ exact Hg | exact Hl ].
  - (* the window starts at 1 *)
    assert (s = 1) by lia. subst s.
    cbn [app count_up map].
    eexists. eexists. split; [ reflexivity | ].
    destruct (Hwin 2 m ltac:(lia)) as [Hg Hl].
    split; [ exact Hg | exact Hl ].
Qed.

(** X7: for a current page that exists, the number strip begins with the
    button of page 1 and ends with the button of the last page; going along
    it, a button is followed either by the button of the next page or by one
    ellipsis and then a button at least two pages further: page numbers
    strictly increase and every skipped stretch is marked exactly once. *)
Theorem number_strip_runs_from_first_to_last (pg : Pagination) :
  1 <= page pg <= maxPage pg ->
  exists h rest,
    page_items pg = PageButton 1 h :: rest /\
    gaps_marked 1 rest /\ last_button 1 rest = maxPage pg.
Proof.
  intros H. pose proof (page_window_bounds pg H) as Hb. cbv zeta in Hb.
  rewrite page_items_strip. apply strip_shape; lia.
Qed.

Lemma number_strip_runs_from_first_to_last_witness :
  exists h rest,
    page_items (mkPagination 5 10 95) = PageButton 1 h :: rest /\
    gaps_marked 1 rest /\ last_button 1 rest = maxPage (mkPagination 5 10 95).
Proof.
  apply (number_strip_runs_from_first_to_last (mkPagination 5 10 95)).
  vm_compute. split; discriminate.
Defined.

(** X8: for a current page that exists, exactly one button of the strip is
    highlighted, and it is the button of the current page. *)
Theorem only_current_page_highlighted (pg : Pagination) :
  1 <= page pg <= maxPage pg ->
  highlighted_numbers (page_items pg) = [page pg].
Proof.
  intros H. pose proof (page_window_bounds pg H) as Hb. cbv zeta in Hb.
  destruct H as [Hlo Hhi].
  rewrite page_items_strip. unfold strip, from_to.
  set (s := fst (page_window pg)) in *. set (e := snd (page_window pg)) in *.
  rewrite !highlighted_numbers_app, highlighted_count_up.
  assert (Hfirst : highlighted_numbers
                     (if 1 <? s
                      then PageButton 1 (page pg =? 1)
                           :: (if 2 <? s then [Ellipsis] else [])
                      else []) = []).
  { destruct (Z.ltb_spec 1 s); [ | reflexivity ].
    destruct (Z.eqb_spec (page pg) 1); [ lia | ].
    destruct (2 <? s); reflexivity. }
  assert (Hlast : highlighted_numbers
                    (if e <? maxPage pg
                     then ((if e <? maxPage pg - 1 then [Ellipsis] else [])
                           ++ [PageButton (maxPage pg) (page pg =? maxPage pg)])%list
                     else []) = []).
  { destruct (Z.ltb_spec e (maxPage pg)); [ | reflexivity ].
    destruct (Z.eqb_spec (page pg) (maxPage pg)); [ lia | ].
    destruct (e <? maxPage pg - 1); reflexivity. }
  rewrite Hfirst, Hlast.
  destruct (Z.leb_spec s (page pg)); [ | lia ].
  destruct (Z.ltb_spec (page pg) (s + Z.of_nat (Z.to_nat (e - s + 1)))); [ | lia ].
  reflexivity.
Qed.

Lemma only_current_page_highlighted_witness :
  highlighted_numbers (page_items (mkPagination 10 10 95))
  = [page (mkPagination 10 10 95)].
Proof.
  apply (only_current_page_highlighted (mkPagination 10 10 95)).
  vm_compute. split; discriminate.
Defined.

Lemma with_page_same (pg : Pagination) : with_page (page pg) pg = pg.
Proof. destruct pg. reflexivity. Qed.

Lemma with_page_differs (p : Z) (pg : Pagination) :
  p <> page pg -> with_page p pg <> pg.
Proof. intros Hp Heq. apply Hp. rewrite <- Heq. reflexivity. Qed.

(** X9: with a positive page size, on a page with all four pagination
    elements, an arrow is disabled exactly when the move it stands for would
    leave the page number as it is: the previous arrow on page 1 (or below),
    the next arrow on the last page (or beyond). *)
Theorem arrows_disabled_iff_move_is_void (pg : Pagination) (d : PagerDom) :
  0 < limit pg ->
  prev_page d <> None -> next_page d <> None ->
  pagination_numbers d <> None -> showing_results d <> None ->
  exists prev_disabled next_disabled,
    prev_page (updatePagination pg d) = Some prev_disabled /\
    next_page (updatePagination pg d) = Some next_disabled /\
    (prev_disabled = true <-> prevPage pg = pg) /\
    (next_disabled = true <-> nextPage pg = pg).
Proof.
  intros _ Hp Hn Hs Hr. unfold updatePagination.
  destruct (prev_page d); [ | contradiction ].
  destruct (next_page d); [ | contradiction ].
  destruct (pagination_numbers d); [ | contradiction ].
  destruct (showing_results d); [ | contradiction ].
  eexists. eexists. split; [ reflexivity | ]. split; [ reflexivity | ].
  unfold prevPage, nextPage. split.
  - destruct (Z.leb_spec (page pg) 1), (Z.ltb_spec 1 (page pg)); try lia.
    + split; reflexivity.
    + split; [ discriminate | ].
      intros Heq. exfalso. revert Heq. apply with_page_differs. lia.
  - destruct (Z.leb_spec (maxPage pg) (page pg)), (Z.ltb_spec (page pg) (maxPage pg));
      try lia.
    + split; reflexivity.
    + split; [ discriminate | ].
      intros Heq. exfalso. revert Heq. apply with_page_differs. lia.
Qed.

Lemma arrows_disabled_iff_move_is_void_witness :
  exists prev_disabled next_disabled,
    prev_page (updatePagination (mkPagination 1 10 95)
                 (mkPagerDom (Some false) (Some false) (Some "") (Some "")))
      = Some prev_disabled /\
    next_page (updatePagination (mkPagination 1 10 95)
                 (mkPagerDom (Some false) (Some false) (Some "") (Some "")))
      = Some next_disabled /\
    (prev_disabled = true <-> prevPage (mkPagination 1 10 95) = mkPagination 1 10 95) /\
    (next_disabled = true <-> nextPage (mkPagination 1 10 95) = mkPagination 1 10 95).
Proof.
  apply (arrows_disabled_iff_move_is_void (mkPagination 1 10 95)
           (mkPagerDom (Some false) (Some false) (Some "") (Some "")));
    [ reflexivity | discriminate .. ].
Defined.

Lemma maxPage_with_page (p : Z) (pg : Pagination) :
  maxPage (with_page p pg) = maxPage pg.
Proof. reflexivity. Qed.

(** X10: from a current page that exists, the previous and next moves stay
    on existing pages and undo each other wherever they move at all. *)
Theorem page_moves_stay_in_range (pg : Pagination) :
  1 <= page pg <= maxPage pg ->
  (1 <= page (prevPage pg) <= maxPage (prevPage pg)) /\
  (1 <= page (nextPage pg) <= maxPage (nextPage pg)) /\
  (page pg < maxPage pg -> prevPage (nextPage pg) = pg) /\
  (1 < page pg -> nextPage (prevPage pg) = pg).
Proof.
  intros [Hlo Hhi]. unfold prevPage, nextPage.
  destruct (Z.ltb_spec 1 (page pg)) as [H1 | H1];
    destruct (Z.ltb_spec (page pg) (maxPage pg)) as [H2 | H2];
    rewrite ?maxPage_with_page; cbn [with_page page];
    repeat split; try lia; intros H.
  all: try lia.
  all: rewrite ?maxPage_with_page; cbn [with_page page limit total].
  all: repeat match goal with
         | |- context [?a <? ?b] => destruct (Z.ltb_spec a b); try lia
         end.
  all: cbn [with_page page limit total];
    try (replace (page pg + 1 - 1) with (page pg) by lia);
    try (replace (page pg - 1 + 1) with (page pg) by lia);
    try (destruct pg; reflexivity).
Qed.

Lemma page_moves_stay_in_range_witness :
  let pg := mkPagination 3 10 95 in
  (1 <= page (prevPage pg) <= maxPage (prevPage pg)) /\
  (1 <= page (nextPage pg) <= maxPage (nextPage pg)) /\
  (page pg < maxPage pg -> prevPage (nextPage pg) = pg) /\
  (1 < page pg -> nextPage (prevPage pg) = pg).
Proof.
  apply (page_moves_stay_in_range (mkPagination 3 10 95)).
  vm_compute. split; discriminate.
Defined.

Lemma button_numbers_within (items : list PageItem) :
  forall l,
    gaps_marked l items ->
    Forall (fun n => l < n <= last_button l items) (button_numbers items) /\
    l <= last_button l items.
Proof.
  induction items as [|item items IH]; intros l Hg.
  - cbn. split; [ constructor | lia ].
  - destruct item as [n h|].
    + cbn [gaps_marked] in Hg. destruct Hg as [-> Hg].
      destruct (IH _ Hg) as [Hall Hle].
      cbn [button_numbers last_button]. split; [ | lia ].
      constructor; [ lia | ].
      eapply Forall_impl; [ | exact Hall ]. cbn. intros; lia.
    + cbn [gaps_marked] in Hg.
      destruct items as [|[n h|] items]; try contradiction.
      destruct Hg as [Hlt Hg].
      assert (Hg' : gaps_marked (n - 1) (PageButton n h :: items)).
      { cbn [gaps_marked]. split; [ lia | exact Hg ]. }
      destruct (IH _ Hg') as [Hall Hle].
      cbn [button_numbers last_button] in *.
      split; [ | lia ].
      eapply Forall_impl; [ | exact Hall ]. cbn. intros; lia.
Qed.

(** X11: for a current page that exists, every number button of the strip
    carries an existing page, so going to the page of any button shown lands
    on an existing page again. *)
Theorem every_button_leads_to_a_page (pg : Pagination) (n : Z) :
  1 <= page pg <= maxPage pg ->
  In n (button_numbers (page_items pg)) ->
  1 <= page (goToPage n pg) <= maxPage (goToPage n pg).
Proof.
  intros H Hin.
  pose proof (page_window_bounds pg H) as Hb. cbv zeta in Hb.
  destruct (strip_shape (page pg) (fst (page_window pg)) (snd (page_window pg))
                        (maxPage pg)) as (h & rest & Hitems & Hgaps & Hlast);
    try lia.
  rewrite page_items_strip, Hitems in Hin.
  unfold goToPage. rewrite maxPage_with_page. cbn [with_page page].
  cbn [button_numbers] in Hin.
  destruct (button_numbers_within rest 1 Hgaps) as [Hall Hle].
  destruct Hin as [<- | Hin]; [ lia | ].
  rewrite Forall_forall in Hall. specialize (Hall n Hin). lia.
Qed.

Lemma every_button_leads_to_a_page_witness :
  1 <= page (goToPage 7 (mkPagination 5 10 95))
    <= maxPage (goToPage 7 (mkPagination 5 10 95)).
Proof.
  apply (every_button_leads_to_a_page (mkPagination 5 10 95) 7).
  - vm_compute. split; discriminate.
  - vm_compute. tauto.
Defined.

(** X12: with a positive page size and a current page that exists, the
    request offset is one below the first result announced; the announced
    range is not empty, lies within 1..total and holds at most [limit]
    results; before the last page it is a full page and the next page starts
    right after it; on the last page it ends at [total]. *)
Theorem announced_ranges_tile_the_results (pg : Pagination) :
  0 < limit pg ->
  1 <= page pg <= maxPage pg ->
  offset pg = results_start pg - 1 /\
  1 <= results_start pg <= results_end pg /\ results_end pg <= total pg /\
  results_end pg - results_start pg + 1 <= limit pg /\
  (page pg = 1 -> results_start pg = 1) /\
  (page pg < maxPage pg ->
     results_end pg - results_start pg + 1 = limit pg /\
     results_start (nextPage pg) = results_end pg + 1) /\
  (page pg = maxPage pg -> results_end pg = total pg).
Proof.
  intros Hlim [Hlo Hhi].
  pose proof (maxPage_spec pg Hlim) as [Hlow Hup].
  unfold offset, results_end, results_start, nextPage.
  assert (Hmono : (page pg - 1) * limit pg <= (maxPage pg - 1) * limit pg)
    by (apply Z.mul_le_mono_nonneg_r; lia).
  assert (Hpos : 0 <= (page pg - 1) * limit pg) by (apply Z.mul_nonneg_nonneg; lia).
  assert (Hfull : page pg < maxPage pg ->
                  page pg * limit pg <= (maxPage pg - 1) * limit pg)
    by (intros Hlt; apply Z.mul_le_mono_nonneg_r; lia).
  split; [ lia | ]. split; [ lia | ]. split; [ lia | ]. split; [ lia | ].
  split; [ intros ->; lia | ].
  split.
  - intros Hlt. specialize (Hfull Hlt). split; [ lia | ].
    destruct (Z.ltb_spec (page pg) (maxPage pg)); [ | lia ].
    cbn [with_page page limit total]. lia.
  - intros Heq. rewrite Heq in *. lia.
Qed.

Lemma announced_ranges_tile_the_results_witness :
  let pg := mkPagination 2 10 15 in
  offset pg = results_start pg - 1 /\
  1 <= results_start pg <= results_end pg /\ results_end pg <= total pg /\
  results_end pg - results_start pg + 1 <= limit pg /\
  (page pg = 1 -> results_start pg = 1) /\
  (page pg < maxPage pg ->
     results_end pg - results_start pg + 1 = limit pg /\
     results_start (nextPage pg) = results_end pg + 1) /\
  (page pg = maxPage pg -> results_end pg = total pg).
Proof.
  apply (announced_ranges_tile_the_results (mkPagination 2 10 15)).
  - reflexivity.
  - vm_compute. split; discriminate.
Defined.

(** X13: an empty result list, whatever the positive page size, shows no
    number button, disables both arrows and announces the range 1-0 of 0. *)
Theorem empty_list_pagination (lim : Z) (d : PagerDom) :
  0 < lim ->
  prev_page d <> None -> next_page d <> None ->
  pagination_numbers d <> None -> showing_results d <> None ->
  updatePagination (mkPagination 1 lim 0) d =
  mkPagerDom (Some true) (Some true) (Some "") (Some "显示 1-0 / 0 结果").
Proof.
  intros Hlim Hp Hn Hs Hr. unfold updatePagination.
  destruct (prev_page d); [ | contradiction ].
  destruct (next_page d); [ | contradiction ].
  destruct (pagination_numbers d); [ | contradiction ].
  destruct (showing_results d); [ | contradiction ].
  pose proof (maxPage_spec (mkPagination 1 lim 0) Hlim) as [Hlow Hup].
  cbn [limit total] in Hlow, Hup.
  assert (Hmax : maxPage (mkPagination 1 lim 0) = 0) by nia.
  unfold paginationHtml, page_items, page_window, results_text, results_end, results_start.
  rewrite Hmax. cbn [page limit total].
  replace (Z.min (((1 - 1) * lim + 1) + lim - 1) 0) with 0 by lia.
  reflexivity.
Qed.

Lemma empty_list_pagination_witness :
  updatePagination (mkPagination 1 10 0)
    (mkPagerDom (Some false) (Some false) (Some "old") (Some "old")) =
  mkPagerDom (Some true) (Some true) (Some "") (Some "显示 1-0 / 0 结果").
Proof.
  apply (empty_list_pagination 10
           (mkPagerDom (Some false) (Some false) (Some "old") (Some "old")));
    [ reflexivity | discriminate .. ].
Defined.

(** * Properties of the router *)

Lemma prefix_split (p : string) :
  forall s, String.prefix p s = true -> exists v, s = p ++ v.
Proof.
  induction p as [|c p IH]; intros s Hp.
  - exists s. reflexivity.
  - destruct s as [|c' s]; [ discriminate Hp | ].
    cbn [String.prefix] in Hp.
    destruct (ascii_dec c c') as [<- | Hne]; [ | discriminate Hp ].
    destruct (IH s Hp) as (v & ->). exists v. reflexivity.
Qed.

Lemma prefix_app (p v : string) : String.prefix p (p ++ v) = true.
Proof.
  induction p as [|c p IH]; cbn [String.prefix String.append].
  - destruct v; reflexivity.
  - destruct (ascii_dec c c) as [_ | Hne]; [ exact IH | contradiction ].
Qed.

Lemma split_slash_transcription (v : string) :
  split_slash ("transcription/" ++ v) = "transcription" :: split_slash v.
Proof. reflexivity. Qed.

Lemma split_slash_head (v : string) :
  exists segment segments,
    split_slash v = segment :: segments /\ split_slash segment = [segment].
Proof.
  induction v as [|c v (segment & segments & Hv & Hseg)].
  - exists EmptyString, []. split; reflexivity.
  - cbn [split_slash]. destruct (Ascii.eqb c "/") eqn:Hc.
    + exists EmptyString, (split_slash v). split; reflexivity.
    + rewrite Hv. exists (String c segment), segments. split; [ reflexivity | ].
      cbn [split_slash]. rewrite Hc, Hseg. reflexivity.
Qed.

Lemma first_segment_idempotent (v : string) :
  first_segment (first_segment v) = first_segment v.
Proof.
  unfold first_segment.
  destruct (split_slash_head v) as (segment & segments & -> & Hseg).
  cbn [nth]. rewrite Hseg. reflexivity.
Qed.

Lemma id_text_one_segment (id : option string) :
  match id with Some v => first_segment v = v | None => True end ->
  first_segment (id_text id) = id_text id.
Proof.
  destruct id as [v|]; intros H; [ exact H | reflexivity ].
Qed.

Lemma relink_twice (current : string) (links : list (string * bool)) :
  let relink := map (fun link : string * bool =>
                       (fst link, String.eqb (substring1 (fst link)) current)) in
  relink (relink links) = relink links.
Proof.
  cbv zeta. rewrite map_map. apply map_ext. intros [href active]. reflexivity.
Qed.

Lemma fragment_encode_safe (s : string) :
  hash_safe s = true -> fragment_encode s = s.
Proof.
  induction s as [|c s IH]; cbn [hash_safe fragment_encode]; [ reflexivity | ].
  intros H. apply andb_true_iff in H. destruct H as [Hc Hs].
  apply negb_true_iff in Hc.
  assert (Htab : is_tab_or_newline c = false).
  { unfold is_tab_or_newline, in_fragment_encode_set in *. cbv zeta in *.
    repeat (apply orb_false_iff in Hc; destruct Hc as [Hc ?]).
    apply N.leb_gt in Hc.
    repeat (apply orb_false_iff; split); apply N.eqb_neq; lia. }
  rewrite Htab, Hc, (IH Hs). reflexivity.
Qed.

Lemma set_location_hash_safe (body : string) :
  hash_safe body = true -> body <> EmptyString ->
  set_location_hash ("#" ++ body) = "#" ++ body.
Proof.
  intros Hsafe Hne. unfold set_location_hash.
  cbn [String.append]. rewrite Ascii.eqb_refl.
  rewrite (fragment_encode_safe body Hsafe).
  destruct (String.eqb body "") eqn:He; [ | reflexivity ].
  apply String.eqb_eq in He. contradiction.
Qed.

Lemma hash_safe_app (s t : string) :
  hash_safe (s ++ t) = hash_safe s && hash_safe t.
Proof.
  induction s as [|c s IH]; cbn [hash_safe String.append]; [ reflexivity | ].
  rewrite IH, andb_assoc. reflexivity.
Qed.

Lemma hash_safe_segments (s : string) :
  hash_safe s = true -> Forall (fun segment => hash_safe segment = true) (split_slash s).
Proof.
  induction s as [|c s IH]; cbn [hash_safe split_slash]; intros H.
  - constructor; [ reflexivity | constructor ].
  - apply andb_true_iff in H. destruct H as [Hc Hs]. specialize (IH Hs).
    destruct (Ascii.eqb c "/").
    + constructor; [ reflexivity | exact IH ].
    + destruct (split_slash s) as [|segment segments].
      * constructor; [ cbn [hash_safe]; rewrite Hc; reflexivity | constructor ].
      * inversion IH as [|? ? Hseg Hrest]; subst.
        constructor; [ cbn [hash_safe]; rewrite Hc, Hseg; reflexivity | exact Hrest ].
Qed.

Lemma hash_safe_nth (n : nat) (s : string) :
  hash_safe s = true -> hash_safe (nth n (split_slash s) EmptyString) = true.
Proof.
  intros H. pose proof (hash_safe_segments s H) as Hall.
  revert n. induction Hall as [|segment segments Hseg _ IH]; intros [|n]; cbn [nth];
    try reflexivity; [ exact Hseg | apply IH ].
Qed.

(** What [navigateTo] leaves behind, given the page and id it settles on. *)
Lemma navigateTo_result (path : string) (b : Browser) :
  let to_detail := String.prefix "transcription/" path in
  let videoId :=
    if to_detail then Some (nth 1 (split_slash path) EmptyString)
    else currentVideoId (router b) in
  let requested := if to_detail then "detail" else path in
  let current := if String.eqb requested "" then "home" else requested in
  let expectedHash :=
    if String.eqb current "detail"
    then "#transcription/" ++ id_text videoId
    else "#" ++ current in
  let b' := navigateTo path b in
  router b' = mkRouterState current videoId /\
  location_hash b' =
    (if String.eqb (location_hash b) expectedHash
     then expectedHash else set_location_hash expectedHash) /\
  nav_links b' =
    map (fun link => (fst link, String.eqb (substring1 (fst link)) current))
        (nav_links b) /\
  loaded b' = current :: loaded b /\
  hash_writes b' =
    if String.eqb (location_hash b) expectedHash
    then hash_writes b else S (hash_writes b).
Proof.
  cbv zeta. unfold navigateTo.
  match goal with
  | |- context [String.eqb (location_hash b) ?e] =>
      destruct (String.eqb (location_hash b) e) eqn:Hsame
  end; cbn [router location_hash nav_links loaded hash_writes]; repeat split.
  apply String.eqb_eq in Hsame. exact Hsame.
Qed.

(** With a destination and a stored id that a fragment holds as they are,
    the hash reads back as written. *)
Lemma navigateTo_hash_safe (path : string) (b : Browser) :
  hash_safe path = true -> id_is_hash_safe b ->
  let to_detail := String.prefix "transcription/" path in
  let videoId :=
    if to_detail then Some (nth 1 (split_slash path) EmptyString)
    else currentVideoId (router b) in
  let requested := if to_detail then "detail" else path in
  let current := if String.eqb requested "" then "home" else requested in
  hash_safe current = true /\
  hash_safe (id_text videoId) = true /\
  location_hash (navigateTo path b) =
    if String.eqb current "detail"
    then "#transcription/" ++ id_text videoId
    else "#" ++ current.
Proof.
  intros Hpath Hid. cbv zeta.
  pose proof (navigateTo_result path b) as H. cbv zeta in H.
  destruct H as (_ & Hh & _).
  set (to_detail := String.prefix "transcription/" path) in *.
  set (videoId := if to_detail then Some (nth 1 (split_slash path) EmptyString)
                  else currentVideoId (router b)) in *.
  set (requested := if to_detail then "detail" else path) in *.
  set (current := if String.eqb requested "" then "home" else requested) in *.
  assert (Hcur : hash_safe current = true).
  { unfold current, requested.
    destruct to_detail; [ reflexivity | ].
    destruct (String.eqb path ""); [ reflexivity | exact Hpath ]. }
  assert (Hvid : hash_safe (id_text videoId) = true).
  { unfold videoId. destruct to_detail.
    - cbn [id_text]. apply hash_safe_nth, Hpath.
    - unfold id_is_hash_safe in Hid.
      destruct (currentVideoId (router b)); [ exact Hid | reflexivity ]. }
  assert (Hne : current <> EmptyString).
  { unfold current. destruct (String.eqb requested "") eqn:He; [ discriminate | ].
    intros ->. discriminate He. }
  split; [ exact Hcur | split; [ exact Hvid | ] ].
  rewrite Hh.
  match goal with
  | |- (if ?c then _ else _) = _ => destruct c; [ reflexivity | ]
  end.
  destruct (String.eqb current "detail").
  - change ("#transcription/" ++ id_text videoId)
      with ("#" ++ ("transcription/" ++ id_text videoId)).
    apply set_location_hash_safe.
    + rewrite hash_safe_app, Hvid. reflexivity.
    + discriminate.
  - apply set_location_hash_safe; assumption.
Qed.

(** X14: for a destination and a stored video id made of characters a URL
    fragment holds as they are (printable ASCII other than space, the double
    quote, [<], [>] and the backquote), after [navigateTo] the hash names the
    page just opened, so the [hashchange] that a hash write sets off re-enters
    [navigateTo] with the same destination: the page, the id (as text), the
    hash and the link highlighting stay as they are and the hash is not
    written again; the only effect is that the same page is loaded once
    more. *)
Theorem hash_reentry_settles (path : string) (b : Browser) :
  hash_safe path = true ->
  id_is_hash_safe b ->
  id_is_one_segment b ->
  let b1 := navigateTo path b in
  let b2 := on_hashchange b1 in
  id_is_hash_safe b1 /\
  id_is_one_segment b1 /\
  currentPage (router b2) = currentPage (router b1) /\
  id_text (currentVideoId (router b2)) = id_text (currentVideoId (router b1)) /\
  location_hash b2 = location_hash b1 /\
  hash_writes b2 = hash_writes b1 /\
  nav_links b2 = nav_links b1 /\
  loaded b2 = currentPage (router b1) :: loaded b1.
Proof.
  intros Hpath Hsafe Hid b1 b2.
  pose proof (navigateTo_result path b) as H1. cbv zeta in H1. fold b1 in H1.
  pose proof (navigateTo_hash_safe path b Hpath Hsafe) as Hs1. cbv zeta in Hs1.
  fold b1 in Hs1.
  set (to_detail := String.prefix "transcription/" path) in *.
  set (id1 := if to_detail then Some (nth 1 (split_slash path) EmptyString)
              else currentVideoId (router b)) in *.
  set (requested := if to_detail then "detail" else path) in *.
  set (current := if String.eqb requested "" then "home" else requested) in *.
  destruct H1 as (Hr1 & _ & Hl1 & Hld1 & _).
  destruct Hs1 as (_ & Hidsafe & Hh1).
  (* the id read back stays safe *)
  assert (Hsafe1 : id_is_hash_safe b1).
  { unfold id_is_hash_safe. rewrite Hr1. cbn [currentVideoId].
    destruct id1; [ exact Hidsafe | exact I ]. }
  split; [ exact Hsafe1 | ].
  (* the id stays one segment *)
  assert (Hid1 : match id1 with Some v => first_segment v = v | None => True end).
  { unfold id1. destruct to_detail eqn:Hto.
    - destruct (prefix_split _ _ Hto) as (v & ->).
      rewrite split_slash_transcription. cbn [nth].
      apply first_segment_idempotent.
    - exact Hid. }
  assert (Hid1' : id_is_one_segment b1).
  { unfold id_is_one_segment. rewrite Hr1. exact Hid1. }
  split; [ exact Hid1' | ].
  (* the path the listener passes on *)
  set (path2 := if String.eqb current "detail"
                then "transcription/" ++ id_text id1 else current).
  assert (Hb2 : b2 = navigateTo path2 b1).
  { unfold b2, on_hashchange. rewrite Hh1. unfold path2.
    destruct (String.eqb current "detail"); reflexivity. }
  assert (Hnonempty : String.eqb current "" = false).
  { unfold current. destruct (String.eqb requested "") eqn:He; [ reflexivity | exact He ]. }
  pose proof (navigateTo_result path2 b1) as H2. cbv zeta in H2. rewrite <- Hb2 in H2.
  destruct H2 as (Hr2 & Hh2 & Hl2 & Hld2 & Hw2).
  rewrite Hr1 in *. cbn [currentPage currentVideoId] in *.
  destruct (String.eqb current "detail") eqn:Hdetail.
  - (* the detail page: the hash carries the id *)
    apply String.eqb_eq in Hdetail.
    unfold path2 in *. rewrite split_slash_transcription in *. cbn [nth] in *.
    rewrite (prefix_app "transcription/" (id_text id1)) in *.
    cbn match in *. change (String.eqb "detail" "") with false in *.
    change (String.eqb "detail" "detail") with true in *. cbn match in *.
    fold (first_segment (id_text id1)) in *.
    rewrite (id_text_one_segment id1 Hid1) in *.
    cbn [id_text] in *.
    rewrite Hh1, Hdetail in *.
    rewrite String.eqb_refl in Hw2, Hh2.
    rewrite Hr2, Hh2, Hw2, Hl2, Hld2, Hl1. cbn [currentPage currentVideoId id_text].
    repeat split. apply relink_twice.
  - (* any other page: the hash is the page name *)
    unfold path2 in *.
    assert (Hnot : String.prefix "transcription/" current = false).
    { unfold current, requested. destruct to_detail eqn:Hto.
      - reflexivity.
      - destruct (String.eqb path ""); [ reflexivity | exact Hto ]. }
    rewrite Hnot in *. cbn match in *.
    rewrite Hnonempty in *. rewrite Hdetail in *.
    rewrite Hh1 in *. rewrite String.eqb_refl in Hw2, Hh2.
    rewrite Hr2, Hh2, Hw2, Hl2, Hld2, Hl1. cbn [currentPage currentVideoId].
    repeat split. apply relink_twice.
Qed.

Lemma hash_reentry_settles_witness :
  let b1 := navigateTo "transcription/abc/def" fresh_browser in
  let b2 := on_hashchange b1 in
  id_is_hash_safe b1 /\
  id_is_one_segment b1 /\
  currentPage (router b2) = currentPage (router b1) /\
  id_text (currentVideoId (router b2)) = id_text (currentVideoId (router b1)) /\
  location_hash b2 = location_hash b1 /\
  hash_writes b2 = hash_writes b1 /\
  nav_links b2 = nav_links b1 /\
  loaded b2 = currentPage (router b1) :: loaded b1.
Proof.
  apply (hash_reentry_settles "transcription/abc/def" fresh_browser).
  - reflexivity.
  - exact I.
  - exact I.
Defined.

(** Outside those characters the hash reads back encoded: an id with a space
    comes back from the [hashchange] re-entry with [%20] in its place, and
    the router then keeps the encoded id. *)
Lemma escaped_id_is_read_back_encoded :
  let b1 := navigateTo "transcription/a b" fresh_browser in
  let b2 := on_hashchange b1 in
  currentVideoId (router b1) = Some "a b" /\
  location_hash b1 = "#transcription/a%20b" /\
  currentVideoId (router b2) = Some "a%20b" /\
  location_hash b2 = "#transcription/a%20b" /\
  hash_writes b2 = hash_writes b1.
Proof. vm_compute. repeat split. Qed.

Lemma navigateTo_transcription (v : string) (b : Browser) :
  hash_safe v = true ->
  let b' := navigateTo ("transcription/" ++ v) b in
  router b' = mkRouterState "detail" (Some (first_segment v)) /\
  location_hash b' = "#transcription/" ++ first_segment v.
Proof.
  intros Hv.
  pose proof (navigateTo_result ("transcription/" ++ v) b) as H. cbv zeta in *.
  rewrite prefix_app, split_slash_transcription in H. cbn [nth] in H.
  destruct H as (Hr & Hh & _). split; [ exact Hr | ].
  rewrite Hh. cbn match. cbn [id_text]. fold (first_segment v).
  match goal with
  | |- (if ?c then _ else _) = _ => destruct c; [ reflexivity | ]
  end.
  change ("#transcription/" ++ first_segment v)
    with ("#" ++ ("transcription/" ++ first_segment v)).
  apply set_location_hash_safe; [ | discriminate ].
  rewrite hash_safe_app. unfold first_segment.
  rewrite (hash_safe_nth 0 v Hv). reflexivity.
Qed.

(** X15: for a video id made of characters a URL fragment holds as they are
    (printable ASCII other than space, the double quote, [<], [>] and the
    backquote), whenever the monitor calls its navigation callback, the router
    opens the detail page of the monitored video: the current page becomes
    [detail], the current video id is the monitored id (its part before the
    first slash, which is the whole id when it holds none) and the hash reads
    [#transcription/] followed by that id. *)
Theorem monitor_navigation_opens_the_video
  (taskId videoId : string) (page : Dom) (es : list Event) (w : World) (b : Browser) :
  hash_safe videoId = true ->
  run taskId videoId es (monitorTask taskId page) = Some w ->
  Forall (fun path =>
            router (navigateTo path b)
              = mkRouterState "detail" (Some (first_segment videoId)) /\
            location_hash (navigateTo path b)
              = "#transcription/" ++ first_segment videoId)
         (navigations w).
Proof.
  intros Hsafe Hrun.
  assert (Hok : navigation_ok videoId w).
  { apply (navigation_ok_run taskId videoId es (monitorTask taskId page) w).
    - rewrite tokens_monitorTask. lia.
    - split; [ constructor | split; [ constructor | left; reflexivity ] ].
    - exact Hrun. }
  destruct Hok as (Hnav & _ & _).
  eapply Forall_impl; [ | exact Hnav ].
  intros path ->. apply navigateTo_transcription. exact Hsafe.
Qed.

Lemma monitor_navigation_opens_the_video_witness :
  exists w,
    run "t" "BV1xx" [EvSettle (Fulfilled completed_report); EvTimer 0; EvTimer 1]
        (monitorTask "t" dialog_page) = Some w /\
    navigations w = ["transcription/BV1xx"] /\
    Forall (fun path =>
              router (navigateTo path fresh_browser)
                = mkRouterState "detail" (Some (first_segment "BV1xx")) /\
              location_hash (navigateTo path fresh_browser)
                = "#transcription/" ++ first_segment "BV1xx")
           (navigations w).
Proof.
  eexists. split; [ vm_compute; reflexivity | ].
  split; [ vm_compute; reflexivity | ].
  apply (monitor_navigation_opens_the_video "t" "BV1xx" dialog_page
           [EvSettle (Fulfilled completed_report); EvTimer 0; EvTimer 1]).
  - reflexivity.
  - vm_compute. reflexivity.
Defined.

(** * Properties of debouncing *)

Section DebounceProperties.

Variable A : Type.

Lemma clear_named_timer (id : nat) (args : A) :
  clearTimeout (Some id) [(id, args)] = [].
Proof. cbn. rewrite Nat.eqb_refl. reflexivity. Qed.

Lemma one_timer_call (latest : option A) (args : A) (d : Debounced A) :
  one_timer latest d ->
  waiting (debounced_call args d) = [(next_timer d, args)] /\
  one_timer (Some args) (debounced_call args d).
Proof.
  intros Hone.
  assert (Hw : waiting (debounced_call args d) = [(next_timer d, args)]).
  { unfold debounced_call. cbn [waiting].
    destruct Hone as [Hnil | (id & a & Hw & Ht & _)].
    - rewrite Hnil. destruct (timeout d); reflexivity.
    - rewrite Hw, Ht, clear_named_timer. reflexivity. }
  split; [ exact Hw | ].
  right. exists (next_timer d), args. repeat split. exact Hw.
Qed.

Lemma one_timer_fire (latest : option A) (i : nat) (d d' : Debounced A) :
  one_timer latest d -> timer_fires i d = Some d' ->
  waiting d' = [] /\
  exists args, latest = Some args /\ applied d' = (applied d ++ [args])%list.
Proof.
  intros Hone Hfire. unfold timer_fires in Hfire.
  destruct Hone as [Hnil | (id & a & Hw & Ht & Hl)].
  - rewrite Hnil in Hfire. destruct i; discriminate Hfire.
  - rewrite Hw in Hfire. destruct i as [|i]; cbn in Hfire.
    + injection Hfire as <-. cbn. split; [ reflexivity | ].
      exists a. split; [ exact Hl | reflexivity ].
    + destruct i; discriminate Hfire.
Qed.

Lemma one_timer_run (es : list (DebounceEvent A)) :
  forall latest d d',
    one_timer latest d ->
    debounce_run es d = Some d' ->
    one_timer (latest_call latest es) d' /\
    (length (applied d') + length (waiting d')
     <= length (applied d) + length (waiting d) + length (calls_of es))%nat /\
    (forall a, In a (applied d') -> In a (applied d) \/ In a (calls_of es)
                                    \/ latest = Some a).
Proof.
  induction es as [|e es IH]; intros latest d d' Hone Hrun; cbn [debounce_run] in Hrun.
  - injection Hrun as <-. cbn [latest_call calls_of length].
    split; [ exact Hone | split; [ lia | auto ] ].
  - destruct e as [args|i]; cbn [debounce_step] in Hrun.
    + destruct (one_timer_call latest args d Hone) as [Hw Hone'].
      destruct (IH _ _ _ Hone' Hrun) as (Hinv & Hlen & Hin).
      cbn [latest_call calls_of length].
      rewrite Hw in Hlen. cbn [debounced_call applied length] in Hlen, Hin.
      split; [ exact Hinv | split; [ lia | ] ].
      intros a Ha. destruct (Hin a Ha) as [H | [H | H]].
      * left. exact H.
      * right. left. right. exact H.
      * injection H as ->. right. left. left. reflexivity.
    + destruct (timer_fires i d) as [d1|] eqn:Hfire; [ | discriminate ].
      destruct (one_timer_fire latest i d d1 Hone Hfire) as (Hw1 & a1 & Hl & Ha1).
      assert (Hone1 : one_timer latest d1) by (left; exact Hw1).
      destruct (IH _ _ _ Hone1 Hrun) as (Hinv & Hlen & Hin).
      cbn [latest_call calls_of].
      assert (Hwd : (1 <= length (waiting d))%nat).
      { unfold timer_fires in Hfire.
        destruct (waiting d); [ destruct i; discriminate | cbn; lia ]. }
      rewrite Ha1, Hw1, length_app in Hlen. cbn [length] in Hlen.
      split; [ exact Hinv | split; [ lia | ] ].
      intros a Ha. destruct (Hin a Ha) as [H | [H | H]].
      * rewrite Ha1 in H. apply in_app_or in H. destruct H as [H | [<- | []]].
        -- left. exact H.
        -- right. right. exact Hl.
      * right. left. exact H.
      * right. right. exact H.
Qed.

End DebounceProperties.

(** X16: however calls and timer firings are interleaved, a debounced
    function keeps at most one timer waiting; that timer is the one [timeout]
    names and it carries the arguments of the latest call.  The function is
    applied no more often than it was called, and only to arguments of actual
    calls. *)
Theorem debounce_keeps_one_timer
  (A : Type) (first_id : nat) (es : list (DebounceEvent A)) (d : Debounced A) :
  debounce_run es (debounce first_id) = Some d ->
  (waiting d = [] \/
   exists id args,
     waiting d = [(id, args)] /\ timeout d = Some id /\
     latest_call None es = Some args) /\
  (length (applied d) + length (waiting d) <= length (calls_of es))%nat /\
  (forall a, In a (applied d) -> In a (calls_of es)).
Proof.
  intros Hrun.
  assert (H0 : one_timer (@None A) (debounce first_id)) by (left; reflexivity).
  destruct (one_timer_run A es None _ _ H0 Hrun) as (Hone & Hlen & Hin).
  split; [ exact Hone | ]. split; [ exact Hlen | ].
  intros a Ha. destruct (Hin a Ha) as [[] | [H | H]]; [ exact H | discriminate H ].
Qed.

Lemma debounce_keeps_one_timer_witness :
  exists d,
    debounce_run [Call "a"; Call "ab"; Fire 0; Call "abc"] (debounce 1) = Some d /\
    (waiting d = [] \/
     exists id args,
       waiting d = [(id, args)] /\ timeout d = Some id /\
       latest_call None [Call "a"; Call "ab"; Fire 0; Call "abc"] = Some args) /\
    (length (applied d) + length (waiting d)
     <= length (calls_of [Call "a"; Call "ab"; Fire 0; Call "abc"]))%nat /\
    (forall a, In a (applied d) ->
               In a (calls_of [Call "a"; Call "ab"; Fire 0; Call "abc"])).
Proof.
  eexists. split; [ reflexivity | ].
  apply (debounce_keeps_one_timer string 1 [Call "a"; Call "ab"; Fire 0; Call "abc"]).
  reflexivity.
Defined.

Lemma debounce_run_app (A : Type) (es1 es2 : list (DebounceEvent A)) :
  forall d,
    debounce_run (es1 ++ es2) d =
    match debounce_run es1 d with
    | Some d1 => debounce_run es2 d1
    | None => None
    end.
Proof.
  induction es1 as [|e es1 IH]; intros d; cbn [debounce_run app]; [ reflexivity | ].
  destruct (debounce_step e d); [ apply IH | reflexivity ].
Qed.

Lemma calls_run (A : Type) (burst : list A) :
  forall d : Debounced A,
    exists d', debounce_run (map Call burst) d = Some d' /\ applied d' = applied d.
Proof.
  induction burst as [|a burst IH]; intros d; cbn [map debounce_run debounce_step].
  - exists d. split; reflexivity.
  - destruct (IH (debounced_call a d)) as (d' & Hrun & Happ).
    exists d'. split; [ exact Hrun | exact Happ ].
Qed.

(** X17: a burst of calls with no timer firing in between, followed by the
    timer, applies the function exactly once, to the arguments of the last
    call of the burst, and leaves no timer waiting; this holds in whatever
    state the burst finds the debounced function. *)
Theorem burst_applies_last_call_once
  (A : Type) (first_id : nat) (es : list (DebounceEvent A)) (d : Debounced A)
  (burst : list A) (last : A) :
  debounce_run es (debounce first_id) = Some d ->
  exists d',
    debounce_run (map Call burst ++ [Call last; Fire 0]) d = Some d' /\
    applied d' = (applied d ++ [last])%list /\
    waiting d' = [].
Proof.
  intros Hrun.
  assert (H0 : one_timer (@None A) (debounce first_id)) by (left; reflexivity).
  destruct (one_timer_run A es None _ _ H0 Hrun) as (Hone & _ & _).
  destruct (calls_run A burst d) as (d1 & Hrun1 & Happ1).
  destruct (one_timer_run A (map Call burst) _ _ _ Hone Hrun1) as (Hone1 & _ & _).
  destruct (one_timer_call A _ last d1 Hone1) as [Hw _].
  rewrite debounce_run_app, Hrun1. cbn [debounce_run debounce_step].
  unfold timer_fires. rewrite Hw. cbn [nth_error remove_nth].
  eexists. split; [ reflexivity | ].
  cbn [applied waiting debounced_call]. rewrite Happ1. split; reflexivity.
Qed.

Lemma burst_applies_last_call_once_witness :
  exists d',
    debounce_run (map Call ["b"; "bi"] ++ [Call "bil"; Fire 0])
                 (debounced_call "x" (debounce 1)) = Some d' /\
    applied d' = (applied (debounced_call "x" (debounce 1)) ++ ["bil"])%list /\
    waiting d' = [].
Proof.
  apply (burst_applies_last_call_once string 1 [Call "x"]
           (debounced_call "x" (debounce 1)) ["b"; "bi"] "bil").
  reflexivity.
Defined.

(** * Properties of the dropdown menus *)

Lemma open_menus_cons (el : Element) (els : list Element) :
  open_menus (el :: els) = ((if is_open_menu el then 1 else 0) + open_menus els)%nat.
Proof.
  unfold open_menus. change (el :: els) with ([el] ++ els)%list.
  rewrite count_if_app, count_if_single. reflexivity.
Qed.

Lemma open_menus_hide_all (els : list Element) :
  open_menus (hide_all_dropdowns els) = O.
Proof.
  induction els as [|el els IH]; [ reflexivity | ].
  cbn [hide_all_dropdowns map]. fold (hide_all_dropdowns els).
  rewrite open_menus_cons, IH.
  unfold is_open_menu. destruct (dropdown_content el) eqn:Hdc; cbn; rewrite ?Hdc;
    try reflexivity.
Qed.

Lemma open_menus_update (id : string) (f : Element -> Element) (els : list Element) :
  (open_menus (update_by_id id f els) <= S (open_menus els))%nat.
Proof.
  induction els as [|el els IH]; cbn [update_by_id]; [ cbn; lia | ].
  destruct (String.eqb (element_id el) id); rewrite !open_menus_cons.
  - destruct (is_open_menu (f el)), (is_open_menu el); lia.
  - lia.
Qed.

Lemma open_menus_update_hide (id : string) (els : list Element) :
  (open_menus (update_by_id id (set_hidden true) els) <= open_menus els)%nat.
Proof.
  induction els as [|el els IH]; cbn [update_by_id]; [ lia | ].
  destruct (String.eqb (element_id el) id); rewrite !open_menus_cons.
  - unfold is_open_menu at 1. cbn. rewrite andb_false_r. lia.
  - lia.
Qed.

Lemma getElementById_update (id : string) (f : Element -> Element) (els : list Element)
      (el : Element) :
  (forall e, element_id (f e) = element_id e) ->
  getElementById id els = Some el ->
  getElementById id (update_by_id id f els) = Some (f el).
Proof.
  intros Hf. unfold getElementById.
  induction els as [|e els IH]; cbn [find update_by_id]; [ discriminate | ].
  destruct (String.eqb (element_id e) id) eqn:He.
  - intros [= ->]. cbn [find]. rewrite Hf, He. reflexivity.
  - intros H. cbn [find]. rewrite He. apply IH. exact H.
Qed.

Lemma getElementById_hide_all (id : string) (els : list Element) (el : Element) :
  getElementById id els = Some el ->
  exists el', getElementById id (hide_all_dropdowns els) = Some el' /\
              dropdown_content el' = dropdown_content el.
Proof.
  unfold getElementById, hide_all_dropdowns.
  induction els as [|e els IH]; cbn [find map]; [ discriminate | ].
  destruct (dropdown_content e) eqn:Hdc; cbn [set_hidden element_id];
    destruct (String.eqb (element_id e) id) eqn:He.
  - intros [= <-]. eexists. split; [ reflexivity | cbn; congruence ].
  - exact IH.
  - intros [= <-]. eexists. split; [ reflexivity | reflexivity ].
  - exact IH.
Qed.

(** X18: opening a hidden dropdown closes every other one: after
    [toggleDropdown] on an element that exists and is hidden, that element is
    shown and it is the only open dropdown, if it is a dropdown at all.  And
    over any sequence of toggles and hides, a page with at most one open
    dropdown never gets a second one. *)
Theorem at_most_one_menu_open (els : list Element) :
  (open_menus els <= 1)%nat ->
  (forall actions, (open_menus (menu_run actions els) <= 1)%nat) /\
  (forall id el,
      getElementById id els = Some el -> hidden el = true ->
      exists el',
        getElementById id (toggleDropdown id els) = Some el' /\
        hidden el' = false /\
        open_menus (toggleDropdown id els)
          = if dropdown_content el then 1%nat else 0%nat).
Proof.
  intros Hone. split.
  - intros actions. revert els Hone.
    induction actions as [|a actions IH]; intros els Hone; cbn [menu_run fold_left].
    + exact Hone.
    + apply IH. destruct a as [id|id]; cbn [menu_step].
      * unfold toggleDropdown.
        destruct (getElementById id els) as [el|]; [ | exact Hone ].
        destruct (hidden el).
        -- pose proof (open_menus_update id (set_hidden false) (hide_all_dropdowns els)) as H.
           rewrite open_menus_hide_all in H. exact H.
        -- pose proof (open_menus_update_hide id els). lia.
      * unfold hideDropdown.
        destruct (getElementById id els) as [el|]; [ | exact Hone ].
        pose proof (open_menus_update_hide id els). lia.
  - intros id el Hget Hhid. unfold toggleDropdown. rewrite Hget, Hhid.
    destruct (getElementById_hide_all id els el Hget) as (el0 & Hget0 & Hdc0).
    pose proof (getElementById_update id (set_hidden false) _ el0
                  (fun e => eq_refl) Hget0) as Hget1.
    exists (set_hidden false el0). split; [ exact Hget1 | ]. split; [ reflexivity | ].
    rewrite <- Hdc0. clear Hget Hhid Hone Hget1 Hdc0.
    unfold getElementById in Hget0.
    pose proof (open_menus_hide_all els) as Hzero.
    revert Hget0 Hzero. generalize (hide_all_dropdowns els) as l.
    induction l as [|e l IH]; cbn [find update_by_id]; [ discriminate | ].
    rewrite !open_menus_cons.
    destruct (String.eqb (element_id e) id) eqn:He.
    + intros [= ->] Hz. rewrite open_menus_cons.
      unfold is_open_menu at 1. cbn [set_hidden dropdown_content hidden negb].
      rewrite andb_true_r.
      destruct (dropdown_content el0); lia.
    + intros Hfind Hz. rewrite open_menus_cons.
      destruct (is_open_menu e); [ lia | ]. cbn [Nat.add] in *.
      apply IH; assumption.
Qed.

Lemma at_most_one_menu_open_witness :
  let els := [mkElement "export-dropdown" true false;
              mkElement "tag-dropdown" true true] in
  (forall actions, (open_menus (menu_run actions els) <= 1)%nat) /\
  (forall id el,
      getElementById id els = Some el -> hidden el = true ->
      exists el',
        getElementById id (toggleDropdown id els) = Some el' /\
        hidden el' = false /\
        open_menus (toggleDropdown id els)
          = if dropdown_content el then 1%nat else 0%nat).
Proof.
  apply (at_most_one_menu_open [mkElement "export-dropdown" true false;
                                mkElement "tag-dropdown" true true]).
  vm_compute. lia.
Defined.

(** * Properties of submitting *)

(** X19: when the submit response is a success that is not already
    completed and the page has the three elements of the task dialog, the
    dialog is opened with the bar at 5% and the first status request goes out;
    from there on, whatever the monitor receives, the bar stays within 5..100.
    The monitor runs on the task and video ids of the response. *)
Theorem submission_starts_monitor_in_range (data : SubmitData) (d : Dom) :
  submit_success data = true ->
  (forall s, submit_status data = Some s -> String.eqb s "completed" = false) ->
  task_modal d <> None -> task_status d <> None -> task_progress d <> None ->
  exists w,
    submitTranscription_resume (Some data) d
      = Monitoring (task_id data) (video_id data) w /\
    task_modal (dom w) = Some false /\
    task_progress (dom w) = Some (Some 5%Q) /\
    task_status (dom w) = Some "正在下载视频，请稍候..." /\
    fetches w = 1%nat /\ in_flight w = 1%nat /\
    forall es w',
      run (task_id data) (video_id data) es w = Some w' ->
      bar_ok (dom w') /\ Forall write_ok (trace w').
Proof.
  intros Hs Hst Hm Ht Hp. unfold submitTranscription_resume. rewrite Hs.
  assert (Hnot : match submit_status data with
                 | Some s => String.eqb s "completed"
                 | None => false
                 end = false).
  { destruct (submit_status data) as [s|]; [ apply Hst; reflexivity | reflexivity ]. }
  rewrite Hnot.
  eexists. split; [ reflexivity | ].
  pose proof (showTaskModal_bar_ok "正在下载视频，请稍候..." d Hm Ht Hp) as Hbar.
  assert (Hshown : showTaskModal "正在下载视频，请稍候..." d
                   = mkDom (Some false) (Some "正在下载视频，请稍候...") (Some (Some 5%Q))).
  { unfold showTaskModal.
    destruct (task_modal d); [ | contradiction ].
    destruct (task_status d); [ | contradiction ].
    destruct (task_progress d); [ | contradiction ].
    reflexivity. }
  split; [ rewrite Hshown; reflexivity | ].
  split; [ rewrite Hshown; reflexivity | ].
  split; [ rewrite Hshown; reflexivity | ].
  split; [ reflexivity | ].
  split; [ reflexivity | ].
  intros es w' Hrun.
  eapply (display_ok_run (task_id data) (video_id data) es); [ | exact Hrun ].
  split; [ exact Hbar | constructor; [ exact I | constructor ] ].
Qed.

Lemma submission_starts_monitor_in_range_witness :
  let data := mkSubmitData true (Some "processing") "BV1xx" "task-1" None in
  let d := mkDom (Some true) (Some "") (Some None) in
  exists w,
    submitTranscription_resume (Some data) d
      = Monitoring (task_id data) (video_id data) w /\
    task_modal (dom w) = Some false /\
    task_progress (dom w) = Some (Some 5%Q) /\
    task_status (dom w) = Some "正在下载视频，请稍候..." /\
    fetches w = 1%nat /\ in_flight w = 1%nat /\
    forall es w',
      run (task_id data) (video_id data) es w = Some w' ->
      bar_ok (dom w') /\ Forall write_ok (trace w').
Proof.
  apply (submission_starts_monitor_in_range
           (mkSubmitData true (Some "processing") "BV1xx" "task-1" None)
           (mkDom (Some true) (Some "") (Some None))).
  - reflexivity.
  - intros s [= <-]. reflexivity.
  - discriminate.
  - discriminate.
  - discriminate.
Defined.
